(** * SaWinHETUtility: the transformation engine of [app/core.py]

    A shallow embedding of the flat-record transformer and the proofs of
    its specified properties, followed by the conversion endpoint of
    [app/app.py] that calls it.

    Conventions of the embedding.
    - A Python [str] is a [string]: a sequence of code points below 256.
      In that range the decimal digits are ['0'..'9'] and the characters
      removed by [str.strip()] are the ones listed in [is_space].
    - A Python [float] is a [spec_float] (IEEE binary64 as sign, mantissa
      and binary exponent); [float(s)] rounds the decimal it reads to the
      nearest double, ties to even.
    - A Python [dict] is an association list in insertion order; assigning
      to a present key keeps its position.
    - An exception is a [Raise] in the [result] monad.
    - A value has no identity: a NaN used as a dict key is taken for an
      object of its own each time (see [find_key]). *)

From Stdlib Require Import ZArith List Bool Ascii String Lia Permutation.
From Stdlib Require Import Numbers.DecimalString.
From Stdlib Require Import Floats.SpecFloat.
Import ListNotations.

Set Warnings "-register-all".

Local Open Scope string_scope.
Local Open Scope list_scope.
Local Open Scope Z_scope.

(** ** Exceptions *)

Inductive exn : Type :=
| ValueError
| OverflowError
| TypeError
| KeyError
| AttributeError.

Inductive result (A : Type) : Type :=
| Ok (a : A)
| Raise (e : exn).

Arguments Ok {A} a.
Arguments Raise {A} e.

Definition bind {A B : Type} (c : result A) (k : A -> result B) : result B :=
  match c with
  | Ok a => k a
  | Raise e => Raise e
  end.

Notation "x <- c ;; k" := (bind c (fun x => k))
  (at level 61, c at next level, right associativity).

(** ** Characters and strings *)

Module Str.

Definition code (c : ascii) : N := N_of_ascii c.

Definition is_digit (c : ascii) : bool :=
  ((48 <=? code c) && (code c <=? 57))%N.

Definition digit_val (c : ascii) : Z := Z.of_N (code c) - 48.

(** [Py_UNICODE_ISSPACE] below 256. *)
Definition is_space (c : ascii) : bool :=
  let n := code c in
  (((9 <=? n) && (n <=? 13)) || ((28 <=? n) && (n <=? 32))
   || (n =? 133) || (n =? 160))%N.

Definition newline : ascii := ascii_of_N 10.

Definition lower (c : ascii) : ascii :=
  let n := code c in
  if ((65 <=? n) && (n <=? 90))%N then ascii_of_N (n + 32) else c.

Fixpoint all (p : ascii -> bool) (s : string) : bool :=
  match s with
  | EmptyString => true
  | String c s' => p c && all p s'
  end.

Fixpoint map (f : ascii -> ascii) (s : string) : string :=
  match s with
  | EmptyString => EmptyString
  | String c s' => String (f c) (map f s')
  end.

Fixpoint drop (n : nat) (s : string) : string :=
  match n, s with
  | O, _ => s
  | S _, EmptyString => EmptyString
  | S k, String _ s' => drop k s'
  end.

(** [s.startswith(p)] *)
Definition startswith (s p : string) : bool := String.prefix p s.

(** The longest prefix of characters satisfying [p], and the rest. *)
Fixpoint span (p : ascii -> bool) (s : string) : string * string :=
  match s with
  | EmptyString => (EmptyString, EmptyString)
  | String c s' =>
      if p c then let (a, b) := span p s' in (String c a, b)
      else (EmptyString, s)
  end.

(** [s.lstrip(chars)] and [s.strip()] *)
Fixpoint lstrip (p : ascii -> bool) (s : string) : string :=
  match s with
  | EmptyString => EmptyString
  | String c s' => if p c then lstrip p s' else s
  end.

Fixpoint rstrip (p : ascii -> bool) (s : string) : string :=
  match s with
  | EmptyString => EmptyString
  | String c s' =>
      match rstrip p s' with
      | EmptyString => if p c then EmptyString else String c EmptyString
      | r => String c r
      end
  end.

Definition strip (s : string) : string := rstrip is_space (lstrip is_space s).

(** [s.split(sep)] for a non-empty separator: the pieces between the
    non-overlapping occurrences of [sep], found from the left.  [skip]
    counts the characters of a separator still to pass over, [acc] is the
    piece being read. *)
Fixpoint split_go (sep : string) (skip : nat) (acc s : string) : list string :=
  match s with
  | EmptyString => [acc]
  | String c s' =>
      match skip with
      | S k => split_go sep k acc s'
      | O =>
          if String.prefix sep s
          then acc :: split_go sep (String.length sep - 1) EmptyString s'
          else split_go sep O (acc ++ String c EmptyString) s'
      end
  end.

Definition split (sep s : string) : list string := split_go sep O EmptyString s.

(** [s.split(sep, 1)]: the text before and after the first occurrence of
    [sep], or [None] when there is none (Python then returns [[s]]). *)
Fixpoint split_once (sep s : string) : option (string * string) :=
  match s with
  | EmptyString =>
      if String.prefix sep EmptyString then Some (EmptyString, EmptyString) else None
  | String c s' =>
      if String.prefix sep s then Some (EmptyString, drop (String.length sep) s)
      else match split_once sep s' with
           | Some (a, b) => Some (String c a, b)
           | None => None
           end
  end.

(** The value of a string of decimal digits. *)
Fixpoint digits_val_acc (acc : Z) (s : string) : Z :=
  match s with
  | EmptyString => acc
  | String c s' => digits_val_acc (10 * acc + digit_val c) s'
  end.

Definition digits_val (s : string) : Z := digits_val_acc 0 s.

End Str.

(** ** Floats: [float(s)] and [int(x)] *)

Module Float.

(** The double nearest to [n / d] ([0 <= n], [0 < d]) with sign [neg],
    ties to even; an overflow gives an infinity, as [float()] does. *)
Definition round_ratio (neg : bool) (n d : Z) : spec_float :=
  if n =? 0 then S754_zero neg
  else
    let k0 := Z.log2 n - Z.log2 d in
    let k := if d * 2 ^ Z.max 0 k0 <=? n * 2 ^ Z.max 0 (- k0) then k0 else k0 - 1 in
    let e := Z.max (k - 52) (-1074) in
    let a := n * 2 ^ Z.max 0 (- e) in
    let b := d * 2 ^ Z.max 0 e in
    let q := a / b in
    let r := a mod b in
    let m := if 2 * r <? b then q
             else if b <? 2 * r then q + 1
             else if Z.even q then q else q + 1 in
    let '(m, e) := if m =? 2 ^ 53 then (2 ^ 52, e + 1) else (m, e) in
    if m =? 0 then S754_zero neg
    else if 971 <? e then S754_infinity neg
    else S754_finite neg (Z.to_pos m) e.

(** The double nearest to [m * 10 ^ e10]. *)
Definition of_decimal (neg : bool) (m e10 : Z) : spec_float :=
  if 0 <=? e10 then round_ratio neg (m * 10 ^ e10) 1
  else round_ratio neg m (10 ^ (- e10)).

(** Underscores are dropped when each stands between two digits;
    [prev] is the character before the one being read. *)
Fixpoint strip_underscores (prev : option ascii) (s : string) : option string :=
  let prev_digit := match prev with Some p => Str.is_digit p | None => false end in
  let prev_us := match prev with Some "_"%char => true | _ => false end in
  match s with
  | EmptyString => if prev_us then None else Some EmptyString
  | String c s' =>
      if Ascii.eqb c "_" then
        if prev_digit then strip_underscores (Some c) s' else None
      else if prev_us && negb (Str.is_digit c) then None
      else match strip_underscores (Some c) s' with
           | Some t => Some (String c t)
           | None => None
           end
  end.

Definition parse_sign (s : string) : bool * string :=
  match s with
  | String "-" s' => (true, s')
  | String "+" s' => (false, s')
  | _ => (false, s)
  end.

(** [inf], [infinity] and [nan] in any letter case. *)
Definition parse_inf_nan (neg : bool) (s : string) : option spec_float :=
  let l := Str.map Str.lower s in
  if String.eqb l "inf" || String.eqb l "infinity" then Some (S754_infinity neg)
  else if String.eqb l "nan" then Some S754_nan
  else None.

(** The exponent part: [e] or [E], an optional sign, one or more digits,
    up to the end of the text. *)
Definition parse_exponent (s : string) : option Z :=
  match s with
  | EmptyString => Some 0
  | String c s' =>
      if Ascii.eqb (Str.lower c) "e" then
        let (eneg, ds) := parse_sign s' in
        match ds with
        | EmptyString => None
        | _ => if Str.all Str.is_digit ds
               then Some (if eneg then - Str.digits_val ds else Str.digits_val ds)
               else None
        end
      else None
  end.

(** [digits [. digits] [exponent]] or [. digits [exponent]] *)
Definition parse_number (neg : bool) (s : string) : option spec_float :=
  let (ip, r1) := Str.span Str.is_digit s in
  let (fp, r2) := match r1 with
                  | String "." r => Str.span Str.is_digit r
                  | _ => (EmptyString, r1)
                  end in
  match (ip ++ fp)%string with
  | EmptyString => None
  | ds =>
      match parse_exponent r2 with
      | Some ex => Some (of_decimal neg (Str.digits_val ds) (ex - Z.of_nat (String.length fp)))
      | None => None
      end
  end.

(** [float(s)] for a text without surrounding white space; [None] is
    Python's [ValueError]. *)
Definition of_string (s : string) : option spec_float :=
  match strip_underscores None s with
  | None => None
  | Some t =>
      let (neg, body) := parse_sign t in
      match parse_number neg body with
      | Some f => Some f
      | None => parse_inf_nan neg body
      end
  end.

(** [int(x)]: truncation towards zero. *)
Definition to_int (x : spec_float) : result Z :=
  match x with
  | S754_zero _ => Ok 0
  | S754_infinity _ => Raise OverflowError
  | S754_nan => Raise ValueError
  | S754_finite neg m e =>
      let a := if 0 <=? e then Z.pos m * 2 ^ e else Z.pos m / 2 ^ (- e) in
      Ok (if neg then - a else a)
  end.

(** [x == z] for a float and an int: the exact values are compared. *)
Definition eqb_int (x : spec_float) (z : Z) : bool :=
  match x with
  | S754_zero _ => z =? 0
  | S754_finite neg m e =>
      let s := if neg then - Z.pos m else Z.pos m in
      if 0 <=? e then s * 2 ^ e =? z else s =? z * 2 ^ (- e)
  | _ => false
  end.

End Float.

(** ** Values *)

Inductive value : Type :=
| VNone
| VBool (b : bool)
| VInt (z : Z)
| VFloat (f : spec_float)
| VStr (s : string)
| VList (l : list value)
| VDict (d : list (string * value)).

Definition dict : Type := list (string * value).

(** A flat entry: [[key, value]]. *)
Definition entry : Type := (string * value)%type.

(** [re.fullmatch(r"-?\d+", s)] *)
Definition is_int_literal (s : string) : bool :=
  let ds := match s with String "-" s' => s' | _ => s end in
  match ds with
  | EmptyString => false
  | _ => Str.all Str.is_digit ds
  end.

(** A [ValueError] of [float(s)] or [int(num)] is caught and gives [raw]
    back; the [OverflowError] of [int(num)] on an infinite [num] is not. *)
Definition normalize_value (raw : value) : result value :=
  match raw with
  | VStr r =>
      if String.eqb r "TRUE" then Ok (VBool true)
      else if String.eqb r "FALSE" then Ok (VBool false)
      else if String.eqb r "null" then Ok VNone
      else
        let s := Str.strip r in
        match s with
        | EmptyString => Ok raw
        | _ =>
            match Float.of_string s with
            | None => Ok raw
            | Some num =>
                if is_int_literal s then
                  match Float.to_int num with
                  | Ok z => Ok (VInt z)
                  | Raise ValueError => Ok raw
                  | Raise e => Raise e
                  end
                else Ok (VFloat num)
            end
        end
  | _ => Ok raw
  end.

(** ** Dicts, in insertion order *)

Fixpoint dict_get (d : dict) (k : string) : option value :=
  match d with
  | [] => None
  | (k', v) :: d' => if String.eqb k' k then Some v else dict_get d' k
  end.

Definition dict_mem (d : dict) (k : string) : bool :=
  match dict_get d k with Some _ => true | None => false end.

(** [d[k] = v] *)
Fixpoint dict_set (d : dict) (k : string) (v : value) : dict :=
  match d with
  | [] => [(k, v)]
  | (k', v') :: d' =>
      if String.eqb k' k then (k', v) :: d' else (k', v') :: dict_set d' k v
  end.

(** [v[k]] for a string [k] *)
Definition subscript (v : value) (k : string) : result value :=
  match v with
  | VDict d => match dict_get d k with
               | Some x => Ok x
               | None => Raise KeyError
               end
  | _ => Raise TypeError
  end.

(** A [for] loop whose body may raise. *)
Fixpoint for_each {A S : Type} (body : S -> A -> result S) (xs : list A) (s : S)
  : result S :=
  match xs with
  | [] => Ok s
  | x :: xs' => s' <- body s x ;; for_each body xs' s'
  end.

(** [l[i:j]] and [range(0, stop, step)] *)
Definition slice {A : Type} (l : list A) (i j : nat) : list A :=
  firstn (j - i) (skipn i l).

Definition range_step (stop step : nat) : list nat :=
  List.map (fun k => (k * step)%nat) (seq 0 ((stop + step - 1) / step)).

(** [for i in range(0, len(entries), n): group = entries[i:i+n]; ...] *)
Definition stride_loop {A S : Type} (n : nat) (body : S -> list A -> result S)
    (entries : list A) (s : S) : result S :=
  for_each (fun st i => body st (slice entries i (i + n)))
    (range_step (List.length entries) n) s.

(** ** [str(v)]

    The engine never inspects the text Python prints for a float, a list
    or a dict; these renderings are left to the runtime. *)

Class Repr : Type := {
  float_repr : spec_float -> string;
  container_repr : value -> string
}.

Definition int_str (z : Z) : string := NilEmpty.string_of_int (Z.to_int z).

Definition py_str `{Repr} (v : value) : string :=
  match v with
  | VNone => "None"
  | VBool true => "True"
  | VBool false => "False"
  | VInt z => int_str z
  | VFloat f => float_repr f
  | VStr s => s
  | VList _ | VDict _ => container_repr v
  end.

(** ** Split entries to 4 arrays based on types *)

Definition boundary_prefix : string := "boundaryAndOpeningStructures__".
Definition mpd_prefix : string := "modernisationProposalDetails__".
Definition mps_prefix : string := "modernisationProposalsOfBuildingServicesSystems__".

Record streams : Type := {
  boundary : list entry;
  mpd : list entry;
  mps : list entry;
  other : list entry
}.

Definition split_step (acc : streams) (e : entry) : streams :=
  let (key, value) := e in
  if Str.startswith key boundary_prefix then
    {| boundary := boundary acc ++ [(key, value)]; mpd := mpd acc;
       mps := mps acc; other := other acc |}
  else if Str.startswith key mpd_prefix then
    {| boundary := boundary acc; mpd := mpd acc ++ [(key, value)];
       mps := mps acc; other := other acc |}
  else if Str.startswith key mps_prefix then
    {| boundary := boundary acc; mpd := mpd acc;
       mps := mps acc ++ [(key, value)]; other := other acc |}
  else
    {| boundary := boundary acc; mpd := mpd acc;
       mps := mps acc; other := other acc ++ [(key, value)] |}.

Definition split_entries (entries : list entry) : streams :=
  fold_left split_step entries
    {| boundary := []; mpd := []; mps := []; other := [] |}.

(** ** Process boundary and opening structures *)

(** [v is None or (isinstance(v, str) and v.strip() == "")] *)
Definition is_blank (v : value) : bool :=
  match v with
  | VNone => true
  | VStr s => String.eqb (Str.strip s) ""
  | _ => false
  end.

(** [d[k][field].append(x)] *)
Definition append_at (d : dict) (k field : string) (x : value) : result dict :=
  r <- subscript (VDict d) k ;;
  l <- subscript r field ;;
  match r, l with
  | VDict rd, VList xs => Ok (dict_set d k (VDict (dict_set rd field (VList (xs ++ [x])))))
  | _, _ => Raise AttributeError
  end.

Definition quality_entry (quality u dimension : value) : value :=
  VDict [("quality", quality); ("U", u); ("dimension", dimension)].

(** The body of the loop, for [group = entries[i:i+4]]. *)
Definition boundary_group `{Repr} (structures_by_type : dict)
    (group : list entry) : result dict :=
  match group with
  | [g0; g1; g2; g3] =>
      type_of_structure <- normalize_value (snd g0) ;;
      quality <- normalize_value (snd g1) ;;
      u <- normalize_value (snd g2) ;;
      dimension <- normalize_value (snd g3) ;;
      if is_blank quality then Ok structures_by_type
      else
        let type_key := py_str type_of_structure in
        let structures_by_type :=
          if dict_mem structures_by_type type_key then structures_by_type
          else dict_set structures_by_type type_key
                 (VDict [("typeOfStructure", VStr type_key);
                         ("energeticQualities", VList [])]) in
        append_at structures_by_type type_key "energeticQualities"
          (quality_entry quality u dimension)
  | _ => Ok structures_by_type
  end.

Definition process_boundary `{Repr} (entries : list entry) : result (list value) :=
  structures_by_type <- stride_loop 4 boundary_group entries [] ;;
  Ok (List.map snd structures_by_type).

(** ** Process modernisation proposal details *)

Definition proposal_record (structure_type structure_note structure_surface_area
    air_tightness note current_state_value good_u good_dimensions
    excellent_u excellent_dimensions : value) : value :=
  VDict [("structureType", structure_type);
         ("structureNote", structure_note);
         ("structureSurfaceArea", structure_surface_area);
         ("airTightness", air_tightness);
         ("note", note);
         ("currentStateValue", current_state_value);
         ("proposalEnergeticQualities",
          VList [VDict [("quality", VStr "good"); ("u", good_u);
                        ("dimension", good_dimensions)];
                 VDict [("quality", VStr "excellent"); ("u", excellent_u);
                        ("dimension", excellent_dimensions)]])].

(** The body of the loop, for [group = entries[i:i+10]]. *)
Definition mpd_group (proposals : list value) (group : list entry)
  : result (list value) :=
  match group with
  | [g0; g1; g2; g3; g4; g5; g6; g7; g8; g9] =>
      structure_type <- normalize_value (snd g0) ;;
      structure_note <- normalize_value (snd g1) ;;
      structure_surface_area <- normalize_value (snd g2) ;;
      air_tightness <- normalize_value (snd g3) ;;
      note <- normalize_value (snd g4) ;;
      current_state_value <- normalize_value (snd g5) ;;
      good_u <- normalize_value (snd g6) ;;
      good_dimensions <- normalize_value (snd g7) ;;
      excellent_u <- normalize_value (snd g8) ;;
      excellent_dimensions <- normalize_value (snd g9) ;;
      if is_blank structure_type then Ok proposals
      else Ok (proposals ++
                 [proposal_record structure_type structure_note
                    structure_surface_area air_tightness note current_state_value
                    good_u good_dimensions excellent_u excellent_dimensions])
  | _ => Ok proposals
  end.

Definition process_mpd (entries : list entry) : result (list value) :=
  stride_loop 10 mpd_group entries [].

(** ** Process modernisation proposals of building services systems *)

(** The keys of [recommended_by_cat] are normalized values.  [hashable]
    tells the values a dict accepts as keys, [key_eqb] is Python's [==]
    on those ([True == 1 == 1.0]; a NaN equals nothing).

    A dict finds a key by identity before it tries [==].  The two differ
    for a NaN only: it equals nothing, but the very same NaN object is
    found again.  A value of the model has no identity, and [find_key]
    takes every NaN for an object of its own, which is what [float(s)]
    makes of a string.  A stream that hands one NaN float object to a
    system twice as a category is outside the model: the code files both
    under one group, [find_key] opens a second one. *)
Definition hashable (v : value) : bool :=
  match v with
  | VList _ | VDict _ => false
  | _ => true
  end.

Definition num_of_bool (b : bool) : Z := if b then 1 else 0.

Definition key_eqb (a b : value) : bool :=
  match a, b with
  | VNone, VNone => true
  | VStr s, VStr t => String.eqb s t
  | VBool x, VBool y => Bool.eqb x y
  | VBool x, VInt z | VInt z, VBool x => num_of_bool x =? z
  | VInt x, VInt y => x =? y
  | VBool x, VFloat f | VFloat f, VBool x => Float.eqb_int f (num_of_bool x)
  | VInt z, VFloat f | VFloat f, VInt z => Float.eqb_int f z
  | VFloat f, VFloat g => SFeqb f g
  | _, _ => false
  end.

(** [v in ("", None)] *)
Definition is_empty_or_none (v : value) : bool :=
  match v with
  | VNone => true
  | VStr s => String.eqb s ""
  | _ => false
  end.

Fixpoint find_key (k : value) (d : list (value * dict)) (i : nat) : option nat :=
  match d with
  | [] => None
  | (k', _) :: d' => if key_eqb k' k then Some i else find_key k d' (S i)
  end.

Fixpoint update_nth {A : Type} (n : nat) (f : A -> A) (l : list A) : list A :=
  match l, n with
  | [], _ => []
  | x :: l', O => f x :: l'
  | x :: l', S n' => x :: update_nth n' f l'
  end.

(** The accumulators of [process_mps].  [current_recommended] refers to
    one of the groups held in [recommended_by_cat]: it is kept as the
    position of that group, so that appending to it changes the group the
    dict holds. *)
Record mps_state : Type := {
  systems : list value;
  current_system : option dict;
  current_actual : option dict;
  recommended_by_cat : option (list (value * dict));
  current_recommended : option nat;
  current_element : option dict
}.

Definition mps_init : mps_state :=
  {| systems := []; current_system := None; current_actual := None;
     recommended_by_cat := None; current_recommended := None;
     current_element := None |}.

Definition get_or_create_recommended (cat_value : value) (st : mps_state)
  : result mps_state :=
  let by_cat := match recommended_by_cat st with
                | None => []
                | Some d => d
                end in
  let key := if is_empty_or_none cat_value then VNone else cat_value in
  if negb (hashable key) then Raise TypeError
  else
    match find_key key by_cat 0 with
    | Some i =>
        Ok {| systems := systems st; current_system := current_system st;
              current_actual := current_actual st;
              recommended_by_cat := Some by_cat;
              current_recommended := Some i;
              current_element := current_element st |}
    | None =>
        let rec := match key with
                   | VNone => [("systemElements", VList [])]
                   | _ => [("modernisationCategory", cat_value);
                           ("systemElements", VList [])]
                   end in
        Ok {| systems := systems st; current_system := current_system st;
              current_actual := current_actual st;
              recommended_by_cat := Some (by_cat ++ [(key, rec)]);
              current_recommended := Some (List.length by_cat);
              current_element := current_element st |}
    end.

(** [rec.setdefault("systemElements", []).append(x)] *)
Definition append_element (x : value) (rec : dict) : result dict :=
  match dict_get rec "systemElements" with
  | None => Ok (dict_set rec "systemElements" (VList [x]))
  | Some (VList xs) => Ok (dict_set rec "systemElements" (VList (xs ++ [x])))
  | Some _ => Raise AttributeError
  end.

(** [current_recommended] always refers to a group of [recommended_by_cat]
    (the two are set and reset together, see [mps_wf] below): the lookup of
    that group cannot fail, and the [None] branch of [nth_error] only makes
    the function total. *)
Definition finalize_element (st : mps_state) : result mps_state :=
  match current_element st with
  | None => Ok st
  | Some el =>
      st <- match current_recommended st with
            | None => get_or_create_recommended VNone st
            | Some _ => Ok st
            end ;;
      let by_cat := match recommended_by_cat st with
                    | None => []
                    | Some d => d
                    end in
      let i := match current_recommended st with
               | None => O
               | Some i => i
               end in
      match nth_error by_cat i with
      | None => Raise KeyError
      | Some (_, rec) =>
          rec' <- append_element (VDict el) rec ;;
          Ok {| systems := systems st; current_system := current_system st;
                current_actual := current_actual st;
                recommended_by_cat :=
                  Some (update_nth i (fun kr => (fst kr, rec')) by_cat);
                current_recommended := current_recommended st;
                current_element := None |}
      end
  end.

Definition finalize_system (st : mps_state) : result mps_state :=
  match current_system st with
  | None => Ok st
  | Some sys0 =>
      st <- finalize_element st ;;
      let sys1 :=
        match current_actual st with
        | None => sys0
        | Some actual =>
            match dict_get actual "quality" with
            | Some (VStr "") => dict_set sys0 "actualEnergeticQuality" VNone
            | _ => dict_set sys0 "actualEnergeticQuality" (VDict actual)
            end
        end in
      let sys2 :=
        match recommended_by_cat st with
        | None | Some [] => sys1
        | Some by_cat =>
            dict_set sys1 "recommendedModernisations"
              (VList (List.map (fun kr => VDict (snd kr)) by_cat))
        end in
      Ok {| systems := systems st ++ [VDict sys2]; current_system := None;
            current_actual := None; recommended_by_cat := None;
            current_recommended := None; current_element := None |}
  end.

Definition set_element_field (field : string) (v : value) (st : mps_state)
  : mps_state :=
  let el := match current_element st with
            | None => []
            | Some el => el
            end in
  {| systems := systems st; current_system := current_system st;
     current_actual := current_actual st;
     recommended_by_cat := recommended_by_cat st;
     current_recommended := current_recommended st;
     current_element := Some (dict_set el field v) |}.

Definition mps_body (st : mps_state) (e : entry) : result mps_state :=
  let (flat_key, raw_value) := e in
  value <- normalize_value raw_value ;;
  match Str.split_once mps_prefix flat_key with
  | None => Raise ValueError
  | Some (_, suffix) =>
      let suffix := Str.lstrip (Ascii.eqb "_") suffix in
      let parts := Str.split "__" suffix in
      let part := fun i => nth i parts "" in
      let len := List.length parts in
      if String.eqb (part 0%nat) "buildingServiceSystemType" then
        st <- finalize_system st ;;
        Ok {| systems := systems st;
              current_system := Some [("buildingServiceSystemType", value)];
              current_actual := None; recommended_by_cat := None;
              current_recommended := None; current_element := None |}
      else if String.eqb (part 0%nat) "note" && Nat.eqb len 1 then
        let sys := match current_system st with
                   | None => []
                   | Some sys => sys
                   end in
        Ok {| systems := systems st;
              current_system := Some (dict_set sys "note" value);
              current_actual := current_actual st;
              recommended_by_cat := recommended_by_cat st;
              current_recommended := current_recommended st;
              current_element := current_element st |}
      else if String.eqb (part 0%nat) "actualEnergeticQuality" && Nat.eqb len 2 then
        let field := part 1%nat in
        let actual := match current_actual st with
                      | None => []
                      | Some a => a
                      end in
        Ok {| systems := systems st; current_system := current_system st;
              current_actual := Some (dict_set actual field value);
              recommended_by_cat := recommended_by_cat st;
              current_recommended := current_recommended st;
              current_element := current_element st |}
      else if String.eqb (part 0%nat) "recommendedModernisations" then
        if Nat.eqb len 2 && String.eqb (part 1%nat) "modernisationCategory" then
          st <- finalize_element st ;;
          get_or_create_recommended value st
        else if Nat.eqb len 3 && String.eqb (part 1%nat) "systemElements" then
          let field := part 2%nat in
          if String.eqb field "name" then
            st <- finalize_element st ;;
            Ok {| systems := systems st; current_system := current_system st;
                  current_actual := current_actual st;
                  recommended_by_cat := recommended_by_cat st;
                  current_recommended := current_recommended st;
                  current_element := Some [("name", value)] |}
          else if String.eqb field "description" then
            Ok (set_element_field "description" value st)
          else if String.eqb field "isExcellentLevel" then
            Ok (set_element_field "isExcellentLevel" value st)
          else Ok st
        else Ok st
      else Ok st
  end.

Definition process_mps (entries : list entry) : result (list value) :=
  st <- for_each mps_body entries mps_init ;;
  st <- finalize_system st ;;
  Ok (systems st).

Definition mps_key (suffix : string) : string := (mps_prefix ++ suffix)%string.

(** ** Process others *)

Definition alt_energy_prefix : string :=
  "usingAlternativeEnergy__alternativeEnergies__".

(** [_\d+$] at the start of [s]: an underscore, one or more digits, and
    then the end of the text or its final line break. *)
Definition is_index_suffix (s : string) : bool :=
  match s with
  | String "_" r =>
      let (ds, rest) := Str.span Str.is_digit r in
      match ds with
      | EmptyString => false
      | _ => String.eqb rest "" || String.eqb rest (String Str.newline "")
      end
  | _ => false
  end.

(** The longest line-break-free prefix of [s] followed by [_\d+$]. *)
Fixpoint arr_prefix (s : string) : option string :=
  match s with
  | EmptyString => None
  | String c s' =>
      match (if Ascii.eqb c Str.newline then None else arr_prefix s') with
      | Some p => Some (String c p)
      | None => if is_index_suffix s then Some EmptyString else None
      end
  end.

(** [re.match(r"(.+)_\d+$", key)]: group 1 of the match, if any. *)
Definition arr_match (key : string) : option string :=
  match key with
  | EmptyString => None
  | String c s' =>
      if Ascii.eqb c Str.newline then None
      else match arr_prefix s' with
           | Some p => Some (String c p)
           | None => None
           end
  end.

(** The last segment: append to an array or set the field. *)
Definition set_last (current : dict) (key : string) (value : value) : dict :=
  match arr_match key with
  | Some arr_key =>
      let xs := match dict_get current arr_key with
                | Some (VList xs) => xs
                | _ => []
                end in
      dict_set current arr_key (VList (xs ++ [value]))
  | None => dict_set current key value
  end.

(** The walk along [keys], creating a dict where a segment is absent or
    holds something else. *)
Fixpoint set_path (current : dict) (keys : list string) (value : value) : dict :=
  match keys with
  | [] => current
  | [key] => set_last current key value
  | key :: rest =>
      let sub := match dict_get current key with
                 | Some (VDict d) => d
                 | _ => []
                 end in
      dict_set current key (VDict (set_path sub rest value))
  end.

Definition other_body (st : dict * list string) (e : entry)
  : result (dict * list string) :=
  let (result, alternative_energies) := st in
  let (flat_key, raw_value) := e in
  value <- normalize_value raw_value ;;
  if Str.startswith flat_key alt_energy_prefix then
    match value with
    | VBool true =>
        let name := last (Str.split "__" flat_key) "" in
        Ok (result, alternative_energies ++ [name])
    | _ => Ok (result, alternative_energies)
    end
  else if is_empty_or_none value then Ok (result, alternative_energies)
  else Ok (set_path result (Str.split "__" flat_key) value, alternative_energies).

Definition process_other (entries : list entry) : result dict :=
  st <- for_each other_body entries ([], []) ;;
  let (result, alternative_energies) := st in
  match alternative_energies with
  | [] => Ok result
  | _ =>
      match dict_get result "usingAlternativeEnergy" with
      | None =>
          Ok (dict_set result "usingAlternativeEnergy"
                (VDict [("alternativeEnergies",
                         VList (List.map VStr alternative_energies))]))
      | Some (VDict ua) =>
          Ok (dict_set result "usingAlternativeEnergy"
                (VDict (dict_set ua "alternativeEnergies"
                          (VList (List.map VStr alternative_energies)))))
      | Some _ => Raise TypeError
      end
  end.

(** ** Dates: [datetime.strptime(s, "%m/%d/%y")] and [strftime("%y.%m.%d.")] *)

Module Date.

Record date : Type := { year : Z; month : Z; day : Z }.

(** [%m]: [1[0-2]|0[1-9]|[1-9]] *)
Definition parse_month (s : string) : option Z :=
  let n := Str.digits_val s in
  if Str.all Str.is_digit s
     && (Nat.eqb (String.length s) 1 || Nat.eqb (String.length s) 2)
     && (1 <=? n) && (n <=? 12)
  then Some n else None.

(** [%d]: [3[0-1]|[1-2]\d|0[1-9]|[1-9]| [1-9]] *)
Definition parse_day (s : string) : option Z :=
  let ds := match s with
            | String " " (String c EmptyString) => String c EmptyString
            | _ => s
            end in
  let n := Str.digits_val ds in
  if Str.all Str.is_digit ds
     && (Nat.eqb (String.length ds) 1 || Nat.eqb (String.length ds) 2)
     && (1 <=? n) && (n <=? 31)
  then Some n else None.

(** [%y]: [\d\d], read as 1969..2068 *)
Definition parse_year (s : string) : option Z :=
  let n := Str.digits_val s in
  if Str.all Str.is_digit s && Nat.eqb (String.length s) 2
  then Some (if n <=? 68 then 2000 + n else 1900 + n) else None.

Definition is_leap (y : Z) : bool :=
  (y mod 4 =? 0) && (negb (y mod 100 =? 0) || (y mod 400 =? 0)).

Definition days_in_month (y m : Z) : Z :=
  if m =? 2 then (if is_leap y then 29 else 28)
  else if (m =? 4) || (m =? 6) || (m =? 9) || (m =? 11) then 30
  else 31.

(** The month is the text before the first [/], the day the text before
    the next one, the year the rest; the day has to exist in its month. *)
Definition strptime (s : string) : option date :=
  match Str.split_once "/" s with
  | None => None
  | Some (ms, rest) =>
      match Str.split_once "/" rest with
      | None => None
      | Some (ds, ys) =>
          match parse_month ms, parse_day ds, parse_year ys with
          | Some m, Some d, Some y =>
              if d <=? days_in_month y m
              then Some {| year := y; month := m; day := d |}
              else None
          | _, _, _ => None
          end
      end
  end.

Definition digit_char (n : Z) : ascii := ascii_of_N (Z.to_N (48 + n)).

Definition two_digits (n : Z) : string :=
  String (digit_char (n / 10)) (String (digit_char (n mod 10)) "").

Definition strftime (d : date) : string :=
  (two_digits (year d mod 100) ++ "." ++ two_digits (month d) ++ "."
   ++ two_digits (day d) ++ ".")%string.

End Date.

(** ** [base64.b64encode] *)

Definition b64_char (n : Z) : ascii :=
  ascii_of_N (Z.to_N
    (if n <? 26 then 65 + n
     else if n <? 52 then 97 + (n - 26)
     else if n <? 62 then 48 + (n - 52)
     else if n =? 62 then 43 else 47)).

Definition byte_val (b : Byte.byte) : Z := Z.of_N (Byte.to_N b).

Definition sextet (n : Z) (i : Z) : ascii :=
  b64_char (Z.land (Z.shiftr n (18 - 6 * i)) 63).

Fixpoint b64encode (bs : list Byte.byte) : string :=
  match bs with
  | [] => ""
  | [a] =>
      let n := Z.shiftl (byte_val a) 16 in
      String (sextet n 0) (String (sextet n 1) "==")
  | [a; b] =>
      let n := Z.lor (Z.shiftl (byte_val a) 16) (Z.shiftl (byte_val b) 8) in
      String (sextet n 0) (String (sextet n 1) (String (sextet n 2) "="))
  | a :: b :: c :: rest =>
      let n := Z.lor (Z.lor (Z.shiftl (byte_val a) 16) (Z.shiftl (byte_val b) 8))
                 (byte_val c) in
      String (sextet n 0) (String (sextet n 1) (String (sextet n 2)
        (String (sextet n 3) (b64encode rest))))
  end.

(** ** Main process *)

(** The parsed "pairs" file: its [data] array, when present. *)
Record input_obj : Type := { data : option (list entry) }.

(** One image: its bytes, and the [note] and [category] keys when present. *)
Record image : Type := {
  content : list Byte.byte;
  note : option value;
  category : option value
}.

(** [doc[k1][k2]...] *)
Fixpoint get_path (doc : value) (path : list string) : result value :=
  match path with
  | [] => Ok doc
  | k :: rest => v <- subscript doc k ;; get_path v rest
  end.

(** [doc[k1][k2]...[kn] = v] *)
Fixpoint assign_path (doc : dict) (path : list string) (v : value) : result dict :=
  match path with
  | [] => Ok doc
  | [k] => Ok (dict_set doc k v)
  | k :: rest =>
      sub <- subscript (VDict doc) k ;;
      match sub with
      | VDict d => d' <- assign_path d rest v ;; Ok (dict_set doc k (VDict d'))
      | _ => Raise TypeError
      end
  end.

(** [doc[path] = prefix + str(doc[path])] *)
Definition force_str `{Repr} (prefix : string) (path : list string) (doc : dict)
  : result dict :=
  v <- get_path (VDict doc) path ;;
  assign_path doc path (VStr (prefix ++ py_str v)).

Definition materialize `{Repr} (input : input_obj) : result dict :=
  let entries := match data input with
                 | Some l => l
                 | None => []
                 end in
  let s := split_entries entries in
  boundary_processed <- process_boundary (boundary s) ;;
  mpd_processed <- process_mpd (mpd s) ;;
  mps_processed <- process_mps (mps s) ;;
  doc <- process_other (other s) ;;
  let doc := match boundary_processed with
                | [] => doc
                | _ => dict_set doc "boundaryAndOpeningStructures"
                         (VList boundary_processed)
                end in
  let doc := match mpd_processed with
                | [] => doc
                | _ => dict_set doc "modernisationProposalDetails"
                         (VList mpd_processed)
                end in
  let doc := match mps_processed with
                | [] => doc
                | _ => dict_set doc
                         "modernisationProposalsOfBuildingServicesSystems"
                         (VList mps_processed)
                end in
  Ok doc.

(** Force some numeric-ish address fields to strings. *)
Definition force_fields `{Repr} (doc : dict) : result dict :=
  doc <- force_str "" ["buildingData"; "buildingAddress"; "houseNumber"] doc ;;
  doc <- force_str "" ["buildingData"; "buildingAddress"; "building"] doc ;;
  doc <- force_str "" ["buildingData"; "buildingAddress"; "floor"] doc ;;
  doc <- force_str "" ["buildingData"; "buildingAddress"; "doorNumber"] doc ;;
  doc <- force_str "" ["buildingData"; "buildingAddress"; "staircase"] doc ;;
  doc <- force_str "" ["buildingData"; "topographicalNumber"] doc ;;
  doc <- force_str "" ["certifierDetails"; "address"; "houseNumber"] doc ;;
  doc <- force_str "" ["certifierDetails"; "address"; "building"] doc ;;
  doc <- force_str "" ["certifierDetails"; "address"; "floor"] doc ;;
  doc <- force_str "" ["certifierDetails"; "address"; "doorNumber"] doc ;;
  doc <- force_str "" ["certifierDetails"; "address"; "staircase"] doc ;;
  doc <- force_str "" ["certifierDetails"; "topographicalNumber"] doc ;;
  force_str "+" ["certifierDetails"; "phoneNumber"] doc.

Definition date_path : list string := ["validity"; "siteInspectionDate"].

Definition reformat_date (doc : dict) : result dict :=
  v <- get_path (VDict doc) date_path ;;
  match v with
  | VStr s =>
      match Date.strptime s with
      | Some d => assign_path doc date_path (VStr (Date.strftime d))
      | None => Raise ValueError
      end
  | _ => Raise TypeError
  end.

Definition photo (img : image) : value :=
  let note := match note img with
              | Some n => n
              | None => VStr ""
              end in
  let category := match category img with
                  | Some c => c
                  | None => VNone
                  end in
  VDict [("category", category); ("note", note);
         ("content", VStr (b64encode (content img)))].

Definition attach (pdf_bytes : list Byte.byte) (images : list image)
    (doc : dict) : dict :=
  let doc := dict_set doc "calculationsPdfFileContent"
                  (VStr (b64encode pdf_bytes)) in
  dict_set doc "photos" (VList (List.map photo images)).

Definition transform_json `{Repr} (input : input_obj)
    (pdf_bytes : list Byte.byte) (images : list image) : result dict :=
  doc <- materialize input ;;
  doc <- force_fields doc ;;
  doc <- reformat_date doc ;;
  Ok (attach pdf_bytes images doc).

(** * The conversion endpoint ([app.py])

    [convert] works on the request's form fields and talks to S3; the
    calls it depends on are parameters of the model: [get_object] gives
    the stored bytes of a key or the text of the exception it raised,
    [loads] decodes and parses them ([None] when that raises),
    [dumps] is the JSON encoding of the result and [delete_object] gives
    the text of the exception when the deletion raises.  The uploads are
    given by the bytes read from them.  A run is the way the handler ends,
    the S3 calls it made, in order, and the lines it printed.

    The key, like every string here, holds code points below 256.  The
    headers of a response are encoded as Latin-1, which such a key always
    allows.  A key with a wider character before its first hyphen is
    outside the model: there the response cannot be built, and the
    handler raises after the deletion has been asked for. *)

Inductive s3_call : Type :=
| GetObject (key : string)
| DeleteObject (key : string).

Inductive ending : Type :=
| StreamingResponse (body : list Byte.byte) (media_type : string)
    (content_disposition : string)
| HTTPException (status_code : Z) (detail : string)
| Uncaught (e : exn).

Record run : Type := {
  ending_of : ending;
  s3_calls : list s3_call;
  printed : list string
}.

Definition REQUIRED_CATEGORIES : list string :=
  ["coverPhoto"; "characteristicHeatExchanger";
   "characteristicOpeningStructure"].

(** [c in set(l)] *)
Definition mem (c : string) (l : list string) : bool :=
  existsb (String.eqb c) l.

(** [sorted] on strings *)
Fixpoint insert_sorted (x : string) (l : list string) : list string :=
  match l with
  | [] => [x]
  | y :: l' => if String.leb x y then x :: l else y :: insert_sorted x l'
  end.

Definition sorted (l : list string) : list string :=
  fold_right insert_sorted [] l.

(** [zip(xs, ys, zs)] *)
Fixpoint zip3 {A B C : Type} (xs : list A) (ys : list B) (zs : list C)
  : list (A * B * C) :=
  match xs, ys, zs with
  | x :: xs', y :: ys', z :: zs' => (x, y, z) :: zip3 xs' ys' zs'
  | _, _, _ => []
  end.

Definition dquote : string := String (ascii_of_nat 34) EmptyString.

Definition images_meta (images : list (list Byte.byte))
    (categories notes : list string) : list image :=
  List.map (fun t : list Byte.byte * string * string =>
              let '(img, cat, nt) := t in
              {| content := img; note := Some (VStr nt);
                 category := Some (VStr cat) |})
    (zip3 images categories notes).

Section Endpoint.

Context `{Repr}.

Variable get_object : string -> string + list Byte.byte.
Variable loads : list Byte.byte -> option input_obj.
Variable dumps : dict -> list Byte.byte.
Variable delete_object : string -> option string.

Definition convert (json_key : string) (pdf : list Byte.byte)
    (images : list (list Byte.byte)) (categories notes : list string) : run :=
  if negb (Nat.eqb (List.length images) (List.length categories))
     && negb (Nat.eqb (List.length images) (List.length notes))
  then {| ending_of :=
            HTTPException 400 "Number of images and categories must match.";
          s3_calls := []; printed := [] |}
  else if negb (forallb (fun c => mem c categories) REQUIRED_CATEGORIES)
  then
    let missing :=
      filter (fun c => negb (mem c categories)) REQUIRED_CATEGORIES in
    {| ending_of :=
         HTTPException 400
           ("Missing required image categories: "
            ++ String.concat ", " (sorted missing));
       s3_calls := []; printed := [] |}
  else
    match get_object json_key with
    | inl e =>
        {| ending_of :=
             HTTPException 500 ("Failed to download JSON from S3: " ++ e);
           s3_calls := [GetObject json_key]; printed := [] |}
    | inr raw_json_bytes =>
        match loads raw_json_bytes with
        | None =>
            {| ending_of :=
                 HTTPException 400 "Invalid JSON content in S3 object.";
               s3_calls := [GetObject json_key]; printed := [] |}
        | Some input =>
            match transform_json input pdf
                    (images_meta images categories notes) with
            | Raise e =>
                {| ending_of := Uncaught e;
                   s3_calls := [GetObject json_key]; printed := [] |}
            | Ok result_dict =>
                let output_bytes := dumps result_dict in
                let lead_code := nth 0 (Str.split "-" json_key) "" in
                {| ending_of :=
                     StreamingResponse output_bytes "application/json"
                       ("attachment; filename=" ++ dquote ++ lead_code
                        ++ ".json" ++ dquote);
                   s3_calls := [GetObject json_key; DeleteObject json_key];
                   printed :=
                     match delete_object json_key with
                     | Some e =>
                         [("Failed to delete original JSON from S3 ("
                           ++ json_key ++ "): " ++ e)%string]
                     | None => []
                     end |}
            end
        end
    end.

End Endpoint.

(** * Notions the properties are stated with *)

(** ** Families of keys *)

Inductive family : Type := Boundary | Mpd | Mps | Other.

Definition family_eqb (f g : family) : bool :=
  match f, g with
  | Boundary, Boundary | Mpd, Mpd | Mps, Mps | Other, Other => true
  | _, _ => false
  end.

(** The first of the three family prefixes the key starts with. *)
Definition classify (key : string) : family :=
  if Str.startswith key boundary_prefix then Boundary
  else if Str.startswith key mpd_prefix then Mpd
  else if Str.startswith key mps_prefix then Mps
  else Other.

Definition in_family (f : family) (e : entry) : bool :=
  family_eqb (classify (fst e)) f.

(** ** The float 1.5 and the stream of the nested-group example *)

Definition float_1_5 : spec_float := S754_finite false 6755399441055744 (-52).

Definition mps_example : list entry :=
  [(mps_key "buildingServiceSystemType", VStr "Heating");
   (mps_key "recommendedModernisations__modernisationCategory", VStr "Cat1");
   (mps_key "recommendedModernisations__systemElements__name", VStr "E1");
   (mps_key "recommendedModernisations__modernisationCategory", VStr "Cat2");
   (mps_key "recommendedModernisations__systemElements__name", VStr "E2")].

(** ** States of the nested-group builder *)

(** Every state the loop of [process_mps] reaches is well formed: each
    group holds a list of elements and [current_recommended] refers to a
    group that exists. *)
Definition group_ok (kr : value * dict) : Prop :=
  exists xs, dict_get (snd kr) "systemElements" = Some (VList xs).

Definition groups_of (st : mps_state) : list (value * dict) :=
  match recommended_by_cat st with
  | Some g => g
  | None => []
  end.

Definition mps_wf (st : mps_state) : Prop :=
  Forall group_ok (groups_of st)
  /\ match current_recommended st with
     | Some i => (i < List.length (groups_of st))%nat
     | None => True
     end.

(** [q == ""] for the accumulated quality *)
Definition quality_is_empty (actual : dict) : bool :=
  match dict_get actual "quality" with
  | Some (VStr s) => String.eqb s ""
  | _ => false
  end.

Definition default {A : Type} (d : A) (o : option A) : A :=
  match o with
  | Some a => a
  | None => d
  end.

(** ** Windows and groups *)

(** The consecutive windows of exactly [n] entries; what is left over at
    the end is not among them. *)
Fixpoint windows_fuel {A : Type} (fuel n : nat) (l : list A) : list (list A) :=
  match fuel with
  | O => []
  | S f =>
      if (n <=? List.length l)%nat
      then firstn n l :: windows_fuel f n (skipn n l)
      else []
  end.

Definition windows {A : Type} (n : nat) (l : list A) : list (list A) :=
  windows_fuel (List.length l) n l.

(** The distinct keys of [l], each at the place of its first occurrence. *)
Fixpoint first_seen (l : list string) : list string :=
  match l with
  | [] => []
  | k :: r => k :: filter (fun k' => negb (String.eqb k' k)) (first_seen r)
  end.

(** Add [q] to the entries of [k], a new key going last. *)
Fixpoint upsert (g : list (string * list value)) (k : string) (q : value)
  : list (string * list value) :=
  match g with
  | [] => [(k, [q])]
  | (k', qs) :: r =>
      if String.eqb k' k then (k', qs ++ [q]) :: r
      else (k', qs) :: upsert r k q
  end.

Definition entries_of (kq : list (string * value)) (k : string) : list value :=
  List.map snd (filter (fun p => String.eqb (fst p) k) kq).

Definition group_by_key (kq : list (string * value))
  : list (string * list value) :=
  List.map (fun k => (k, entries_of kq k)) (first_seen (List.map fst kq)).

Fixpoint map_result {A B : Type} (f : A -> result B) (l : list A)
  : result (list B) :=
  match l with
  | [] => Ok []
  | x :: r => y <- f x ;; ys <- map_result f r ;; Ok (y :: ys)
  end.

(** The normalized values of a window, taken from left to right. *)
Definition normalized (group : list entry) : result (list value) :=
  map_result (fun e => normalize_value (snd e)) group.

Definition structure_record (k : string) (qs : list value) : value :=
  VDict [("typeOfStructure", VStr k); ("energeticQualities", VList qs)].

(** What the spec calls null or blank, in its own terms: [None], or a
    string that holds nothing but white space. *)
Definition blank (v : value) : bool :=
  match v with
  | VNone => true
  | VStr s => Str.all Str.is_space s
  | _ => false
  end.

(** A normalized window [[type; quality; U; dimension]]: it is kept when
    its quality is not blank, and then gives the entry
    [{quality, U, dimension}]. *)
Definition kept (w : list value) : bool := negb (blank (nth 1 w VNone)).

Definition quality_of (w : list value) : value :=
  VDict [("quality", nth 1 w VNone); ("U", nth 2 w VNone);
         ("dimension", nth 3 w VNone)].

(** ** A long integer literal *)

Fixpoint repeat_char (c : ascii) (n : nat) : string :=
  match n with
  | O => EmptyString
  | S k => String c (repeat_char c k)
  end.

Definition four_hundred_nines : string := repeat_char "9" 400.

(** ** Two-character fields of a date *)

Definition pair_of (c1 c2 : ascii) : string := String c1 (String c2 "").

(** ** Segments and arrays of the generic document *)

Definition no_newline (s : string) : bool :=
  Str.all (fun c => negb (Ascii.eqb c Str.newline)) s.

Definition line_end (nl : string) : Prop :=
  nl = "" \/ nl = String Str.newline "".

(** The array a segment [name] of the mapping at [parents] holds, or
    nothing when there is no array there. *)
Definition array_at (doc : dict) (parents : list string) (name : string)
  : list value :=
  match get_path (VDict doc) (parents ++ [name]) with
  | Ok (VList xs) => xs
  | _ => []
  end.

Definition other_example : list entry :=
  [("a__b", VStr "1"); ("a__c_0", VStr "x"); ("a__c_1", VStr "y")].

(** ** The stride-4 records, grouped by type *)

Section Grouped.

Context `{Repr}.

Definition type_key (w : list value) : string := py_str (nth 0 w VNone).

(** What the spec asks of the stride-4 reconstruction: the windows with a
    non-blank quality, grouped by the string form of their type; one
    record per type, at the place of the type's first window, holding the
    quality entries of its windows in window order. *)
Definition grouped (ws : list (list value)) : list value :=
  let kq := List.map (fun w => (type_key w, quality_of w)) (filter kept ws) in
  List.map (fun k => structure_record k (entries_of kq k))
    (first_seen (List.map fst kq)).

(** [structures_by_type] for the groups collected so far. *)
Definition render (g : list (string * list value)) : dict :=
  List.map (fun kqs => (fst kqs, structure_record (fst kqs) (snd kqs))) g.

Definition boundary_step (g : list (string * list value)) (w : list value)
  : list (string * list value) :=
  if kept w then upsert g (type_key w) (quality_of w) else g.

End Grouped.

(** ** Concrete inputs *)

(** A rendering to run the examples with; none of them prints a float, a
    list or a dict. *)
Definition plain_repr : Repr :=
  {| float_repr := fun _ => "<float>";
     container_repr := fun _ => "<container>" |}.

Definition minimal_entries : list entry :=
  [("buildingData__buildingAddress__houseNumber", VStr "12");
   ("buildingData__buildingAddress__building", VStr "A");
   ("buildingData__buildingAddress__floor", VStr "1");
   ("buildingData__buildingAddress__doorNumber", VStr "3");
   ("buildingData__buildingAddress__staircase", VStr "B");
   ("buildingData__topographicalNumber", VStr "1234");
   ("certifierDetails__address__houseNumber", VStr "7");
   ("certifierDetails__address__building", VStr "C");
   ("certifierDetails__address__floor", VStr "2");
   ("certifierDetails__address__doorNumber", VStr "4");
   ("certifierDetails__address__staircase", VStr "D");
   ("certifierDetails__topographicalNumber", VStr "5678");
   ("certifierDetails__phoneNumber", VStr "36301234567");
   ("validity__siteInspectionDate", VStr "01/02/25");
   ("photos", VStr "from the entries");
   ("calculationsPdfFileContent", VStr "from the entries")].

Definition minimal_input : input_obj := {| data := Some minimal_entries |}.

Definition pdf_example : list Byte.byte := [Byte.x01; Byte.x02; Byte.x03].

Definition images_example : list image :=
  [ {| content := [Byte.x4d; Byte.x61; Byte.x6e];
       note := Some (VStr "front");
       category := Some (VStr "facade") |};
    {| content := [Byte.x4d]; note := None; category := Some (VStr "roof") |} ].

Definition boundary_example : list entry :=
  [("boundaryAndOpeningStructures__0__typeOfStructure", VStr "T1");
   ("boundaryAndOpeningStructures__0__quality", VStr "good");
   ("boundaryAndOpeningStructures__0__U", VStr "1.5");
   ("boundaryAndOpeningStructures__0__dimension", VStr "2");
   ("boundaryAndOpeningStructures__1__typeOfStructure", VStr "T2");
   ("boundaryAndOpeningStructures__1__quality", VStr "  ");
   ("boundaryAndOpeningStructures__1__U", VStr "3");
   ("boundaryAndOpeningStructures__1__dimension", VStr "4");
   ("boundaryAndOpeningStructures__2__typeOfStructure", VStr "T1");
   ("boundaryAndOpeningStructures__2__quality", VStr "excellent");
   ("boundaryAndOpeningStructures__2__U", VStr "5");
   ("boundaryAndOpeningStructures__2__dimension", VStr "6")].

Definition mpd_example : list entry :=
  [("modernisationProposalDetails__0__structureType", VStr "wall");
   ("modernisationProposalDetails__0__structureNote", VStr "n");
   ("modernisationProposalDetails__0__structureSurfaceArea", VStr "10");
   ("modernisationProposalDetails__0__airTightness", VStr "1");
   ("modernisationProposalDetails__0__note", VStr "m");
   ("modernisationProposalDetails__0__currentStateValue", VStr "2");
   ("modernisationProposalDetails__0__goodU", VStr "3");
   ("modernisationProposalDetails__0__goodDimensions", VStr "4");
   ("modernisationProposalDetails__0__excellentU", VStr "5");
   ("modernisationProposalDetails__0__excellentDimensions", VStr "6")].

Definition minimal_doc : dict :=
  Eval vm_compute in
    match @materialize plain_repr minimal_input with
    | Ok doc => doc
    | Raise _ => []
    end.

(** ** Notions of the further properties *)

(** The largest finite double, [(2^53 - 1) * 2^971]. *)
Definition max_double : Z := (2 ^ 53 - 1) * 2 ^ 971.

(** [True], [False], [None], an int or a float. *)
Definition is_scalar (v : value) : bool :=
  match v with
  | VNone | VBool _ | VInt _ | VFloat _ => true
  | _ => false
  end.

(** A normalized window of ten values whose structure type is not blank,
    and the proposal the spec builds from it: the first six values under
    their names, then the [good] and the [excellent] quality, each with
    its [u] and its [dimension]. *)
Definition has_structure_type (w : list value) : bool :=
  negb (blank (nth 0 w VNone)).

Definition proposal_of (w : list value) : value :=
  VDict [("structureType", nth 0 w VNone);
         ("structureNote", nth 1 w VNone);
         ("structureSurfaceArea", nth 2 w VNone);
         ("airTightness", nth 3 w VNone);
         ("note", nth 4 w VNone);
         ("currentStateValue", nth 5 w VNone);
         ("proposalEnergeticQualities",
          VList [VDict [("quality", VStr "good"); ("u", nth 6 w VNone);
                        ("dimension", nth 7 w VNone)];
                 VDict [("quality", VStr "excellent"); ("u", nth 8 w VNone);
                        ("dimension", nth 9 w VNone)]])].

(** The quality entries held by a list of structure records. *)
Definition qualities_in (r : value) : list value :=
  match r with
  | VDict d => match dict_get d "energeticQualities" with
               | Some (VList qs) => qs
               | _ => []
               end
  | _ => []
  end.

Fixpoint total_length {A B : Type} (g : list (A * list B)) : nat :=
  match g with
  | [] => O
  | (_, xs) :: r => (List.length xs + total_length r)%nat
  end.

(** The kinds of key the nested-group builder tells apart, as the chain of
    tests in its loop decides them; [None] is a key without the family
    prefix. *)
Inductive mps_kind : Type :=
| KSystem
| KNote
| KActual (field : string)
| KCategory
| KName
| KDescription
| KExcellent
| KIgnored.

Definition mps_kind_of (flat_key : string) : option mps_kind :=
  match Str.split_once mps_prefix flat_key with
  | None => None
  | Some (_, suffix) =>
      let parts := Str.split "__" (Str.lstrip (Ascii.eqb "_") suffix) in
      let part := fun i => nth i parts "" in
      let len := List.length parts in
      Some
        (if String.eqb (part 0%nat) "buildingServiceSystemType" then KSystem
         else if String.eqb (part 0%nat) "note" && Nat.eqb len 1 then KNote
         else if String.eqb (part 0%nat) "actualEnergeticQuality" && Nat.eqb len 2
         then KActual (part 1%nat)
         else if String.eqb (part 0%nat) "recommendedModernisations" then
           if Nat.eqb len 2 && String.eqb (part 1%nat) "modernisationCategory"
           then KCategory
           else if Nat.eqb len 3 && String.eqb (part 1%nat) "systemElements" then
             if String.eqb (part 2%nat) "name" then KName
             else if String.eqb (part 2%nat) "description" then KDescription
             else if String.eqb (part 2%nat) "isExcellentLevel" then KExcellent
             else KIgnored
           else KIgnored
         else KIgnored)
  end.

(** An entry the builder can take in: its value normalizes, and a
    category is something a dict accepts as a key. *)
Definition mps_entry_ok (e : entry) : Prop :=
  exists v, normalize_value (snd e) = Ok v
            /\ (mps_kind_of (fst e) = Some KCategory -> hashable v = true).

(** The entries with their values normalized. *)
Definition normalized_entries (entries : list entry) : result (list entry) :=
  map_result (fun e => v <- normalize_value (snd e) ;; Ok (fst e, v)) entries.

(** The systems a stream announces: one per [buildingServiceSystemType]
    entry, with its value, and before them one without a type when a
    top-level [note] comes first. *)
Definition announce (acc : list (option value)) (e : entry)
  : list (option value) :=
  match mps_kind_of (fst e) with
  | Some KSystem => acc ++ [Some (snd e)]
  | Some KNote => match acc with
                  | [] => [None]
                  | _ => acc
                  end
  | _ => acc
  end.

Definition system_headers (nes : list entry) : list (option value) :=
  fold_left announce nes [].

Definition header_of (r : value) : option value :=
  match r with
  | VDict d => dict_get d "buildingServiceSystemType"
  | _ => None
  end.

(** The types of the systems finished so far and of the one in progress. *)
Definition pending (st : mps_state) : list (option value) :=
  List.map header_of (systems st)
  ++ match current_system st with
     | Some sys => [dict_get sys "buildingServiceSystemType"]
     | None => []
     end.

Definition headers_inv (st : mps_state) (acc : list (option value)) : Prop :=
  pending st = acc /\ (current_system st = None -> systems st = []).

(** ** The two passes of the generic materializer *)

Definition is_alt_key (k : string) : bool :=
  Str.startswith k alt_energy_prefix.

Definition is_true (v : value) : bool :=
  match v with
  | VBool true => true
  | _ => false
  end.

(** The names of the energies switched on: the last segments of the keys
    under the alternative-energies namespace whose value is [True]. *)
Definition enabled_energies (nes : list entry) : list string :=
  List.map (fun e => last (Str.split "__" (fst e)) "")
    (filter (fun e => is_alt_key (fst e) && is_true (snd e)) nes).

(** The entries written into the document: outside that namespace, with a
    value that is neither [None] nor [""]. *)
Definition generic_entries (nes : list entry) : list entry :=
  filter (fun e => negb (is_alt_key (fst e)) && negb (is_empty_or_none (snd e)))
    nes.

Definition write_entry (doc : dict) (e : entry) : dict :=
  set_path doc (Str.split "__" (fst e)) (snd e).

Definition generic_document (nes : list entry) : dict :=
  fold_left write_entry (generic_entries nes) [].

(** The end of [process_other]: the names, if any, go under
    [usingAlternativeEnergy.alternativeEnergies]. *)
Definition attach_energies (names : list string) (doc : dict) : result dict :=
  match names with
  | [] => Ok doc
  | _ =>
      match dict_get doc "usingAlternativeEnergy" with
      | None =>
          Ok (dict_set doc "usingAlternativeEnergy"
                (VDict [("alternativeEnergies", VList (List.map VStr names))]))
      | Some (VDict ua) =>
          Ok (dict_set doc "usingAlternativeEnergy"
                (VDict (dict_set ua "alternativeEnergies"
                          (VList (List.map VStr names)))))
      | Some _ => Raise TypeError
      end
  end.

(** The top-level key an entry writes: its first segment, without the
    array suffix when the key has one segment only. *)
Definition top_key (keys : list string) : string :=
  match keys with
  | [] => ""
  | [k] => match arr_match k with
           | Some name => name
           | None => k
           end
  | k :: _ => k
  end.

Definition entry_top_key (e : entry) : string :=
  top_key (Str.split "__" (fst e)).

(** ** The fields the assembler forces to strings *)

(** Each path with the text put before [str] of its value. *)
Definition forced_fields : list (string * list string) :=
  [("", ["buildingData"; "buildingAddress"; "houseNumber"]);
   ("", ["buildingData"; "buildingAddress"; "building"]);
   ("", ["buildingData"; "buildingAddress"; "floor"]);
   ("", ["buildingData"; "buildingAddress"; "doorNumber"]);
   ("", ["buildingData"; "buildingAddress"; "staircase"]);
   ("", ["buildingData"; "topographicalNumber"]);
   ("", ["certifierDetails"; "address"; "houseNumber"]);
   ("", ["certifierDetails"; "address"; "building"]);
   ("", ["certifierDetails"; "address"; "floor"]);
   ("", ["certifierDetails"; "address"; "doorNumber"]);
   ("", ["certifierDetails"; "address"; "staircase"]);
   ("", ["certifierDetails"; "topographicalNumber"]);
   ("+", ["certifierDetails"; "phoneNumber"])].

(** Two paths part ways: they differ at a segment both have. *)
Fixpoint diverges (p q : list string) : bool :=
  match p, q with
  | a :: p', b :: q' => if String.eqb a b then diverges p' q' else true
  | _, _ => false
  end.

Fixpoint pairwise_diverge (paths : list (list string)) : bool :=
  match paths with
  | [] => true
  | p :: rest =>
      forallb (fun q => diverges p q) rest && pairwise_diverge rest
  end.

Definition readable (doc : dict) (path : list string) : Prop :=
  exists v, get_path (VDict doc) path = Ok v.

(** One step of the forcing: [str] of the value at the path, after the
    text to put before it. *)
Definition force_step `{Repr} (doc : dict) (f : string * list string)
  : result dict :=
  force_str (fst f) (snd f) doc.

(** ** The recommendation groups of a system *)

(** The category a group of the output is filed under; a group without one
    counts as [None]. *)
Definition category_of (g : value) : value :=
  match g with
  | VDict d => default VNone (dict_get d "modernisationCategory")
  | _ => VNone
  end.

Definition groups_in (sys : value) : list value :=
  match sys with
  | VDict d =>
      match dict_get d "recommendedModernisations" with
      | Some (VList gs) => gs
      | _ => []
      end
  | _ => []
  end.

Definition elements_of (g : value) : option (list value) :=
  match g with
  | VDict d =>
      match dict_get d "systemElements" with
      | Some (VList xs) => Some xs
      | _ => None
      end
  | _ => None
  end.

(** No key of the list equals, as a dict key, one that comes after it. *)
Fixpoint distinct_keys (ks : list value) : bool :=
  match ks with
  | [] => true
  | k :: rest =>
      forallb (fun k' => negb (key_eqb k k')) rest && distinct_keys rest
  end.

(** A float that is not a number, and an entry that files a group under
    one.  A NaN equals nothing, itself included: two groups can carry it,
    and the properties of the groups are stated for streams without such
    an entry. *)
Definition is_nan (v : value) : bool :=
  match v with
  | VFloat S754_nan => true
  | _ => false
  end.

Definition nan_category (e : entry) : bool :=
  match mps_kind_of (fst e), normalize_value (snd e) with
  | Some KCategory, Ok v => is_nan v
  | _, _ => false
  end.

Definition nan_category_example : list entry :=
  [(mps_key "buildingServiceSystemType", VStr "Heating");
   (mps_key "recommendedModernisations__modernisationCategory", VStr "nan");
   (mps_key "recommendedModernisations__modernisationCategory", VStr "Cat");
   (mps_key "recommendedModernisations__modernisationCategory", VStr "nan")].

Definition system_ok (sys : value) : Prop :=
  NoDup (List.map category_of (groups_in sys))
  /\ distinct_keys (List.map category_of (groups_in sys)) = true
  /\ Forall (fun g => exists xs, elements_of g = Some xs) (groups_in sys).

Definition cats_ok (g : list (value * dict)) : Prop :=
  distinct_keys (List.map fst g) = true
  /\ Forall (fun kr => category_of (VDict (snd kr)) = fst kr) g
  /\ Forall (fun kr => key_eqb (fst kr) (fst kr) = true) g.

Definition cats_inv (st : mps_state) : Prop :=
  cats_ok (groups_of st)
  /\ Forall system_ok (systems st)
  /\ match current_system st with
     | Some sys => dict_get sys "recommendedModernisations" = None
     | None => True
     end.

(** ** The sections of the assembled document *)

(** [result[key] = items] under [if len(items) > 0]. *)
Definition section_value (items : list value) (prev : option value)
  : option value :=
  match items with
  | [] => prev
  | _ => Some (VList items)
  end.

(** The top-level keys the assembler writes to after the generic entries
    are in place. *)
Definition touched_keys : list string :=
  ["boundaryAndOpeningStructures"; "modernisationProposalDetails";
   "modernisationProposalsOfBuildingServicesSystems";
   "buildingData"; "certifierDetails"; "validity";
   "calculationsPdfFileContent"; "photos"].

(** ** What the endpoint's properties are stated with *)

(** The two checks made before anything is fetched. *)
Definition count_mismatch (images : list (list Byte.byte))
    (categories notes : list string) : Prop :=
  List.length images <> List.length categories
  /\ List.length images <> List.length notes.

Definition lacks_required (categories : list string) : Prop :=
  exists c, In c REQUIRED_CATEGORIES /\ ~ In c categories.

Definition required_in_order : list string :=
  ["characteristicHeatExchanger"; "characteristicOpeningStructure";
   "coverPhoto"].

Definition photo_of (t : list Byte.byte * string * string) : value :=
  let '(img, cat, nt) := t in
  VDict [("category", VStr cat); ("note", VStr nt);
         ("content", VStr (b64encode img))].

Fixpoint has_char (c : ascii) (s : string) : bool :=
  match s with
  | EmptyString => false
  | String a s' => Ascii.eqb a c || has_char c s'
  end.

(** ** Further concrete inputs *)

Definition mps_interleaved : list entry :=
  mps_example
  ++ [(mps_key "recommendedModernisations__modernisationCategory", VStr "Cat1");
      (mps_key "recommendedModernisations__systemElements__name", VStr "E3");
      (mps_key "buildingServiceSystemType", VStr "Cooling")].

Definition mps_interleaved_out : list value :=
  Eval vm_compute in
    match process_mps mps_interleaved with
    | Ok out => out
    | Raise _ => []
    end.

Definition other_sample : list entry :=
  [("b__x", VStr "1");
   ("a", VStr "2");
   ("usingAlternativeEnergy__alternativeEnergies__solar", VStr "TRUE");
   ("b__y", VStr "");
   ("c_0", VStr "z")].

Definition other_sample_out : dict :=
  Eval vm_compute in
    match process_other other_sample with
    | Ok out => out
    | Raise _ => []
    end.

Definition boundary_example_out : list value :=
  Eval vm_compute in
    match @process_boundary plain_repr boundary_example with
    | Ok out => out
    | Raise _ => []
    end.

Definition sample_input : input_obj :=
  {| data := Some (minimal_entries ++ boundary_example ++ mps_interleaved) |}.

Definition sample_out : dict :=
  Eval vm_compute in
    match @transform_json plain_repr sample_input pdf_example images_example
    with
    | Ok out => out
    | Raise _ => []
    end.

Definition minimal_out : dict :=
  Eval vm_compute in
    match @transform_json plain_repr minimal_input pdf_example images_example
    with
    | Ok out => out
    | Raise _ => []
    end.

(** A request to the endpoint and the calls it depends on: the key holds
    the minimal pairs file, the deletion goes through. *)
Definition sample_get_object (key : string) : string + list Byte.byte :=
  inr [Byte.x7b; Byte.x7d].

Definition sample_loads (raw : list Byte.byte) : option input_obj :=
  Some minimal_input.

Definition sample_dumps (doc : dict) : list Byte.byte :=
  [Byte.x7b; Byte.x7d].

Definition sample_delete_object (key : string) : option string := None.

Definition sample_key : string := "L123-2025-01-02.json".

Definition sample_images : list (list Byte.byte) :=
  [[Byte.x4d; Byte.x61; Byte.x6e]; [Byte.x4d]; []; [Byte.x01]].

Definition sample_categories : list string :=
  ["coverPhoto"; "characteristicHeatExchanger";
   "characteristicOpeningStructure"; "other"].

Definition sample_notes : list string := ["front"; "boiler"; "window"].

Definition sample_run : run :=
  Eval vm_compute in
    @convert plain_repr sample_get_object sample_loads sample_dumps
      sample_delete_object sample_key pdf_example sample_images
      sample_categories sample_notes.

(** * Properties *)

(** ** The error monad and dicts *)

Lemma bind_Ok_inv {A B : Type} (c : result A) (k : A -> result B) (b : B) :
  bind c k = Ok b -> exists a, c = Ok a /\ k a = Ok b.
Proof.
  destruct c as [a | e]; simpl; intros Hk; [ exists a; auto | discriminate ].
Qed.

Lemma dict_get_set_same (d : dict) (k : string) (v : value) :
  dict_get (dict_set d k v) k = Some v.
Proof.
  induction d as [| [k' v'] d IH]; simpl.
  - now rewrite String.eqb_refl.
  - destruct (String.eqb k' k) eqn:E; simpl; rewrite E; auto.
Qed.

Lemma dict_get_set_other (d : dict) (k k' : string) (v : value) :
  k <> k' -> dict_get (dict_set d k v) k' = dict_get d k'.
Proof.
  intros Hne. induction d as [| [k0 v0] d IH]; simpl.
  - apply String.eqb_neq in Hne. now rewrite Hne.
  - destruct (String.eqb k0 k) eqn:E; simpl.
    + apply String.eqb_eq in E. subst k0.
      apply String.eqb_neq in Hne. now rewrite Hne.
    + now rewrite IH.
Qed.

(** ** The entry classifier *)

Lemma split_fold (l : list entry) (acc : streams) :
  fold_left split_step l acc =
  {| boundary := boundary acc ++ filter (in_family Boundary) l;
     mpd := mpd acc ++ filter (in_family Mpd) l;
     mps := mps acc ++ filter (in_family Mps) l;
     other := other acc ++ filter (in_family Other) l |}.
Proof.
  revert acc. induction l as [| [key v] l IH]; intros acc; simpl.
  - destruct acc; simpl. now rewrite !app_nil_r.
  - rewrite IH.
    change (in_family Boundary (key, v)) with (family_eqb (classify key) Boundary).
    change (in_family Mpd (key, v)) with (family_eqb (classify key) Mpd).
    change (in_family Mps (key, v)) with (family_eqb (classify key) Mps).
    change (in_family Other (key, v)) with (family_eqb (classify key) Other).
    unfold split_step, classify.
    destruct (Str.startswith key boundary_prefix);
      [| destruct (Str.startswith key mpd_prefix);
         [| destruct (Str.startswith key mps_prefix)]];
      simpl; rewrite <- ?app_assoc; reflexivity.
Qed.

Lemma family_partition (l : list entry) :
  Permutation
    (filter (in_family Boundary) l ++ filter (in_family Mpd) l
     ++ filter (in_family Mps) l ++ filter (in_family Other) l) l.
Proof.
  induction l as [| e l IH]; simpl; [ constructor |].
  change (in_family Boundary e) with (family_eqb (classify (fst e)) Boundary).
  change (in_family Mpd e) with (family_eqb (classify (fst e)) Mpd).
  change (in_family Mps e) with (family_eqb (classify (fst e)) Mps).
  change (in_family Other e) with (family_eqb (classify (fst e)) Other).
  destruct (classify (fst e)); simpl.
  - apply perm_skip, IH.
  - symmetry. apply Permutation_cons_app. now symmetry.
  - symmetry. rewrite app_assoc. apply Permutation_cons_app.
    rewrite <- app_assoc. now symmetry.
  - symmetry. rewrite 2 app_assoc. apply Permutation_cons_app.
    rewrite <- 2 app_assoc. now symmetry.
Qed.

(** C4. The four streams of [split_entries] are the entries of each
    family, in input order: each stream is the input filtered by one value
    of [classify], which sends a key to the first family prefix it starts
    with and to [Other] when there is none.  The streams together are a
    rearrangement of the input: nothing is dropped or duplicated. *)
Theorem split_entries_partition (entries : list entry) :
  let s := split_entries entries in
  boundary s = filter (in_family Boundary) entries
  /\ mpd s = filter (in_family Mpd) entries
  /\ mps s = filter (in_family Mps) entries
  /\ other s = filter (in_family Other) entries
  /\ Permutation (boundary s ++ mpd s ++ mps s ++ other s) entries
  /\ (forall e, In e entries ->
        exists f, in_family f e = true
                  /\ forall g, in_family g e = true -> g = f).
Proof.
  unfold split_entries. rewrite split_fold. simpl.
  repeat split; auto using family_partition.
  intros e _. exists (classify (fst e)). unfold in_family. split.
  - destruct (classify (fst e)); reflexivity.
  - intros g. destruct (classify (fst e)), g; simpl; congruence.
Qed.

(** ** The value normalizer *)

(** C7. Normalizing twice is normalizing once, an exception included; and
    [True], [False], [None], [1], [1.5] and ["text"] are returned as they
    are. *)
Theorem normalize_value_idempotent :
  (forall v : value,
      (w <- normalize_value v ;; normalize_value w) = normalize_value v)
  /\ normalize_value (VBool true) = Ok (VBool true)
  /\ normalize_value (VBool false) = Ok (VBool false)
  /\ normalize_value VNone = Ok VNone
  /\ normalize_value (VInt 1) = Ok (VInt 1)
  /\ normalize_value (VFloat float_1_5) = Ok (VFloat float_1_5)
  /\ normalize_value (VStr "text") = Ok (VStr "text").
Proof.
  split; [| repeat split; reflexivity ].
  intros v. destruct v as [ | b | z | f | r | l | d ]; try reflexivity.
  destruct (normalize_value (VStr r)) as [w | e] eqn:E; [| reflexivity ].
  simpl.
  assert (Hw : w = VStr r \/ match w with VStr _ => False | _ => True end).
  { revert E. unfold normalize_value.
    destruct (String.eqb r "TRUE"); [ intros [= <-]; now right |].
    destruct (String.eqb r "FALSE"); [ intros [= <-]; now right |].
    destruct (String.eqb r "null"); [ intros [= <-]; now right |].
    destruct (Str.strip r); [ intros [= <-]; now left |].
    destruct (Float.of_string _); [| intros [= <-]; now left ].
    destruct (is_int_literal _); [| intros [= <-]; now right ].
    destruct (Float.to_int _) as [z | []]; intros [= <-]; auto. }
  destruct Hw as [-> | Hw]; [ exact E |].
  destruct w; try reflexivity. contradiction.
Qed.

(** ** The nested-group builder *)

(** C1. The five-entry stream gives one system with the groups Cat1 and
    Cat2 in that order, holding E1 and E2.  When the key of Cat2 has been
    read (four entries in), E1 already sits in the group of Cat1, the group
    of Cat2 is empty and selected, and no element is open. *)
Theorem process_mps_two_categories :
  process_mps mps_example =
  Ok [VDict
        [("buildingServiceSystemType", VStr "Heating");
         ("recommendedModernisations",
          VList
            [VDict [("modernisationCategory", VStr "Cat1");
                    ("systemElements", VList [VDict [("name", VStr "E1")]])];
             VDict [("modernisationCategory", VStr "Cat2");
                    ("systemElements", VList [VDict [("name", VStr "E2")]])]])]]
  /\ for_each mps_body (firstn 4 mps_example) mps_init =
     Ok {| systems := [];
           current_system := Some [("buildingServiceSystemType", VStr "Heating")];
           current_actual := None;
           recommended_by_cat :=
             Some [(VStr "Cat1",
                    [("modernisationCategory", VStr "Cat1");
                     ("systemElements", VList [VDict [("name", VStr "E1")]])]);
                   (VStr "Cat2",
                    [("modernisationCategory", VStr "Cat2");
                     ("systemElements", VList [])])];
           current_recommended := Some 1%nat;
           current_element := None |}.
Proof.
  split; vm_compute; reflexivity.
Qed.

Lemma find_key_bound (k : value) (d : list (value * dict)) (i j : nat) :
  find_key k d i = Some j -> (i <= j < i + List.length d)%nat.
Proof.
  revert i. induction d as [| [k' r] d IH]; intros i; simpl; [ discriminate |].
  destruct (key_eqb k' k).
  - intros [= <-]. lia.
  - intros Hf. apply IH in Hf. lia.
Qed.

Lemma update_nth_length {A : Type} (n : nat) (f : A -> A) (l : list A) :
  List.length (update_nth n f l) = List.length l.
Proof.
  revert n. induction l as [| x l IH]; intros [| n]; simpl; auto.
Qed.

Lemma update_nth_Forall {A : Type} (P : A -> Prop) (n : nat) (f : A -> A)
    (l : list A) :
  Forall P l -> (forall x, nth_error l n = Some x -> P (f x)) ->
  Forall P (update_nth n f l).
Proof.
  revert n. induction l as [| x l IH]; intros [| n] Hl Hf; simpl; auto.
  - inversion Hl; subst. constructor; auto.
  - inversion Hl; subst. constructor; auto.
Qed.

Lemma get_or_create_wf (v : value) (st st' : mps_state) :
  mps_wf st -> get_or_create_recommended v st = Ok st' ->
  mps_wf st'
  /\ current_recommended st' <> None
  /\ systems st' = systems st
  /\ current_system st' = current_system st
  /\ current_actual st' = current_actual st
  /\ current_element st' = current_element st.
Proof.
  intros [Hg Hc]. unfold get_or_create_recommended.
  unfold mps_wf, groups_of in *.
  destruct (negb (hashable _)); [ discriminate |].
  destruct (find_key _ _ 0) as [i |] eqn:Ef; intros [= <-];
    simpl; repeat split; auto; try discriminate.
  - apply find_key_bound in Ef. lia.
  - apply Forall_app. split; [ exact Hg |]. constructor; [| constructor ].
    exists []. destruct (if is_empty_or_none v then VNone else v); reflexivity.
  - rewrite length_app. simpl. lia.
Qed.

Lemma get_or_create_none_ok (st : mps_state) :
  exists st', get_or_create_recommended VNone st = Ok st'.
Proof.
  unfold get_or_create_recommended. simpl.
  destruct (find_key VNone _ 0); eexists; reflexivity.
Qed.

Lemma finalize_element_ok (st : mps_state) :
  mps_wf st ->
  exists st', finalize_element st = Ok st'
    /\ mps_wf st'
    /\ current_element st' = None
    /\ systems st' = systems st
    /\ current_system st' = current_system st
    /\ current_actual st' = current_actual st.
Proof.
  intros Hwf. unfold finalize_element.
  destruct (current_element st) as [el |] eqn:Eel.
  2:{ exists st. repeat split; auto; apply Hwf. }
  assert (H1 : exists st1,
             match current_recommended st with
             | None => get_or_create_recommended VNone st
             | Some _ => Ok st
             end = Ok st1
             /\ mps_wf st1 /\ current_recommended st1 <> None
             /\ systems st1 = systems st
             /\ current_system st1 = current_system st
             /\ current_actual st1 = current_actual st).
  { destruct (current_recommended st) eqn:Ec.
    - exists st. repeat split; auto; try apply Hwf. congruence.
    - destruct (get_or_create_none_ok st) as [st1 E1]. exists st1.
      destruct (get_or_create_wf _ _ _ Hwf E1) as (? & ? & ? & ? & ? & ?).
      repeat split; auto; apply H. }
  destruct H1 as (st1 & E1 & [Hg Hc] & Hne & Hs & Hcs & Hca).
  rewrite E1. simpl. fold (groups_of st1).
  destruct (current_recommended st1) as [i |] eqn:Ec; [| congruence ].
  destruct (nth_error (groups_of st1) i) as [[k rec] |] eqn:En.
  2:{ apply nth_error_None in En. lia. }
  assert (Hok : group_ok (k, rec)).
  { eapply Forall_forall; [ exact Hg |]. eapply nth_error_In; eauto. }
  destruct Hok as [xs Hxs]. simpl in Hxs.
  unfold append_element. rewrite Hxs. simpl.
  eexists. split; [ reflexivity |].
  unfold mps_wf, groups_of. simpl. repeat split; auto.
  - apply update_nth_Forall; [ exact Hg |].
    intros x _. exists (xs ++ [VDict el]). simpl. apply dict_get_set_same.
  - rewrite update_nth_length. exact Hc.
Qed.

Lemma mps_wf_reset (sys : list value) (cs : option dict) (ca : option dict)
    (ce : option dict) :
  mps_wf {| systems := sys; current_system := cs; current_actual := ca;
            recommended_by_cat := None; current_recommended := None;
            current_element := ce |}.
Proof. split; simpl; auto. Qed.

Lemma finalize_system_ok (st : mps_state) :
  mps_wf st ->
  exists st', finalize_system st = Ok st' /\ mps_wf st'.
Proof.
  intros Hwf. unfold finalize_system.
  destruct (current_system st) as [sys |]; [| exists st; auto ].
  destruct (finalize_element_ok st Hwf) as (st1 & E1 & _).
  rewrite E1. simpl. eexists. split; [ reflexivity | apply mps_wf_reset ].
Qed.

Lemma mps_body_wf (st st' : mps_state) (e : entry) :
  mps_wf st -> mps_body st e = Ok st' -> mps_wf st'.
Proof.
  intros Hwf. destruct e as [flat_key raw_value]. unfold mps_body.
  destruct (normalize_value raw_value) as [v |]; [| discriminate ]. simpl.
  destruct (Str.split_once mps_prefix flat_key) as [[_x suffix] |]; [| discriminate ].
  set (parts := Str.split "__" _).
  destruct (String.eqb (nth 0 parts "") "buildingServiceSystemType").
  { destruct (finalize_system_ok st Hwf) as (st1 & E1 & _). rewrite E1. simpl.
    intros [= <-]. apply mps_wf_reset. }
  destruct (_ && _).
  { intros [= <-]. exact Hwf. }
  destruct (_ && _).
  { intros [= <-]. exact Hwf. }
  destruct (String.eqb (nth 0 parts "") "recommendedModernisations");
    [| intros [= <-]; exact Hwf ].
  destruct (_ && _).
  { destruct (finalize_element_ok st Hwf) as (st1 & E1 & Hwf1 & _).
    rewrite E1. simpl. intros E2.
    apply (get_or_create_wf _ _ _ Hwf1 E2). }
  destruct (_ && _); [| intros [= <-]; exact Hwf ].
  destruct (String.eqb (nth 2 parts "") "name").
  { destruct (finalize_element_ok st Hwf) as (st1 & E1 & Hwf1 & _).
    rewrite E1. simpl. intros [= <-]. exact Hwf1. }
  destruct (String.eqb (nth 2 parts "") "description");
    [ intros [= <-]; exact Hwf |].
  destruct (String.eqb (nth 2 parts "") "isExcellentLevel");
    intros [= <-]; exact Hwf.
Qed.

Lemma for_each_invariant {A S : Type} (P : S -> Prop)
    (body : S -> A -> result S) (xs : list A) :
  (forall s x s', P s -> body s x = Ok s' -> P s') ->
  forall s s', P s -> for_each body xs s = Ok s' -> P s'.
Proof.
  intros Hstep. induction xs as [| x xs IH]; intros s s' Hs; simpl.
  - intros [= <-]. exact Hs.
  - intros Hb. apply bind_Ok_inv in Hb. destruct Hb as (s1 & E1 & E2).
    eapply IH; [| exact E2 ]. eapply Hstep; eauto.
Qed.

Lemma mps_reachable_wf (entries : list entry) (st : mps_state) :
  for_each mps_body entries mps_init = Ok st -> mps_wf st.
Proof.
  apply (for_each_invariant mps_wf);
    [ intros s x s'; apply mps_body_wf |].
  apply mps_wf_reset.
Qed.

(** C9. In every state the loop reaches with a system open and an
    [actualEnergeticQuality] sub-field set, [finalize_system] succeeds and
    appends one record whose [actualEnergeticQuality] is [None] when the
    accumulated quality is the empty string, and the accumulated object
    otherwise. *)
Theorem finalize_system_actual_quality (entries : list entry)
    (st : mps_state) (sys actual : dict) :
  for_each mps_body entries mps_init = Ok st ->
  current_system st = Some sys ->
  current_actual st = Some actual ->
  exists st' record,
    finalize_system st = Ok st'
    /\ systems st' = systems st ++ [VDict record]
    /\ dict_get record "actualEnergeticQuality" =
       Some (if quality_is_empty actual then VNone else VDict actual).
Proof.
  intros Hreach Hsys Hact. apply mps_reachable_wf in Hreach.
  unfold finalize_system. rewrite Hsys.
  destruct (finalize_element_ok st Hreach) as (st1 & E1 & _ & _ & Hs & _ & Hca).
  rewrite E1. simpl. rewrite Hca, Hact, Hs.
  eexists. eexists. split; [ reflexivity |]. split; [ reflexivity |].
  assert (Hq : dict_get
                 (match dict_get actual "quality" with
                  | Some (VStr "") => dict_set sys "actualEnergeticQuality" VNone
                  | _ => dict_set sys "actualEnergeticQuality" (VDict actual)
                  end) "actualEnergeticQuality"
               = Some (if quality_is_empty actual then VNone else VDict actual)).
  { unfold quality_is_empty.
    destruct (dict_get actual "quality") as [[ | | | | [| c s] | |] |];
      simpl; apply dict_get_set_same. }
  destruct (recommended_by_cat st1) as [[| g gs] |]; try exact Hq.
  rewrite dict_get_set_other; [ exact Hq | discriminate ].
Qed.

Lemma finalize_system_actual_quality_witness :
  exists st st' record,
    for_each mps_body
      [(mps_key "buildingServiceSystemType", VStr "Heating");
       (mps_key "actualEnergeticQuality__quality", VStr "");
       (mps_key "actualEnergeticQuality__note", VStr "n")] mps_init = Ok st
    /\ finalize_system st = Ok st'
    /\ systems st' = systems st ++ [VDict record]
    /\ dict_get record "actualEnergeticQuality" = Some VNone.
Proof.
  eexists.
  destruct (finalize_system_actual_quality
              [(mps_key "buildingServiceSystemType", VStr "Heating");
               (mps_key "actualEnergeticQuality__quality", VStr "");
               (mps_key "actualEnergeticQuality__note", VStr "n")]
              _ _ _ eq_refl eq_refl eq_refl) as (st' & record & H1 & H2 & H3).
  exists st', record. repeat split; [ exact H1 | exact H2 | exact H3 ].
Defined.

(** ** The document assembler *)

Lemma get_path_cons (doc : dict) (k : string) (rest : list string) :
  get_path (VDict doc) (k :: rest) =
  match dict_get doc k with
  | Some v => get_path v rest
  | None => Raise KeyError
  end.
Proof. simpl. destruct (dict_get doc k); reflexivity. Qed.

Lemma assign_path_ok (path : list string) :
  forall (doc : dict) (v w : value),
    path <> [] -> get_path (VDict doc) path = Ok v ->
    exists doc', assign_path doc path w = Ok doc'
                 /\ get_path (VDict doc') path = Ok w.
Proof.
  induction path as [| k rest IH]; intros doc v w Hne Hget; [ congruence |].
  destruct rest as [| k2 rest].
  - simpl. eexists. split; [ reflexivity |].
    rewrite dict_get_set_same. reflexivity.
  - rewrite get_path_cons in Hget.
    destruct (dict_get doc k) as [sub |] eqn:Ek; [| discriminate ].
    destruct sub as [ | | | | | | d ]; try discriminate.
    destruct (IH d v w ltac:(discriminate) Hget) as (d' & Ea & Eg).
    change (assign_path doc (k :: k2 :: rest) w)
      with (sub <- subscript (VDict doc) k ;;
            match sub with
            | VDict d => d' <- assign_path d (k2 :: rest) w ;;
                         Ok (dict_set doc k (VDict d'))
            | _ => Raise TypeError
            end).
    unfold subscript. rewrite Ek. cbn [bind]. rewrite Ea. cbn [bind].
    eexists. split; [ reflexivity |].
    rewrite get_path_cons, dict_get_set_same. exact Eg.
Qed.

Lemma assign_path_other (path : list string) (doc doc' : dict) (w : value)
    (k : string) :
  assign_path doc path w = Ok doc' -> hd "" path <> k ->
  dict_get doc' k = dict_get doc k.
Proof.
  destruct path as [| k1 [| k2 rest]].
  - simpl. intros [= <-]. reflexivity.
  - simpl. intros [= <-] Hne. now apply dict_get_set_other.
  - change (assign_path doc (k1 :: k2 :: rest) w)
      with (sub <- subscript (VDict doc) k1 ;;
            match sub with
            | VDict d => d' <- assign_path d (k2 :: rest) w ;;
                         Ok (dict_set doc k1 (VDict d'))
            | _ => Raise TypeError
            end).
    cbn [hd]. intros Ha Hne.
    apply bind_Ok_inv in Ha. destruct Ha as (sub & _ & Ha).
    destruct sub; try discriminate.
    apply bind_Ok_inv in Ha. destruct Ha as (d' & _ & Ha).
    injection Ha as <-. now apply dict_get_set_other.
Qed.

Lemma reformat_date_other (doc doc' : dict) (k : string) :
  reformat_date doc = Ok doc' -> k <> "validity" ->
  dict_get doc' k = dict_get doc k.
Proof.
  unfold reformat_date. intros Hr Hne.
  apply bind_Ok_inv in Hr. destruct Hr as (v & _ & Hr).
  destruct v; try discriminate.
  destruct (Date.strptime s); [| discriminate ].
  eapply assign_path_other; [ exact Hr |]. simpl. congruence.
Qed.

Ltac ascii_cases c := destruct c as [[] [] [] [] [] [] [] []].

Lemma digit_val_range (c : ascii) :
  Str.is_digit c = true -> 0 <= Str.digit_val c <= 9.
Proof. ascii_cases c; intros Hd; try discriminate Hd; vm_compute; split; discriminate. Qed.

(** Reading a date of two-digit fields and printing it moves the fields. *)
Lemma digit_char_val (c : ascii) :
  Str.is_digit c = true -> Date.digit_char (Str.digit_val c) = c.
Proof. ascii_cases c; intros Hd; try discriminate Hd; reflexivity. Qed.

Lemma digit_not_slash (c : ascii) (s : string) :
  Str.is_digit c = true -> String.prefix "/" (String c s) = false.
Proof. ascii_cases c; intros Hd; try discriminate Hd; reflexivity. Qed.

Lemma split_once_slash (a b : string) :
  Str.all Str.is_digit a = true ->
  Str.split_once "/" (a ++ String "/" b) = Some (a, b).
Proof.
  intros Hall. induction a as [| c a IH]; cbn [String.append].
  - destruct b; reflexivity.
  - cbn [Str.all] in Hall. apply andb_prop in Hall. destruct Hall as [Hc Ha].
    cbn [Str.split_once]. rewrite (digit_not_slash c _ Hc), (IH Ha). reflexivity.
Qed.

Lemma two_digits_pair (c1 c2 : ascii) :
  Str.is_digit c1 = true -> Str.is_digit c2 = true ->
  Date.two_digits (Str.digits_val (pair_of c1 c2)) = pair_of c1 c2.
Proof.
  intros H1 H2. unfold Date.two_digits, pair_of, Str.digits_val.
  cbn [Str.digits_val_acc].
  pose proof (digit_val_range c1 H1). pose proof (digit_val_range c2 H2).
  replace (10 * (10 * 0 + Str.digit_val c1) + Str.digit_val c2)
    with (Str.digit_val c2 + Str.digit_val c1 * 10) by lia.
  rewrite Z.div_add, Z.mod_add by lia.
  rewrite Z.div_small, Z.mod_small by lia. cbn [Z.add].
  now rewrite (digit_char_val c1 H1), (digit_char_val c2 H2).
Qed.

Lemma parse_day_pair (c1 c2 : ascii) :
  Str.is_digit c1 = true -> Str.is_digit c2 = true ->
  forall d, Date.parse_day (pair_of c1 c2) = Some d ->
            d = Str.digits_val (pair_of c1 c2).
Proof.
  intros H1 H2 d. unfold Date.parse_day, pair_of.
  assert (E : match String c1 (String c2 "") with
              | String " " (String c EmptyString) => String c EmptyString
              | _ => String c1 (String c2 "")
              end = String c1 (String c2 "")).
  { ascii_cases c1; try discriminate H1; reflexivity. }
  rewrite E. destruct (_ && _); [| discriminate ]. now intros [= <-].
Qed.

Lemma strptime_strftime_pairs (m1 m2 d1 d2 y1 y2 : ascii) (d : Date.date) :
  Str.all Str.is_digit (String m1 (String m2 (String d1 (String d2
    (String y1 (String y2 "")))))) = true ->
  Date.strptime (pair_of m1 m2 ++ String "/" (pair_of d1 d2 ++ String "/" (pair_of y1 y2)))
  = Some d ->
  Date.strftime d =
  (pair_of y1 y2 ++ "." ++ pair_of m1 m2 ++ "." ++ pair_of d1 d2 ++ ".")%string.
Proof.
  intros Hall. cbn [Str.all] in Hall.
  repeat (apply andb_prop in Hall; let H := fresh "Hd" in destruct Hall as [H Hall]).
  unfold Date.strptime.
  rewrite (split_once_slash (pair_of m1 m2)) by (cbn; now rewrite Hd, Hd0).
  rewrite (split_once_slash (pair_of d1 d2)) by (cbn; now rewrite Hd1, Hd2).
  destruct (Date.parse_month (pair_of m1 m2)) as [m |] eqn:Em; [| discriminate ].
  destruct (Date.parse_day (pair_of d1 d2)) as [dd |] eqn:Ed; [| discriminate ].
  destruct (Date.parse_year (pair_of y1 y2)) as [y |] eqn:Ey; [| discriminate ].
  destruct (dd <=? Date.days_in_month y m); [| discriminate ].
  intros [= <-]. unfold Date.strftime. cbn [Date.year Date.month Date.day].
  apply (parse_day_pair d1 d2 Hd1 Hd2) in Ed. subst dd.
  unfold Date.parse_month in Em. destruct (_ && _) in Em; [| discriminate ].
  assert (Hm : m = Str.digits_val (pair_of m1 m2)) by congruence. subst m.
  unfold Date.parse_year in Ey. destruct (_ && _) in Ey; [| discriminate ].
  assert (Hyr : y = if Str.digits_val (pair_of y1 y2) <=? 68
                    then 2000 + Str.digits_val (pair_of y1 y2)
                    else 1900 + Str.digits_val (pair_of y1 y2)) by congruence.
  subst y. clear Em Ey.
  rewrite !two_digits_pair by assumption.
  assert (Hy : (if Str.digits_val (pair_of y1 y2) <=? 68
                then 2000 + Str.digits_val (pair_of y1 y2)
                else 1900 + Str.digits_val (pair_of y1 y2)) mod 100
               = Str.digits_val (pair_of y1 y2)).
  { pose proof (digit_val_range y1 Hd3). pose proof (digit_val_range y2 Hd4).
    unfold Str.digits_val, pair_of. cbn [Str.digits_val_acc].
    set (n := 10 * (10 * 0 + Str.digit_val y1) + Str.digit_val y2).
    assert (0 <= n < 100) by (subst n; lia).
    destruct (n <=? 68).
    - replace (2000 + n) with (n + 20 * 100) by lia.
      rewrite Z.mod_add by lia. apply Z.mod_small. lia.
    - replace (1900 + n) with (n + 19 * 100) by lia.
      rewrite Z.mod_add by lia. apply Z.mod_small. lia. }
  rewrite Hy, two_digits_pair by assumption. reflexivity.
Qed.

Section Assembler.

Context `{Repr}.

Lemma force_str_other (prefix : string) (path : list string) (doc doc' : dict)
    (k : string) :
  force_str prefix path doc = Ok doc' -> hd "" path <> k ->
  dict_get doc' k = dict_get doc k.
Proof.
  unfold force_str. intros Hf Hne.
  apply bind_Ok_inv in Hf. destruct Hf as (v & _ & Ha).
  eapply assign_path_other; eauto.
Qed.

Lemma force_fields_validity (doc doc' : dict) :
  force_fields doc = Ok doc' ->
  dict_get doc' "validity" = dict_get doc "validity".
Proof.
  unfold force_fields. intros Hf.
  repeat (apply bind_Ok_inv in Hf;
          let d := fresh "d" in
          let Hs := fresh "Hs" in
          destruct Hf as (d & Hs & Hf);
          apply force_str_other with (k := "validity") in Hs;
          [ rewrite <- Hs; clear Hs | simpl; discriminate ]).
  apply force_str_other with (k := "validity") in Hf; [| simpl; discriminate ].
  exact Hf.
Qed.

Lemma attach_validity (pdf_bytes : list Byte.byte) (images : list image)
    (doc : dict) :
  dict_get (attach pdf_bytes images doc) "validity" = dict_get doc "validity".
Proof.
  unfold attach. rewrite !dict_get_set_other by discriminate. reflexivity.
Qed.

(** C10. Whenever [transform_json] returns, [calculationsPdfFileContent]
    is the base64 text of [pdf_bytes] and [photos] lists one
    [{category, note, content}] record per image, in input order, the note
    being [""] when the image has none; whatever the flat entries put under
    these two keys is replaced. *)
Theorem transform_json_attachments (input : input_obj)
    (pdf_bytes : list Byte.byte) (images : list image) (out : dict) :
  transform_json input pdf_bytes images = Ok out ->
  dict_get out "calculationsPdfFileContent" = Some (VStr (b64encode pdf_bytes))
  /\ dict_get out "photos" =
     Some (VList (List.map
                    (fun img =>
                       VDict [("category", default VNone (category img));
                              ("note", default (VStr "") (note img));
                              ("content", VStr (b64encode (content img)))])
                    images)).
Proof.
  unfold transform_json. intros Ht.
  apply bind_Ok_inv in Ht. destruct Ht as (d1 & _ & Ht).
  apply bind_Ok_inv in Ht. destruct Ht as (d2 & _ & Ht).
  apply bind_Ok_inv in Ht. destruct Ht as (d3 & _ & Ht).
  injection Ht as <-. unfold attach. split.
  - rewrite dict_get_set_other by discriminate. apply dict_get_set_same.
  - rewrite dict_get_set_same. reflexivity.
Qed.

Lemma force_fields_date (doc doc' : dict) :
  force_fields doc = Ok doc' ->
  get_path (VDict doc') date_path = get_path (VDict doc) date_path.
Proof.
  intros Hf. unfold date_path. rewrite !get_path_cons.
  now rewrite (force_fields_validity _ _ Hf).
Qed.

Lemma transform_json_date_raises (input : input_obj)
    (pdf_bytes : list Byte.byte) (images : list image) (doc : dict) :
  materialize input = Ok doc ->
  (forall doc1, get_path (VDict doc1) date_path = get_path (VDict doc) date_path ->
                exists e, reformat_date doc1 = Raise e) ->
  exists e, transform_json input pdf_bytes images = Raise e.
Proof.
  intros Hm Hr. unfold transform_json. rewrite Hm. cbn [bind].
  destruct (force_fields doc) as [doc1 | e] eqn:Hf; [| eexists; reflexivity ].
  cbn [bind]. destruct (Hr doc1 (force_fields_date _ _ Hf)) as [e He].
  rewrite He. eexists. reflexivity.
Qed.

(** C2. On a document that materializes, [transform_json] rewrites the
    date at [validity.siteInspectionDate].  When the forced fields are
    present and the date reads as month/day/year, the output holds the
    date printed as year.month.day. with its final dot: two-digit fields
    change places, and ["01/02/25"] becomes ["25.01.02."].  When the
    [validity] block or the date is absent, when the date is not a string,
    or when its text is not such a date, the call raises and returns no
    document. *)
Theorem transform_json_date (input : input_obj) (pdf_bytes : list Byte.byte)
    (images : list image) (doc : dict) :
  materialize input = Ok doc ->
  (forall (doc1 : dict) (s : string) (d : Date.date),
      force_fields doc = Ok doc1 ->
      get_path (VDict doc) date_path = Ok (VStr s) ->
      Date.strptime s = Some d ->
      exists out,
        transform_json input pdf_bytes images = Ok out
        /\ get_path (VDict out) date_path = Ok (VStr (Date.strftime d)))
  /\ (forall (doc1 : dict) (m1 m2 d1 d2 y1 y2 : ascii) (d : Date.date),
         force_fields doc = Ok doc1 ->
         Str.all Str.is_digit
           (String m1 (String m2 (String d1 (String d2
              (String y1 (String y2 "")))))) = true ->
         get_path (VDict doc) date_path =
         Ok (VStr (pair_of m1 m2 ++ String "/"
                     (pair_of d1 d2 ++ String "/" (pair_of y1 y2)))) ->
         Date.strptime (pair_of m1 m2 ++ String "/"
                          (pair_of d1 d2 ++ String "/" (pair_of y1 y2)))
         = Some d ->
         exists out,
           transform_json input pdf_bytes images = Ok out
           /\ get_path (VDict out) date_path =
              Ok (VStr (pair_of y1 y2 ++ "." ++ pair_of m1 m2 ++ "."
                        ++ pair_of d1 d2 ++ ".")))
  /\ (forall (doc1 : dict),
         force_fields doc = Ok doc1 ->
         get_path (VDict doc) date_path = Ok (VStr "01/02/25") ->
         exists out,
           transform_json input pdf_bytes images = Ok out
           /\ get_path (VDict out) date_path = Ok (VStr "25.01.02."))
  /\ (dict_get doc "validity" = None ->
      exists e, transform_json input pdf_bytes images = Raise e)
  /\ (forall e0,
         get_path (VDict doc) date_path = Raise e0 ->
         exists e, transform_json input pdf_bytes images = Raise e)
  /\ (forall v,
         get_path (VDict doc) date_path = Ok v ->
         (forall s, v <> VStr s) ->
         exists e, transform_json input pdf_bytes images = Raise e)
  /\ (forall s : string,
         get_path (VDict doc) date_path = Ok (VStr s) ->
         Date.strptime s = None ->
         exists e, transform_json input pdf_bytes images = Raise e).
Proof.
  intros Hm.
  assert (Hgen : forall (doc1 : dict) (s : string) (d : Date.date),
             force_fields doc = Ok doc1 ->
             get_path (VDict doc) date_path = Ok (VStr s) ->
             Date.strptime s = Some d ->
             exists out,
               transform_json input pdf_bytes images = Ok out
               /\ get_path (VDict out) date_path = Ok (VStr (Date.strftime d))).
  { intros doc1 s d Hf Hg Hp. unfold transform_json.
    rewrite Hm. cbn [bind]. rewrite Hf. cbn [bind].
    assert (Hg1 : get_path (VDict doc1) date_path = Ok (VStr s))
      by (now rewrite (force_fields_date _ _ Hf)).
    destruct (assign_path_ok date_path doc1 (VStr s) (VStr (Date.strftime d))
                ltac:(discriminate) Hg1) as (doc2 & Ea & Eg).
    unfold reformat_date. rewrite Hg1. cbn [bind]. rewrite Hp, Ea. cbn [bind].
    eexists. split; [ reflexivity |].
    unfold date_path in *. rewrite get_path_cons in *.
    rewrite attach_validity. exact Eg. }
  split; [ exact Hgen |]. split.
  { intros doc1 m1 m2 d1 d2 y1 y2 d Hf Hall Hg Hp.
    rewrite <- (strptime_strftime_pairs m1 m2 d1 d2 y1 y2 d Hall Hp).
    exact (Hgen doc1 _ d Hf Hg Hp). }
  split.
  { intros doc1 Hf Hg.
    exact (Hgen doc1 "01/02/25"
             {| Date.year := 2025; Date.month := 1; Date.day := 2 |}
             Hf Hg eq_refl). }
  split; [| split; [| split ] ].
  - intros Hv. apply (transform_json_date_raises _ _ _ _ Hm).
    intros doc1 Hd. unfold reformat_date. rewrite Hd.
    unfold date_path. rewrite get_path_cons, Hv. eexists. reflexivity.
  - intros e0 Hg. apply (transform_json_date_raises _ _ _ _ Hm).
    intros doc1 Hd. unfold reformat_date. rewrite Hd, Hg.
    eexists. reflexivity.
  - intros v Hg Hv. apply (transform_json_date_raises _ _ _ _ Hm).
    intros doc1 Hd. unfold reformat_date. rewrite Hd, Hg. cbn [bind].
    destruct v; try (eexists; reflexivity). now destruct (Hv s).
  - intros s Hg Hp. apply (transform_json_date_raises _ _ _ _ Hm).
    intros doc1 Hd. unfold reformat_date. rewrite Hd, Hg. cbn [bind].
    rewrite Hp. eexists. reflexivity.
Qed.

End Assembler.

(** ** The stride loops *)

Lemma for_each_ext {A S : Type} (f g : S -> A -> result S) (xs : list A) :
  (forall s x, f s x = g s x) ->
  forall s, for_each f xs s = for_each g xs s.
Proof.
  intros Hfg. induction xs as [| x xs IH]; intros s; simpl; [ reflexivity |].
  rewrite Hfg. destruct (g s x); simpl; auto.
Qed.

Lemma for_each_map {A B S : Type} (f : S -> B -> result S) (g : A -> B)
    (xs : list A) :
  forall s, for_each f (List.map g xs) s = for_each (fun st x => f st (g x)) xs s.
Proof.
  induction xs as [| x xs IH]; intros s; simpl; [ reflexivity |].
  destruct (f s (g x)); simpl; auto.
Qed.

Section Stride.

Context {A St : Type}.
Variable n : nat.
Hypothesis n_pos : (0 < n)%nat.
Variable body : St -> list A -> result St.

Lemma range_step_unroll (m : nat) :
  range_step (n + m) n = O :: List.map (fun i => (i + n)%nat) (range_step m n).
Proof.
  unfold range_step.
  replace (n + m + n - 1)%nat with (1 * n + (m + n - 1))%nat by lia.
  rewrite Nat.div_add_l by lia.
  cbn [Nat.add seq List.map]. rewrite Nat.mul_0_l. f_equal.
  rewrite <- seq_shift, !map_map. apply map_ext. intros k. lia.
Qed.

Lemma range_step_short (m : nat) :
  (0 < m < n)%nat -> range_step m n = [O].
Proof.
  intros Hm. unfold range_step.
  replace ((m + n - 1) / n)%nat with 1%nat; [ reflexivity |].
  apply Nat.div_unique with (r := (m - 1)%nat); lia.
Qed.

Lemma range_step_zero : range_step 0 n = [].
Proof.
  unfold range_step. rewrite Nat.div_small by lia. reflexivity.
Qed.

Lemma slice_first (w rest : list A) :
  List.length w = n -> slice (w ++ rest) 0 (0 + n) = w.
Proof.
  intros Hw. unfold slice. cbn [skipn Nat.add]. rewrite Nat.sub_0_r.
  rewrite firstn_app, <- Hw, firstn_all, Nat.sub_diag. cbn [firstn].
  apply app_nil_r.
Qed.

Lemma slice_shift (w rest : list A) (i : nat) :
  List.length w = n ->
  slice (w ++ rest) (i + n) (i + n + n) = slice rest i (i + n).
Proof.
  intros Hw. unfold slice.
  replace (i + n + n - (i + n))%nat with (i + n - i)%nat by lia.
  f_equal. rewrite skipn_app.
  rewrite skipn_all2 by lia. cbn [app]. f_equal. lia.
Qed.

Lemma stride_loop_unroll (w rest : list A) (s : St) :
  List.length w = n ->
  stride_loop n body (w ++ rest) s =
  (s1 <- body s w ;; stride_loop n body rest s1).
Proof.
  intros Hw. unfold stride_loop.
  rewrite length_app, Hw, range_step_unroll. cbn [for_each].
  rewrite slice_first by exact Hw.
  destruct (body s w) as [s1 | e]; cbn [bind]; [| reflexivity ].
  rewrite for_each_map. apply for_each_ext.
  intros st i. now rewrite slice_shift.
Qed.

Lemma stride_loop_partial (tail : list A) (s : St) :
  (List.length tail < n)%nat -> (forall st, body st tail = Ok st) ->
  stride_loop n body tail s = Ok s.
Proof.
  intros Hlen Hskip. unfold stride_loop.
  destruct tail as [| x tail'].
  - cbn [List.length]. rewrite range_step_zero. reflexivity.
  - rewrite range_step_short by (cbn [List.length] in *; lia).
    cbn [for_each]. unfold slice. cbn [skipn Nat.add]. rewrite Nat.sub_0_r.
    rewrite firstn_all2 by lia. rewrite Hskip. reflexivity.
Qed.

Lemma stride_loop_windows (ws : list (list A)) (tail : list A) :
  Forall (fun w => List.length w = n) ws ->
  (List.length tail < n)%nat -> (forall st, body st tail = Ok st) ->
  forall s, stride_loop n body (List.concat ws ++ tail) s = for_each body ws s.
Proof.
  intros Hws Hlen Hskip. induction Hws as [| w ws Hw Hws IH]; intros s.
  - cbn [List.concat app for_each]. now apply stride_loop_partial.
  - cbn [List.concat for_each]. rewrite <- app_assoc.
    rewrite stride_loop_unroll by exact Hw.
    destruct (body s w); cbn [bind]; auto.
Qed.

Lemma windows_fuel_spec (fuel : nat) :
  forall l : list A,
    (List.length l <= fuel)%nat ->
    exists tail,
      l = List.concat (windows_fuel fuel n l) ++ tail
      /\ (List.length tail < n)%nat
      /\ Forall (fun w => List.length w = n) (windows_fuel fuel n l).
Proof.
  induction fuel as [| f IH]; intros l Hl.
  - destruct l; [| cbn in Hl; lia ].
    exists []. cbn. auto.
  - cbn [windows_fuel]. destruct (Nat.leb_spec n (List.length l)) as [Hn | Hn].
    + destruct (IH (skipn n l)) as (tail & Heq & Ht & Hall).
      { rewrite length_skipn. lia. }
      exists tail. split; [| split; [ exact Ht |] ].
      * cbn [List.concat]. rewrite <- app_assoc, <- Heq.
        symmetry. apply firstn_skipn.
      * constructor; [| exact Hall ]. rewrite length_firstn. lia.
    + exists l. cbn. auto.
Qed.

Lemma windows_spec (l : list A) :
  exists tail,
    l = List.concat (windows n l) ++ tail
    /\ (List.length tail < n)%nat
    /\ Forall (fun w => List.length w = n) (windows n l).
Proof. apply windows_fuel_spec. lia. Qed.

Lemma length_concat_windows (ws : list (list A)) :
  Forall (fun w => List.length w = n) ws ->
  List.length (List.concat ws) = (n * List.length ws)%nat.
Proof.
  induction 1 as [| w ws Hw _ IH]; cbn [List.concat List.length]; [ lia |].
  rewrite length_app, IH, Hw. lia.
Qed.

(** A loop over the entries is a loop over their full windows, whenever
    the body passes over a group that is too short. *)
Lemma stride_loop_full (l : list A) (s : St) :
  (forall tail st, (List.length tail < n)%nat -> body st tail = Ok st) ->
  stride_loop n body l s = for_each body (windows n l) s.
Proof.
  intros Hskip. destruct (windows_spec l) as (tail & Heq & Ht & Hall).
  rewrite Heq at 1. apply stride_loop_windows; auto.
Qed.

(** The windows of a whole number of windows followed by a short rest
    are the windows without the rest. *)
Lemma windows_app_partial (full tail : list A) :
  (List.length full mod n = 0)%nat -> (List.length tail < n)%nat ->
  windows n (full ++ tail) = windows n full.
Proof.
  intros Hfull Htail. unfold windows.
  assert (Hgen : forall f1 f2 (l : list A),
             (List.length l mod n = 0)%nat ->
             (List.length l <= f1)%nat -> (List.length l <= f2)%nat ->
             windows_fuel f1 n (l ++ tail) = windows_fuel f2 n l).
  { induction f1 as [| f1 IH]; intros f2 l Hm H1 H2.
    - destruct l; [| cbn in H1; lia ]. destruct f2; cbn; [ reflexivity |].
      destruct (Nat.leb_spec n 0); [ lia | reflexivity ].
    - cbn [windows_fuel]. rewrite length_app.
      destruct (Nat.leb_spec n (List.length l)) as [Hn | Hn].
      + destruct f2 as [| f2]; [ lia |]. cbn [windows_fuel].
        destruct (Nat.leb_spec n (List.length l + List.length tail)); [| lia ].
        destruct (Nat.leb_spec n (List.length l)); [| lia ].
        rewrite firstn_app, skipn_app.
        replace (n - List.length l)%nat with O by lia.
        cbn [firstn skipn]. rewrite app_nil_r. f_equal.
        apply IH; rewrite ?length_skipn; try lia.
        rewrite <- (Nat.Div0.mod_add _ 1 n).
        replace (List.length l - n + 1 * n)%nat with (List.length l) by lia.
        exact Hm.
      + assert (List.length l = 0)%nat as Hl0.
        { rewrite Nat.mod_small in Hm by lia. exact Hm. }
        destruct l; [| cbn in Hl0; lia ]. cbn [List.length app Nat.add].
        destruct (Nat.leb_spec n (List.length tail)); [ lia |].
        destruct f2; cbn; [ reflexivity |].
        destruct (Nat.leb_spec n 0); [ lia | reflexivity ]. }
  apply Hgen; rewrite ?length_app; lia.
Qed.

End Stride.

(** ** Grouping by first-seen key *)

Lemma first_seen_In (l : list string) (x : string) :
  In x (first_seen l) <-> In x l.
Proof.
  induction l as [| a l IH]; simpl; [ tauto |].
  rewrite filter_In, IH, negb_true_iff, String.eqb_neq.
  destruct (String.eqb_spec x a); subst; intuition auto.
Qed.

Lemma first_seen_NoDup (l : list string) : NoDup (first_seen l).
Proof.
  induction l as [| a l IH]; simpl; constructor.
  - rewrite filter_In, String.eqb_refl. simpl. intros [_ Hf]. discriminate.
  - now apply NoDup_filter.
Qed.

Lemma first_seen_snoc (l : list string) (k : string) :
  first_seen (l ++ [k]) =
  if existsb (String.eqb k) l then first_seen l else first_seen l ++ [k].
Proof.
  induction l as [| a l IH]; simpl; [ reflexivity |].
  rewrite IH. destruct (existsb (String.eqb k) l).
  - rewrite orb_true_r. reflexivity.
  - rewrite orb_false_r, filter_app. simpl.
    destruct (String.eqb k a); simpl; [ now rewrite app_nil_r | reflexivity ].
Qed.

Lemma existsb_eqb_In (l : list string) (k : string) :
  existsb (String.eqb k) l = true <-> In k l.
Proof.
  rewrite existsb_exists. split.
  - intros (x & Hx & He). apply String.eqb_eq in He. now subst.
  - intros Hk. exists k. split; [ exact Hk | apply String.eqb_refl ].
Qed.

Lemma entries_of_snoc (kq : list (string * value)) (k k' : string) (q : value) :
  entries_of (kq ++ [(k, q)]) k' =
  entries_of kq k' ++ (if String.eqb k k' then [q] else []).
Proof.
  unfold entries_of. rewrite filter_app, map_app. simpl.
  destruct (String.eqb k k'); reflexivity.
Qed.

Lemma entries_of_absent (kq : list (string * value)) (k : string) :
  ~ In k (List.map fst kq) -> entries_of kq k = [].
Proof.
  unfold entries_of. induction kq as [| [a q] kq IH]; simpl; [ reflexivity |].
  intros Hn. destruct (String.eqb_spec a k); [ tauto |]. apply IH. tauto.
Qed.

Lemma upsert_absent (f : string -> list value) (l : list string) (k : string)
    (q : value) :
  ~ In k l ->
  upsert (List.map (fun x => (x, f x)) l) k q =
  List.map (fun x => (x, f x)) l ++ [(k, [q])].
Proof.
  induction l as [| a l IH]; simpl; [ reflexivity |].
  intros Hn. destruct (String.eqb_spec a k); [ tauto |].
  rewrite IH by tauto. reflexivity.
Qed.

Lemma upsert_present (f : string -> list value) (l : list string) (k : string)
    (q : value) :
  NoDup l -> In k l ->
  upsert (List.map (fun x => (x, f x)) l) k q =
  List.map (fun x => (x, f x ++ (if String.eqb k x then [q] else []))) l.
Proof.
  induction l as [| a l IH]; simpl; [ tauto |].
  intros Hnd Hin. inversion Hnd as [| ? ? Ha Hl]; subst.
  destruct (String.eqb_spec a k) as [-> | Hne].
  - rewrite String.eqb_refl. f_equal. apply map_ext_in.
    intros x Hx. destruct (String.eqb_spec k x); [ subst; tauto |].
    now rewrite app_nil_r.
  - destruct (String.eqb_spec k a); [ congruence |]. rewrite app_nil_r.
    f_equal. apply IH; [ exact Hl |]. destruct Hin; [ congruence | assumption ].
Qed.

Lemma upsert_group_by_key (kq : list (string * value)) (k : string) (q : value) :
  upsert (group_by_key kq) k q = group_by_key (kq ++ [(k, q)]).
Proof.
  unfold group_by_key. rewrite map_app. cbn [List.map fst].
  rewrite first_seen_snoc.
  destruct (existsb (String.eqb k) (List.map fst kq)) eqn:Ex.
  - apply existsb_eqb_In in Ex.
    rewrite upsert_present
      by (auto using first_seen_NoDup; now apply first_seen_In).
    apply map_ext. intros x. now rewrite entries_of_snoc.
  - assert (Hn : ~ In k (List.map fst kq)).
    { intros Hin. apply existsb_eqb_In in Hin. congruence. }
    rewrite upsert_absent by (now rewrite first_seen_In).
    rewrite map_app. cbn [List.map].
    rewrite entries_of_snoc, String.eqb_refl, (entries_of_absent _ _ Hn).
    f_equal. apply map_ext_in. intros x Hx. rewrite entries_of_snoc.
    destruct (String.eqb_spec k x); [| now rewrite app_nil_r ].
    subst. apply (proj1 (first_seen_In _ _)) in Hx. tauto.
Qed.

Lemma fold_upsert (kq pre : list (string * value)) :
  fold_left (fun g p => upsert g (fst p) (snd p)) kq (group_by_key pre) =
  group_by_key (pre ++ kq).
Proof.
  revert pre. induction kq as [| [k q] kq IH]; intros pre; simpl.
  - now rewrite app_nil_r.
  - rewrite upsert_group_by_key, IH, <- app_assoc. reflexivity.
Qed.

(** ** The stride-4 and stride-10 reconstructors *)

Lemma lstrip_all (p : ascii -> bool) (s : string) :
  Str.all p s = true -> Str.lstrip p s = "".
Proof.
  induction s as [| c s IH]; cbn [Str.all Str.lstrip]; [ reflexivity |].
  intros Hall. apply andb_prop in Hall. destruct Hall as [Hc Hs].
  rewrite Hc. exact (IH Hs).
Qed.

Lemma lstrip_not_all (p : ascii -> bool) (s : string) :
  Str.all p s = false ->
  exists c r, Str.lstrip p s = String c r /\ p c = false.
Proof.
  induction s as [| c s IH]; cbn [Str.all Str.lstrip]; [ discriminate |].
  destruct (p c) eqn:Hc; cbn [andb]; [ exact IH |].
  intros _. exists c, s. split; [ reflexivity | exact Hc ].
Qed.

Lemma rstrip_head (p : ascii -> bool) (c : ascii) (r : string) :
  p c = false -> Str.rstrip p (String c r) <> "".
Proof.
  intros Hc. cbn [Str.rstrip]. destruct (Str.rstrip p r);
    [ rewrite Hc |]; discriminate.
Qed.

(** [s.strip() == ""] says that [s] is white space throughout. *)
Lemma strip_empty (s : string) :
  String.eqb (Str.strip s) "" = Str.all Str.is_space s.
Proof.
  unfold Str.strip. destruct (Str.all Str.is_space s) eqn:E.
  - rewrite lstrip_all by exact E. reflexivity.
  - destruct (lstrip_not_all _ _ E) as (c & r & Hl & Hc). rewrite Hl.
    pose proof (rstrip_head Str.is_space c r Hc) as Hne.
    destruct (Str.rstrip Str.is_space (String c r)); [ congruence | reflexivity ].
Qed.

Lemma is_blank_blank (v : value) : is_blank v = blank v.
Proof. destruct v; try reflexivity. apply strip_empty. Qed.

Lemma mpd_group_partial (proposals : list value) (group : list entry) :
  (List.length group < 10)%nat -> mpd_group proposals group = Ok proposals.
Proof.
  intros Hlen. unfold mpd_group.
  do 10 (destruct group as [| ? group]; [ reflexivity |]).
  cbn [List.length] in Hlen. lia.
Qed.

Section Boundary.

Context `{Repr}.

Lemma boundary_group_partial (st : dict) (group : list entry) :
  (List.length group < 4)%nat -> boundary_group st group = Ok st.
Proof.
  intros Hlen. unfold boundary_group.
  do 4 (destruct group as [| ? group]; [ reflexivity |]).
  cbn [List.length] in Hlen. lia.
Qed.

Lemma append_at_head (d : dict) (k' k : string) (qs : list value) (q : value) :
  String.eqb k' k = true ->
  append_at ((k', structure_record k' qs) :: d) k "energeticQualities" q =
  Ok ((k', structure_record k' (qs ++ [q])) :: d).
Proof.
  intros Ek. unfold append_at, subscript. cbn [dict_get]. rewrite Ek.
  cbn [bind structure_record dict_get String.eqb Ascii.eqb Bool.eqb].
  cbn [dict_set]. rewrite Ek. reflexivity.
Qed.

Lemma append_at_tail (d : dict) (k' k field : string) (v q : value) :
  String.eqb k' k = false ->
  append_at ((k', v) :: d) k field q =
  (d' <- append_at d k field q ;; Ok ((k', v) :: d')).
Proof.
  intros Ek. unfold append_at, subscript. cbn [dict_get]. rewrite Ek.
  destruct (dict_get d k) as [r |]; cbn [bind]; [| reflexivity ].
  destruct r; try reflexivity. cbn [bind].
  destruct (dict_get d0 field) as [l |]; cbn [bind]; [| reflexivity ].
  destruct l; try reflexivity. cbn [dict_set]. rewrite Ek. reflexivity.
Qed.

Lemma upsert_render (g : list (string * list value)) (k : string) (q : value) :
  append_at
    (if dict_mem (render g) k then render g
     else dict_set (render g) k (structure_record k []))
    k "energeticQualities" q
  = Ok (render (upsert g k q)).
Proof.
  induction g as [| [k' qs] g IH].
  - cbn [render List.map dict_mem dict_get dict_set upsert].
    rewrite append_at_head by apply String.eqb_refl. reflexivity.
  - unfold dict_mem in *. cbn [render List.map fst snd dict_get upsert].
    fold (render g).
    destruct (String.eqb k' k) eqn:Ek.
    + rewrite append_at_head by exact Ek. reflexivity.
    + destruct (dict_get (render g) k) as [v |].
      * rewrite append_at_tail, IH by exact Ek. reflexivity.
      * cbn [dict_set]. rewrite Ek.
        rewrite append_at_tail, IH by exact Ek. reflexivity.
Qed.

Lemma boundary_group_render (g : list (string * list value)) (group : list entry) :
  List.length group = 4%nat ->
  boundary_group (render g) group =
  (w <- normalized group ;; Ok (render (boundary_step g w))).
Proof.
  intros Hlen.
  destruct group as [| g0 [| g1 [| g2 [| g3 [| g4 rest]]]]]; try discriminate.
  unfold boundary_group, normalized. cbn [map_result].
  destruct (normalize_value (snd g0)) as [t |]; cbn [bind]; [| reflexivity ].
  destruct (normalize_value (snd g1)) as [q |]; cbn [bind]; [| reflexivity ].
  destruct (normalize_value (snd g2)) as [u |]; cbn [bind]; [| reflexivity ].
  destruct (normalize_value (snd g3)) as [d |]; cbn [bind]; [| reflexivity ].
  unfold boundary_step, kept, type_key, quality_of. cbn [nth].
  rewrite is_blank_blank.
  destruct (blank q); cbn [negb]; [ reflexivity |].
  apply (upsert_render g (py_str t) (quality_entry q u d)).
Qed.

Lemma boundary_loop_render (ws : list (list entry)) :
  Forall (fun w => List.length w = 4%nat) ws ->
  forall g,
    for_each boundary_group ws (render g) =
    (nws <- map_result normalized ws ;;
     Ok (render (fold_left boundary_step nws g))).
Proof.
  induction 1 as [| w ws Hw _ IH]; intros g; cbn [for_each map_result].
  - reflexivity.
  - rewrite boundary_group_render by exact Hw.
    destruct (normalized w) as [nw |]; cbn [bind]; [| reflexivity ].
    rewrite IH. destruct (map_result normalized ws); reflexivity.
Qed.

Lemma fold_boundary_step (nws : list (list value))
    (g : list (string * list value)) :
  fold_left boundary_step nws g =
  fold_left (fun g p => upsert g (fst p) (snd p))
    (List.map (fun w => (type_key w, quality_of w)) (filter kept nws)) g.
Proof.
  revert g. induction nws as [| w nws IH]; intros g; cbn [fold_left filter].
  - reflexivity.
  - rewrite IH. unfold boundary_step. destruct (kept w); reflexivity.
Qed.

Lemma process_boundary_grouped (entries : list entry) :
  process_boundary entries =
  (ws <- map_result normalized (windows 4 entries) ;; Ok (grouped ws)).
Proof.
  unfold process_boundary.
  rewrite stride_loop_full
    by (try lia; intros; now apply boundary_group_partial).
  destruct (windows_spec 4 ltac:(lia) entries) as (_ & _ & _ & Hall).
  change (@nil (string * value)) with (render []).
  rewrite boundary_loop_render by exact Hall.
  destruct (map_result normalized (windows 4 entries)) as [nws |];
    cbn [bind]; [| reflexivity ].
  rewrite fold_boundary_step.
  change (@nil (string * list value)) with (group_by_key []).
  rewrite fold_upsert. cbn [app]. unfold grouped, group_by_key, render.
  rewrite !map_map. reflexivity.
Qed.

Lemma process_mpd_windows (entries : list entry) :
  process_mpd entries = for_each mpd_group (windows 10 entries) [].
Proof.
  unfold process_mpd. apply stride_loop_full; [ lia |].
  intros. now apply mpd_group_partial.
Qed.

Lemma process_boundary_windows (entries : list entry) :
  process_boundary entries =
  (st <- for_each boundary_group (windows 4 entries) [] ;; Ok (List.map snd st)).
Proof.
  unfold process_boundary. rewrite stride_loop_full; [ reflexivity | lia |].
  intros. now apply boundary_group_partial.
Qed.

(** C5. [process_boundary] normalizes the full windows and returns them
    [grouped]: windows whose quality is [None] or blank (a string of white
    space only) are left out, so they give no record and no quality entry;
    the others are gathered by the string form of their type, one record
    per type, in the order of the types' first windows, each holding the
    [{quality, U, dimension}] entries of its windows in window order. *)
Theorem process_boundary_groups_by_type (entries : list entry) :
  process_boundary entries =
  (ws <- map_result normalized (windows 4 entries) ;; Ok (grouped ws))
  /\ (forall t q u d,
         kept [t; q; u; d] = false
         <-> q = VNone \/ exists s, q = VStr s /\ Str.all Str.is_space s = true)
  /\ (forall t q u d,
         quality_of [t; q; u; d]
         = VDict [("quality", q); ("U", u); ("dimension", d)])
  /\ (forall k qs,
         structure_record k qs
         = VDict [("typeOfStructure", VStr k); ("energeticQualities", VList qs)])
  /\ (forall ws, grouped ws = grouped (filter kept ws))
  /\ (forall ws,
         let kq := List.map (fun w => (type_key w, quality_of w))
                     (filter kept ws) in
         NoDup (first_seen (List.map fst kq))
         /\ (forall k, In k (first_seen (List.map fst kq))
                       <-> In k (List.map fst kq))
         /\ List.map
              (fun r => match r with
                        | VDict d => dict_get d "typeOfStructure"
                        | _ => None
                        end) (grouped ws)
            = List.map (fun k => Some (VStr k)) (first_seen (List.map fst kq))).
Proof.
  split; [ apply process_boundary_grouped |].
  split.
  { intros t q u d. unfold kept, blank. cbn [nth]. rewrite negb_false_iff.
    split.
    - destruct q as [| b | z | f | s | l | dd]; try discriminate;
        [ now left | intros Hs; right; now exists s ].
    - intros [-> | (s & -> & Hs)]; [ reflexivity | exact Hs ]. }
  split; [ reflexivity |]. split; [ reflexivity |]. split.
  - intros ws. unfold grouped.
    assert (Hf : filter kept (filter kept ws) = filter kept ws).
    { induction ws as [| w ws IH]; cbn [filter]; [ reflexivity |].
      destruct (kept w) eqn:E; cbn [filter]; rewrite ?E, IH; reflexivity. }
    now rewrite Hf.
  - intros ws kq. split; [ apply first_seen_NoDup |].
    split; [ intros k; apply first_seen_In |].
    unfold grouped. fold kq. rewrite map_map. reflexivity.
Qed.

(** C6. A trailing run shorter than the stride changes nothing: after a
    whole number of windows, fewer than 4 (or 10) further entries give the
    result of the whole windows alone, and on their own they give no record
    at all. *)
Theorem partial_window_discarded (full4 tail4 full10 tail10 : list entry) :
  (List.length full4 mod 4 = 0)%nat -> (List.length tail4 < 4)%nat ->
  (List.length full10 mod 10 = 0)%nat -> (List.length tail10 < 10)%nat ->
  process_boundary (full4 ++ tail4) = process_boundary full4
  /\ process_boundary tail4 = Ok []
  /\ process_mpd (full10 ++ tail10) = process_mpd full10
  /\ process_mpd tail10 = Ok [].
Proof.
  intros Hf4 Ht4 Hf10 Ht10.
  rewrite !process_boundary_windows, !process_mpd_windows.
  rewrite (windows_app_partial 4 ltac:(lia) full4 tail4 Hf4 Ht4).
  rewrite (windows_app_partial 10 ltac:(lia) full10 tail10 Hf10 Ht10).
  assert (H4 : windows 4 tail4 = []).
  { apply (windows_app_partial 4 ltac:(lia) [] tail4); [ reflexivity | exact Ht4 ]. }
  assert (H10 : windows 10 tail10 = []).
  { apply (windows_app_partial 10 ltac:(lia) [] tail10);
      [ reflexivity | exact Ht10 ]. }
  rewrite H4, H10. repeat split; reflexivity.
Qed.

End Boundary.

(** ** Integer literals *)

Lemma digit_not_underscore (c : ascii) :
  Str.is_digit c = true -> Ascii.eqb c "_" = false.
Proof. ascii_cases c; intros Hd; try reflexivity; discriminate Hd. Qed.

Lemma digit_parse_sign (c : ascii) (s : string) :
  Str.is_digit c = true -> Float.parse_sign (String c s) = (false, String c s).
Proof. ascii_cases c; intros Hd; try reflexivity; discriminate Hd. Qed.

Lemma digit_int_literal (c : ascii) (s : string) :
  Str.is_digit c = true ->
  is_int_literal (String c s) = Str.all Str.is_digit (String c s).
Proof. ascii_cases c; intros Hd; try reflexivity; discriminate Hd. Qed.

Lemma digits_val_acc_nonneg (s : string) :
  Str.all Str.is_digit s = true ->
  forall acc, 0 <= acc -> 0 <= Str.digits_val_acc acc s.
Proof.
  induction s as [| c s IH]; cbn [Str.all Str.digits_val_acc];
    intros Hall acc Hacc; [ exact Hacc |].
  apply andb_prop in Hall. destruct Hall as [Hc Hs].
  apply IH; [ exact Hs |]. pose proof (digit_val_range c Hc). lia.
Qed.

Lemma span_all (p : ascii -> bool) (s : string) :
  Str.all p s = true -> Str.span p s = (s, EmptyString).
Proof.
  induction s as [| c s IH]; simpl; [ reflexivity |].
  intros Hall. apply andb_prop in Hall. destruct Hall as [Hc Hs].
  now rewrite Hc, IH.
Qed.

Lemma append_empty_r (s : string) : (s ++ "")%string = s.
Proof. induction s as [| c s IH]; simpl; [ reflexivity | now rewrite IH ]. Qed.

Lemma strip_underscores_digits (ds : string) :
  Str.all Str.is_digit ds = true ->
  forall p, Ascii.eqb p "_" = false ->
            Float.strip_underscores (Some p) ds = Some ds.
Proof.
  induction ds as [| c ds IH]; intros Hall p Hp.
  - ascii_cases p; try reflexivity; discriminate Hp.
  - simpl in Hall. apply andb_prop in Hall. destruct Hall as [Hc Hs].
    cbn [Float.strip_underscores].
    rewrite (digit_not_underscore c Hc), Hc, andb_false_r.
    now rewrite (IH Hs c (digit_not_underscore c Hc)).
Qed.

Lemma strip_underscores_start (c : ascii) (ds : string) :
  Ascii.eqb c "_" = false -> Str.all Str.is_digit ds = true ->
  Float.strip_underscores None (String c ds) = Some (String c ds).
Proof.
  intros Hc Hall. cbn [Float.strip_underscores]. rewrite Hc. cbn [andb].
  now rewrite (strip_underscores_digits ds Hall c Hc).
Qed.

Lemma parse_number_digits (neg : bool) (ds : string) :
  ds <> "" -> Str.all Str.is_digit ds = true ->
  Float.parse_number neg ds =
  Some (Float.of_decimal neg (Str.digits_val ds) 0).
Proof.
  intros Hne Hall. unfold Float.parse_number.
  rewrite (span_all _ _ Hall), append_empty_r.
  destruct ds; [ congruence | reflexivity ].
Qed.

Lemma of_string_digits (ds : string) :
  ds <> "" -> Str.all Str.is_digit ds = true ->
  Float.of_string ds = Some (Float.of_decimal false (Str.digits_val ds) 0).
Proof.
  intros Hne Hall. unfold Float.of_string.
  destruct ds as [| c ds']; [ congruence |].
  pose proof Hall as Hall'. simpl in Hall'. apply andb_prop in Hall'.
  destruct Hall' as [Hc Hs].
  rewrite (strip_underscores_start c ds' (digit_not_underscore c Hc) Hs).
  rewrite (digit_parse_sign c ds' Hc).
  now rewrite (parse_number_digits false (String c ds') Hne Hall).
Qed.

Lemma of_string_signed (sign : ascii) (ds : string) :
  sign = "-"%char \/ sign = "+"%char ->
  ds <> "" -> Str.all Str.is_digit ds = true ->
  Float.of_string (String sign ds) =
  Some (Float.of_decimal (Ascii.eqb sign "-") (Str.digits_val ds) 0).
Proof.
  intros Hsign Hne Hall. unfold Float.of_string.
  rewrite (strip_underscores_start sign ds) by (destruct Hsign; subst; auto).
  destruct Hsign; subst sign; cbn [Float.parse_sign Ascii.eqb Bool.eqb];
    now rewrite (parse_number_digits _ ds Hne Hall).
Qed.

Lemma round_ratio_integer (neg : bool) (n : Z) :
  0 <= n <= 2 ^ 53 ->
  Float.to_int (Float.round_ratio neg n 1) = Ok (if neg then - n else n).
Proof.
  intros Hn.
  destruct (Z.eq_dec n 0) as [-> | Hn0]; [ destruct neg; reflexivity |].
  destruct (Z.eq_dec n (2 ^ 53)) as [-> | Hn53]; [ destruct neg; reflexivity |].
  assert (Hpos : 0 < n) by lia.
  destruct (Z.log2_spec n Hpos) as [Hlo Hhi].
  pose proof (Z.log2_nonneg n) as HL0.
  assert (HL : Z.log2 n <= 52).
  { assert (Z.log2 n < 53); [| lia ]. apply Z.log2_lt_pow2; lia. }
  unfold Float.round_ratio.
  destruct (Z.eqb_spec n 0); [ lia |].
  change (Z.log2 1) with 0. rewrite Z.sub_0_r.
  set (L := Z.log2 n) in *.
  rewrite (Z.max_r 0 L), (Z.max_l 0 (- L)) by lia.
  rewrite Z.mul_1_l, Z.pow_0_r, Z.mul_1_r.
  destruct (Z.leb_spec (2 ^ L) n); [| lia ].
  rewrite (Z.max_l (L - 52) (-1074)) by lia.
  rewrite (Z.max_r 0 (- (L - 52))), (Z.max_l 0 (L - 52)) by lia.
  rewrite Z.pow_0_r, Z.mul_1_l, Z.div_1_r, Z.mod_1_r.
  change (2 * 0 <? 1) with true. cbv iota.
  set (a := n * 2 ^ (- (L - 52))).
  assert (Hp : 0 < 2 ^ (- (L - 52))) by (apply Z.pow_pos_nonneg; lia).
  assert (Ha : 0 < a < 2 ^ 53).
  { subst a. split; [ nia |].
    replace (2 ^ 53) with (2 ^ Z.succ L * 2 ^ (- (L - 52))).
    - apply Z.mul_lt_mono_pos_r; assumption.
    - rewrite <- Z.pow_add_r by lia. f_equal. lia. }
  destruct (Z.eqb_spec a (2 ^ 53)); [ lia |].
  destruct (Z.eqb_spec a 0); [ lia |].
  destruct (Z.ltb_spec 971 (L - 52)); [ lia |].
  unfold Float.to_int. rewrite Z2Pos.id by lia. f_equal.
  assert (Hval : (if 0 <=? L - 52 then a * 2 ^ (L - 52)
                  else a / 2 ^ (- (L - 52))) = n).
  { destruct (Z.leb_spec 0 (L - 52)).
    - assert (L = 52) by lia. subst a. replace (L - 52) with 0 by lia.
      cbn. lia.
    - subst a. apply Z.div_mul. lia. }
  now rewrite Hval.
Qed.

Lemma normalize_value_numeric (raw s : string) (num : spec_float) :
  String.eqb raw "TRUE" = false -> String.eqb raw "FALSE" = false ->
  String.eqb raw "null" = false ->
  Str.strip raw = s -> s <> "" -> Float.of_string s = Some num ->
  normalize_value (VStr raw) =
  if is_int_literal s then
    match Float.to_int num with
    | Ok z => Ok (VInt z)
    | Raise ValueError => Ok (VStr raw)
    | Raise e => Raise e
    end
  else Ok (VFloat num).
Proof.
  intros H1 H2 H3 Hs Hne Hf. unfold normalize_value.
  rewrite H1, H2, H3, Hs. destruct s; [ congruence |]. now rewrite Hf.
Qed.

Lemma not_a_literal (raw s : string) (c : ascii) :
  Str.strip raw = String c s ->
  Str.is_digit c = true \/ c = "-"%char \/ c = "+"%char ->
  String.eqb raw "TRUE" = false /\ String.eqb raw "FALSE" = false
  /\ String.eqb raw "null" = false.
Proof.
  intros Hs Hc.
  repeat split; apply String.eqb_neq; intros ->; vm_compute in Hs;
    injection Hs as <- _; destruct Hc as [Hc | [Hc | Hc]]; discriminate Hc.
Qed.

(** C3, as the code has it.  A string whose trimmed form is one or more
    digits, with or without a minus sign before them, and whose value is at
    most 2^53 in magnitude, normalizes to that integer.  A plus sign is not
    part of an integer: with it the string normalizes to the float
    [float()] reads. *)
Theorem normalize_value_signed_digits (raw ds : string) :
  ds <> "" -> Str.all Str.is_digit ds = true ->
  (Str.strip raw = ds -> Str.digits_val ds <= 2 ^ 53 ->
   normalize_value (VStr raw) = Ok (VInt (Str.digits_val ds)))
  /\ (Str.strip raw = String "-" ds -> Str.digits_val ds <= 2 ^ 53 ->
      normalize_value (VStr raw) = Ok (VInt (- Str.digits_val ds)))
  /\ (Str.strip raw = String "+" ds ->
      normalize_value (VStr raw) =
      Ok (VFloat (Float.of_decimal false (Str.digits_val ds) 0))).
Proof.
  intros Hne Hall.
  assert (Hnn : 0 <= Str.digits_val ds)
    by (apply digits_val_acc_nonneg; [ exact Hall | lia ]).
  assert (Hdec : forall neg,
             Float.of_decimal neg (Str.digits_val ds) 0 =
             Float.round_ratio neg (Str.digits_val ds) 1).
  { intros neg. unfold Float.of_decimal. cbn [Z.leb Z.compare].
    now rewrite Z.pow_0_r, Z.mul_1_r. }
  split; [| split ].
  - intros Hs Hb. destruct ds as [| c ds']; [ congruence |].
    pose proof Hall as Hall'. simpl in Hall'. apply andb_prop in Hall'.
    destruct Hall' as [Hc _].
    destruct (not_a_literal raw ds' c Hs (or_introl Hc)) as (H1 & H2 & H3).
    rewrite (normalize_value_numeric raw _ _ H1 H2 H3 Hs Hne
               (of_string_digits _ Hne Hall)).
    rewrite (digit_int_literal c ds' Hc), Hall, Hdec.
    now rewrite round_ratio_integer by lia.
  - intros Hs Hb.
    destruct (not_a_literal raw ds "-" Hs (or_intror (or_introl eq_refl)))
      as (H1 & H2 & H3).
    rewrite (normalize_value_numeric raw _ _ H1 H2 H3 Hs ltac:(discriminate)
               (of_string_signed "-" ds (or_introl eq_refl) Hne Hall)).
    assert (Hlit : is_int_literal (String "-" ds) = true).
    { unfold is_int_literal. destruct ds; [ congruence | exact Hall ]. }
    rewrite Hlit. cbn [Ascii.eqb Bool.eqb]. rewrite Hdec.
    now rewrite round_ratio_integer by lia.
  - intros Hs.
    destruct (not_a_literal raw ds "+" Hs (or_intror (or_intror eq_refl)))
      as (H1 & H2 & H3).
    rewrite (normalize_value_numeric raw _ _ H1 H2 H3 Hs ltac:(discriminate)
               (of_string_signed "+" ds (or_intror eq_refl) Hne Hall)).
    assert (Hlit : is_int_literal (String "+" ds) = false).
    { unfold is_int_literal. destruct ds as [| c ds']; [ congruence |].
      simpl. reflexivity. }
    rewrite Hlit. reflexivity.
Qed.

Lemma normalize_value_signed_digits_witness :
  normalize_value (VStr " 12 ") = Ok (VInt 12)
  /\ normalize_value (VStr "-7") = Ok (VInt (-7))
  /\ normalize_value (VStr "+5") =
     Ok (VFloat (Float.of_decimal false 5 0)).
Proof.
  split; [| split ].
  - apply (proj1 (normalize_value_signed_digits " 12 " "12"
                    ltac:(discriminate) eq_refl));
      [ reflexivity | vm_compute; discriminate ].
  - apply (proj1 (proj2 (normalize_value_signed_digits "-7" "7"
                           ltac:(discriminate) eq_refl)));
      [ reflexivity | vm_compute; discriminate ].
  - apply (proj2 (proj2 (normalize_value_signed_digits "+5" "5"
                           ltac:(discriminate) eq_refl))).
    reflexivity.
Defined.

(** The trimmed text ["+5"] is a sign followed by a digit, and it is
    normalized to the float 5.0, not to the integer 5.  The integer is read
    through [float()]: 2^53 + 1 comes back as 2^53. *)
Lemma normalize_value_plus_sign_is_float :
  Str.strip "+5" = String "+" "5"
  /\ Str.all Str.is_digit "5" = true
  /\ normalize_value (VStr "+5") =
     Ok (VFloat (S754_finite false 5629499534213120 (-50)))
  /\ normalize_value (VStr "+5") <> Ok (VInt 5)
  /\ normalize_value (VStr "9007199254740993") = Ok (VInt 9007199254740992).
Proof.
  repeat split; try reflexivity. vm_compute. discriminate.
Qed.

(** Four hundred digits read as an infinite float, which [int()] refuses. *)
Example normalize_value_overflow :
  normalize_value (VStr (four_hundred_nines)) = Raise OverflowError.
Proof. vm_compute. reflexivity. Qed.

(** ** The generic materializer *)

Lemma span_spec (p : ascii -> bool) (s : string) :
  s = (fst (Str.span p s) ++ snd (Str.span p s))%string
  /\ Str.all p (fst (Str.span p s)) = true.
Proof.
  induction s as [| c s IH]; cbn [Str.span]; [ split; reflexivity |].
  destruct (p c) eqn:Ec; [| split; reflexivity ].
  destruct (Str.span p s) as [a b]. cbn [fst snd] in *.
  destruct IH as [IH1 IH2]. split.
  - cbn. now rewrite <- IH1.
  - cbn. now rewrite Ec, IH2.
Qed.

Lemma span_digits_line_end (ds nl : string) :
  Str.all Str.is_digit ds = true -> line_end nl ->
  Str.span Str.is_digit (ds ++ nl) = (ds, nl).
Proof.
  intros Hall Hnl. induction ds as [| c ds IH]; cbn [String.append Str.span].
  - destruct Hnl as [-> | ->]; reflexivity.
  - cbn [Str.all] in Hall. apply andb_prop in Hall. destruct Hall as [Hc Hs].
    now rewrite Hc, (IH Hs).
Qed.

Lemma digit_not_newline (c : ascii) :
  Str.is_digit c = true -> Ascii.eqb c Str.newline = false.
Proof. ascii_cases c; intros Hd; try reflexivity; discriminate Hd. Qed.

Lemma digit_not_index_suffix (c : ascii) (s : string) :
  Str.is_digit c = true -> is_index_suffix (String c s) = false.
Proof. ascii_cases c; intros Hd; try reflexivity; discriminate Hd. Qed.

Lemma arr_prefix_digits (ds nl : string) :
  Str.all Str.is_digit ds = true -> line_end nl ->
  arr_prefix (ds ++ nl) = None.
Proof.
  intros Hall Hnl. induction ds as [| c ds IH]; cbn [String.append].
  - destruct Hnl as [-> | ->]; reflexivity.
  - cbn [Str.all] in Hall. apply andb_prop in Hall. destruct Hall as [Hc Hs].
    cbn [arr_prefix]. rewrite (digit_not_newline c Hc), (IH Hs).
    now rewrite (digit_not_index_suffix c _ Hc).
Qed.

Lemma index_suffix_complete (ds nl : string) :
  ds <> "" -> Str.all Str.is_digit ds = true -> line_end nl ->
  is_index_suffix (String "_" (ds ++ nl)) = true.
Proof.
  intros Hne Hall Hnl. cbn [is_index_suffix].
  rewrite (span_digits_line_end ds nl Hall Hnl).
  destruct ds; [ congruence |]. destruct Hnl as [-> | ->]; reflexivity.
Qed.

Lemma arr_prefix_complete (p ds nl : string) :
  no_newline p = true ->
  ds <> "" -> Str.all Str.is_digit ds = true -> line_end nl ->
  arr_prefix (p ++ String "_" (ds ++ nl)) = Some p.
Proof.
  intros Hp Hne Hall Hnl. induction p as [| c p IH]; cbn [String.append].
  - cbn [arr_prefix]. rewrite (arr_prefix_digits ds nl Hall Hnl).
    change (Ascii.eqb "_" Str.newline) with false. cbv iota.
    now rewrite (index_suffix_complete ds nl Hne Hall Hnl).
  - unfold no_newline in Hp. cbn [Str.all] in Hp.
    apply andb_prop in Hp. destruct Hp as [Hc Hp].
    apply negb_true_iff in Hc.
    cbn [arr_prefix]. rewrite Hc, (IH Hp). reflexivity.
Qed.

Lemma index_suffix_sound (s : string) :
  is_index_suffix s = true ->
  exists ds nl,
    s = String "_" (ds ++ nl) /\ ds <> ""
    /\ Str.all Str.is_digit ds = true /\ line_end nl.
Proof.
  destruct s as [| c r]; [ discriminate |].
  ascii_cases c; try discriminate. cbn [is_index_suffix].
  destruct (span_spec Str.is_digit r) as [Heq Hall].
  destruct (Str.span Str.is_digit r) as [ds rest]. cbn [fst snd] in *.
  destruct ds as [| d ds]; [ discriminate |].
  intros Hrest. exists (String d ds), rest. repeat split; auto.
  - now rewrite <- Heq.
  - discriminate.
  - apply orb_prop in Hrest. destruct Hrest as [Hr | Hr];
      apply String.eqb_eq in Hr; [ now left | now right ].
Qed.

Lemma arr_prefix_sound (s p : string) :
  arr_prefix s = Some p ->
  no_newline p = true
  /\ exists ds nl,
       s = (p ++ String "_" (ds ++ nl))%string /\ ds <> ""
       /\ Str.all Str.is_digit ds = true /\ line_end nl.
Proof.
  revert p. induction s as [| c s IH]; intros p; cbn [arr_prefix];
    [ discriminate |].
  destruct (Ascii.eqb c Str.newline) eqn:Ec.
  - destruct (is_index_suffix (String c s)) eqn:Ei; [| discriminate ].
    intros [= <-]. split; [ reflexivity |].
    now apply index_suffix_sound.
  - destruct (arr_prefix s) as [q |] eqn:Eq.
    + intros [= <-]. destruct (IH q eq_refl) as (Hq & ds & nl & Hs & Hrest).
      split.
      * unfold no_newline in *. cbn [Str.all]. now rewrite Ec, Hq.
      * exists ds, nl. split; [ cbn; now rewrite <- Hs | exact Hrest ].
    + destruct (is_index_suffix (String c s)) eqn:Ei; [| discriminate ].
      intros [= <-]. split; [ reflexivity |].
      now apply index_suffix_sound.
Qed.

Lemma arr_match_complete (name ds nl : string) :
  name <> "" -> no_newline name = true ->
  ds <> "" -> Str.all Str.is_digit ds = true -> line_end nl ->
  arr_match (name ++ String "_" (ds ++ nl)) = Some name.
Proof.
  intros Hn Hnn Hne Hall Hnl. destruct name as [| c p]; [ congruence |].
  unfold no_newline in Hnn. cbn [Str.all] in Hnn.
  apply andb_prop in Hnn. destruct Hnn as [Hc Hp].
  apply negb_true_iff in Hc.
  cbn [String.append arr_match]. rewrite Hc.
  now rewrite (arr_prefix_complete p ds nl Hp Hne Hall Hnl).
Qed.

Lemma arr_match_sound (key name : string) :
  arr_match key = Some name ->
  name <> "" /\ no_newline name = true
  /\ exists ds nl,
       key = (name ++ String "_" (ds ++ nl))%string /\ ds <> ""
       /\ Str.all Str.is_digit ds = true /\ line_end nl.
Proof.
  destruct key as [| c s]; cbn [arr_match]; [ discriminate |].
  destruct (Ascii.eqb c Str.newline) eqn:Ec; [ discriminate |].
  destruct (arr_prefix s) as [p |] eqn:Ep; [| discriminate ].
  intros [= <-]. destruct (arr_prefix_sound s p Ep) as (Hp & ds & nl & Hs & Hr).
  split; [ discriminate |]. split.
  - unfold no_newline in *. cbn [Str.all]. now rewrite Ec, Hp.
  - exists ds, nl. split; [ cbn; now rewrite <- Hs | exact Hr ].
Qed.

Lemma get_path_nondict (v : value) (k : string) (rest : list string) :
  match v with VDict _ => False | _ => True end ->
  get_path v (k :: rest) = Raise TypeError.
Proof. destruct v; simpl; tauto. Qed.

Lemma set_path_cons (doc : dict) (k k2 : string) (rest : list string) (v : value) :
  set_path doc (k :: k2 :: rest) v =
  dict_set doc k
    (VDict (set_path (match dict_get doc k with
                      | Some (VDict d) => d
                      | _ => []
                      end) (k2 :: rest) v)).
Proof. reflexivity. Qed.

Lemma snoc_cons (parents : list string) (seg : string) :
  exists k rest, parents ++ [seg] = k :: rest.
Proof. destruct parents as [| p ps]; simpl; eauto. Qed.

Lemma array_at_cons (doc : dict) (p : string) (ps : list string) (name : string) :
  array_at doc (p :: ps) name =
  array_at (match dict_get doc p with
            | Some (VDict d) => d
            | _ => []
            end) ps name.
Proof.
  unfold array_at. cbn [app]. rewrite get_path_cons.
  destruct (snoc_cons ps name) as (k & rest & E). rewrite E.
  destruct (dict_get doc p) as [[ | | | | | | d ] |]; try reflexivity.
Qed.

Lemma set_path_array (parents : list string) :
  forall (doc : dict) (seg name : string) (v : value),
    arr_match seg = Some name ->
    get_path (VDict (set_path doc (parents ++ [seg]) v)) (parents ++ [name]) =
    Ok (VList (array_at doc parents name ++ [v])).
Proof.
  induction parents as [| p ps IH]; intros doc seg name v Hm.
  - cbn [app set_path]. unfold set_last, array_at. rewrite Hm.
    cbn [app]. rewrite !get_path_cons, dict_get_set_same. cbn [get_path].
    destruct (dict_get doc name) as [[ | | | | | | d ] |]; reflexivity.
  - rewrite array_at_cons. cbn [app].
    destruct (snoc_cons ps seg) as (k & rest & E). rewrite E.
    rewrite set_path_cons, <- E, get_path_cons, dict_get_set_same.
    now apply IH.
Qed.

Lemma set_path_field (parents : list string) :
  forall (doc : dict) (seg : string) (v : value),
    arr_match seg = None ->
    get_path (VDict (set_path doc (parents ++ [seg]) v)) (parents ++ [seg]) =
    Ok v.
Proof.
  induction parents as [| p ps IH]; intros doc seg v Hm.
  - cbn [app set_path]. unfold set_last. rewrite Hm.
    rewrite get_path_cons, dict_get_set_same. reflexivity.
  - cbn [app]. destruct (snoc_cons ps seg) as (k & rest & E).
    rewrite E at 1. rewrite set_path_cons, <- E.
    rewrite get_path_cons, dict_get_set_same. now apply IH.
Qed.

Lemma split_go_nonempty (sep : string) (s : string) :
  forall skip acc, Str.split_go sep skip acc s <> [].
Proof.
  induction s as [| c s IH]; intros skip acc; cbn [Str.split_go];
    [ discriminate |].
  destruct skip; [| apply IH ].
  destruct (String.prefix sep (String c s)); [ discriminate | apply IH ].
Qed.

(** C8, as the code has it.  An entry that reaches the generic path (its
    key is outside the alternative-energies namespace, its normalized value
    is neither [None] nor [""]) is written at its path.  When the last
    segment is a non-empty name without a line break, an underscore and
    one or more digits (a final line break may follow), the value goes to
    the end of the array held under that name at the parent path, the array
    starting empty when nothing or something else is there.  A last segment
    of any other form names the field the value is stored in.  The three
    entries [a__b=1], [a__c_0=x], [a__c_1=y] give [{a: {b: 1, c: [x, y]}}]. *)
Theorem process_other_array_suffix (doc : dict) (alt : list string)
    (flat_key : string) (raw v : value) :
  normalize_value raw = Ok v ->
  Str.startswith flat_key alt_energy_prefix = false ->
  is_empty_or_none v = false ->
  (let keys := Str.split "__" flat_key in
   let parents := removelast keys in
   let seg := last keys "" in
   exists doc',
     other_body (doc, alt) (flat_key, raw) = Ok (doc', alt)
     /\ (forall name,
            arr_match seg = Some name ->
            get_path (VDict doc') (parents ++ [name]) =
            Ok (VList (array_at doc parents name ++ [v])))
     /\ (arr_match seg = None ->
         get_path (VDict doc') (parents ++ [seg]) = Ok v))
  /\ (forall name ds nl,
         name <> "" -> no_newline name = true ->
         ds <> "" -> Str.all Str.is_digit ds = true -> line_end nl ->
         arr_match (name ++ String "_" (ds ++ nl)) = Some name)
  /\ (forall seg name,
         arr_match seg = Some name ->
         name <> "" /\ no_newline name = true
         /\ exists ds nl,
              seg = (name ++ String "_" (ds ++ nl))%string /\ ds <> ""
              /\ Str.all Str.is_digit ds = true /\ line_end nl)
  /\ process_other other_example =
     Ok [("a", VDict [("b", VInt 1); ("c", VList [VStr "x"; VStr "y"])])].
Proof.
  intros Hn Hp He. split; [| split; [| split ] ].
  - cbv zeta. set (keys := Str.split "__" flat_key).
    assert (Hk : keys = removelast keys ++ [last keys ""]).
    { apply app_removelast_last. apply split_go_nonempty. }
    exists (set_path doc keys v). split; [| split ].
    + unfold other_body. rewrite Hn. cbn [bind]. rewrite Hp, He. reflexivity.
    + intros name Hm. rewrite Hk at 1. now apply set_path_array.
    + intros Hm. rewrite Hk at 1. now apply set_path_field.
  - apply arr_match_complete.
  - apply arr_match_sound.
  - vm_compute. reflexivity.
Qed.

Lemma process_other_array_suffix_witness :
  exists doc',
    other_body ([("a", VDict [("c", VList [VStr "x"])])], [])
      ("a__c_1", VStr "y") = Ok (doc', [])
    /\ get_path (VDict doc') ["a"; "c"] = Ok (VList [VStr "x"; VStr "y"]).
Proof.
  destruct (process_other_array_suffix
              [("a", VDict [("c", VList [VStr "x"])])] [] "a__c_1"
              (VStr "y") (VStr "y") eq_refl eq_refl eq_refl)
    as ((doc' & Hb & Ha & _) & _).
  exists doc'. split; [ exact Hb |]. exact (Ha "c" eq_refl).
Defined.

(** The segment [_0] is an underscore followed by a digit, yet the value
    is stored in the field [_0] and no array appears under the empty name;
    the segment [c_0] followed by a line break does not end in a digit, yet
    the value is appended to the array [c]. *)
Lemma process_other_suffix_without_name :
  "_0" = ("" ++ String "_" "0")%string
  /\ Str.all Str.is_digit "0" = true
  /\ process_other [("_0", VInt 1)] = Ok [("_0", VInt 1)]
  /\ process_other [("_0", VInt 1)] <> Ok [("", VList [VInt 1])]
  /\ process_other [(String "c" (String "_" (String "0" (String Str.newline ""))),
                     VInt 1)] = Ok [("c", VList [VInt 1])].
Proof.
  repeat split; try reflexivity. vm_compute. discriminate.
Qed.

(** ** Running the engine on concrete input *)

Example process_boundary_example :
  @process_boundary plain_repr boundary_example =
  Ok [VDict [("typeOfStructure", VStr "T1");
             ("energeticQualities",
              VList [quality_entry (VStr "good") (VFloat float_1_5) (VInt 2);
                     quality_entry (VStr "excellent") (VInt 5) (VInt 6)])]].
Proof. vm_compute. reflexivity. Qed.

Lemma partial_window_discarded_witness :
  @process_boundary plain_repr (boundary_example ++ firstn 3 boundary_example)
  = @process_boundary plain_repr boundary_example
  /\ @process_boundary plain_repr (firstn 3 boundary_example) = Ok []
  /\ process_mpd (mpd_example ++ firstn 7 mpd_example) = process_mpd mpd_example
  /\ process_mpd (firstn 7 mpd_example) = Ok [].
Proof.
  apply (@partial_window_discarded plain_repr
           boundary_example (firstn 3 boundary_example)
           mpd_example (firstn 7 mpd_example)).
  - reflexivity.
  - simpl. lia.
  - reflexivity.
  - simpl. lia.
Defined.

Lemma minimal_materialize :
  @materialize plain_repr minimal_input = Ok minimal_doc.
Proof. vm_compute. reflexivity. Qed.

Lemma transform_json_date_witness :
  exists out,
    @transform_json plain_repr minimal_input pdf_example images_example = Ok out
    /\ get_path (VDict out) date_path = Ok (VStr "25.01.02.").
Proof.
  destruct (@transform_json_date plain_repr minimal_input pdf_example
              images_example minimal_doc minimal_materialize)
    as (_ & _ & Hdate & _).
  eapply Hdate; vm_compute; reflexivity.
Defined.

Lemma transform_json_attachments_witness :
  exists out,
    @transform_json plain_repr minimal_input pdf_example images_example = Ok out
    /\ dict_get out "calculationsPdfFileContent" = Some (VStr "AQID")
    /\ dict_get out "photos" =
       Some (VList [VDict [("category", VStr "facade"); ("note", VStr "front");
                           ("content", VStr "TWFu")];
                    VDict [("category", VStr "roof"); ("note", VStr "");
                           ("content", VStr "TQ==")]]).
Proof.
  eexists. split; [ vm_compute; reflexivity |].
  apply (@transform_json_attachments plain_repr minimal_input pdf_example
           images_example).
  vm_compute. reflexivity.
Defined.

(** * Further properties of the engine *)

(** ** Where the value normalizer can fail *)

Lemma int_literal_shape (s : string) :
  is_int_literal s = true ->
  exists (neg : bool) (ds : string),
    s = (if neg then String "-" ds else ds)
    /\ ds <> "" /\ Str.all Str.is_digit ds = true.
Proof.
  unfold is_int_literal. destruct s as [| a s']; [ discriminate |].
  ascii_cases a; cbv beta iota; intros Hl;
    first [ exists false; eexists; split; [ reflexivity |];
            split; [ discriminate | exact Hl ]
          | exists true, s'; split; [ reflexivity |];
            destruct s'; [ discriminate | split; [ discriminate | exact Hl ] ] ].
Qed.

Lemma digits_val_acc_bound (s : string) :
  Str.all Str.is_digit s = true ->
  forall acc, 0 <= acc ->
    Str.digits_val_acc acc s < (acc + 1) * 10 ^ Z.of_nat (String.length s).
Proof.
  induction s as [| c s IH]; cbn [Str.all Str.digits_val_acc String.length];
    intros Hall acc Hacc.
  - change (10 ^ Z.of_nat 0) with 1. lia.
  - apply andb_prop in Hall. destruct Hall as [Hc Hs].
    pose proof (digit_val_range c Hc) as Hd.
    specialize (IH Hs (10 * acc + Str.digit_val c) ltac:(lia)).
    rewrite Nat2Z.inj_succ, Z.pow_succ_r by lia.
    assert (Hp : 0 < 10 ^ Z.of_nat (String.length s))
      by (apply Z.pow_pos_nonneg; lia).
    nia.
Qed.

Lemma round_ratio_finite (neg : bool) (n : Z) :
  0 <= n <= max_double ->
  exists z, Float.to_int (Float.round_ratio neg n 1) = Ok z.
Proof.
  intros Hn.
  destruct (Z.le_gt_cases n (2 ^ 53)) as [Hsmall | Hbig].
  { rewrite round_ratio_integer by lia. eexists. reflexivity. }
  assert (Hpos : 0 < n) by lia.
  destruct (Z.log2_spec n Hpos) as [Hlo Hhi].
  assert (HL53 : 53 <= Z.log2 n) by (apply Z.log2_le_pow2; lia).
  assert (HL : Z.log2 n <= 1023).
  { assert (Z.log2 n < 1024); [| lia ]. apply Z.log2_lt_pow2; [ lia |].
    assert (max_double < 2 ^ 1024) by (vm_compute; reflexivity). lia. }
  unfold Float.round_ratio.
  destruct (Z.eqb_spec n 0); [ lia |].
  change (Z.log2 1) with 0. rewrite Z.sub_0_r.
  set (L := Z.log2 n) in *.
  rewrite (Z.max_r 0 L), (Z.max_l 0 (- L)) by lia.
  rewrite Z.mul_1_l, Z.pow_0_r, Z.mul_1_r.
  destruct (Z.leb_spec (2 ^ L) n); [| lia ].
  rewrite (Z.max_l (L - 52) (-1074)) by lia.
  rewrite (Z.max_l 0 (- (L - 52))), (Z.max_r 0 (L - 52)) by lia.
  rewrite Z.pow_0_r, Z.mul_1_l, Z.mul_1_r.
  set (b := 2 ^ (L - 52)).
  assert (Hb : 0 < b) by (apply Z.pow_pos_nonneg; lia).
  assert (HbL : 2 ^ L = 2 ^ 52 * b).
  { unfold b. rewrite <- Z.pow_add_r by lia. f_equal. lia. }
  assert (HbL1 : 2 ^ Z.succ L = 2 ^ 53 * b).
  { unfold b. rewrite <- Z.pow_add_r by lia. f_equal. lia. }
  pose proof (Z.div_mod n b ltac:(lia)) as Hdm.
  pose proof (Z.mod_pos_bound n b Hb) as Hr.
  set (q := n / b) in *. set (r := n mod b) in *.
  assert (Hq : 2 ^ 52 <= q < 2 ^ 53) by nia.
  set (m := if 2 * r <? b then q
            else if b <? 2 * r then q + 1
            else if Z.even q then q else q + 1).
  assert (Hm : q <= m <= q + 1 /\ (r = 0 -> m = q)).
  { unfold m. destruct (Z.ltb_spec (2 * r) b); [ lia |].
    destruct (Z.ltb_spec b (2 * r)); [ lia |].
    destruct (Z.even q); lia. }
  destruct Hm as [Hm1 Hm0].
  destruct (Z.eqb_spec m (2 ^ 53)) as [Em | Em].
  - change (2 ^ 52 =? 0) with false. cbv iota.
    assert (HL22 : L <= 1022).
    { destruct (Z.eq_dec L 1023) as [E1023 | ]; [| lia ]. exfalso.
      assert (Hbv : b = 2 ^ 971) by (unfold b; rewrite E1023; reflexivity).
      unfold max_double in Hn. rewrite <- Hbv in Hn.
      assert (q = 2 ^ 53 - 1) by lia. assert (r = 0) by nia.
      specialize (Hm0 ltac:(assumption)). lia. }
    destruct (Z.ltb_spec 971 (L - 52 + 1)); [ lia |].
    eexists. reflexivity.
  - destruct (Z.eqb_spec m 0); [ lia |].
    destruct (Z.ltb_spec 971 (L - 52)); [ lia |].
    eexists. reflexivity.
Qed.

Lemma ten_pow_308 : 10 ^ 308 <= max_double.
Proof. vm_compute. discriminate. Qed.

Lemma digits_to_int_ok (neg : bool) (ds : string) :
  Str.all Str.is_digit ds = true -> (String.length ds <= 308)%nat ->
  exists z, Float.to_int (Float.of_decimal neg (Str.digits_val ds) 0) = Ok z.
Proof.
  intros Hall Hlen.
  assert (Hnn : 0 <= Str.digits_val ds)
    by (apply digits_val_acc_nonneg; [ exact Hall | lia ]).
  pose proof (digits_val_acc_bound ds Hall 0 ltac:(lia)) as Hb.
  fold (Str.digits_val ds) in Hb.
  assert (Hp : 10 ^ Z.of_nat (String.length ds) <= 10 ^ 308)
    by (apply Z.pow_le_mono_r; lia).
  pose proof ten_pow_308.
  unfold Float.of_decimal. cbn [Z.leb Z.compare].
  rewrite Z.pow_0_r, Z.mul_1_r. apply round_ratio_finite. lia.
Qed.

Lemma normalize_value_raise_inv (v : value) (e : exn) :
  normalize_value v = Raise e ->
  e = OverflowError
  /\ exists r, v = VStr r
               /\ is_int_literal (Str.strip r) = true
               /\ (308 < String.length (Str.strip r))%nat.
Proof.
  intros Hr. revert Hr. destruct v; cbn [normalize_value]; try discriminate.
  destruct (String.eqb s "TRUE"); [ discriminate |].
  destruct (String.eqb s "FALSE"); [ discriminate |].
  destruct (String.eqb s "null"); [ discriminate |].
  destruct (Str.strip s) as [| c t] eqn:Es; [ discriminate |].
  destruct (Float.of_string (String c t)) as [num |] eqn:Ef; [| discriminate ].
  destruct (is_int_literal (String c t)) eqn:El; [| discriminate ].
  destruct (int_literal_shape _ El) as (neg & ds & Hshape & Hne & Hall).
  assert (Hnum : num = Float.of_decimal neg (Str.digits_val ds) 0).
  { destruct neg; rewrite Hshape in Ef.
    - rewrite (of_string_signed "-" ds (or_introl eq_refl) Hne Hall) in Ef.
      now injection Ef as <-.
    - rewrite (of_string_digits ds Hne Hall) in Ef. now injection Ef as <-. }
  destruct (Float.to_int num) as [z | e0] eqn:Et; [ discriminate |].
  assert (Hlong : (308 < String.length ds)%nat).
  { destruct (Nat.le_gt_cases (String.length ds) 308) as [Hshort |];
      [| assumption ].
    destruct (digits_to_int_ok neg ds Hall Hshort) as [z Hz].
    rewrite <- Hnum in Hz. congruence. }
  assert (He0 : e0 = OverflowError).
  { subst num. revert Et. unfold Float.to_int.
    destruct (Float.of_decimal neg (Str.digits_val ds) 0) eqn:Ed;
      try discriminate; [ now intros [= <-] |].
    exfalso. revert Ed. unfold Float.of_decimal. cbn [Z.leb Z.compare].
    unfold Float.round_ratio.
    destruct (_ =? 0); [ discriminate |].
    destruct (if _ =? 2 ^ 53 then _ else _) as [m e1].
    destruct (m =? 0); [ discriminate |].
    destruct (971 <? e1); discriminate. }
  subst e0. intros [= <-]. split; [ reflexivity |].
  exists s. split; [ reflexivity |]. rewrite Es. split; [ exact El |].
  rewrite Hshape. destruct neg; cbn [String.length]; lia.
Qed.

(** X1. [normalize_value] returns its input as it is, or a bool, [None],
    an int or a float in its place; a value that is not a string is always
    returned as it is.  It raises nothing but [OverflowError], and only for
    a string whose trimmed form is an integer literal [-?\d+] of more than
    308 characters. *)
Theorem normalize_value_outcomes (v : value) :
  (forall w, normalize_value v = Ok w -> w = v \/ is_scalar w = true)
  /\ (forall w, normalize_value v = Ok w ->
                (forall r, v <> VStr r) -> w = v)
  /\ (forall e, normalize_value v = Raise e ->
                e = OverflowError
                /\ exists r, v = VStr r
                             /\ is_int_literal (Str.strip r) = true
                             /\ (308 < String.length (Str.strip r))%nat).
Proof.
  split; [| split ].
  - intros w. destruct v; cbn [normalize_value]; try (intros [= <-]; now left).
    destruct (String.eqb s "TRUE"); [ intros [= <-]; now right |].
    destruct (String.eqb s "FALSE"); [ intros [= <-]; now right |].
    destruct (String.eqb s "null"); [ intros [= <-]; now right |].
    destruct (Str.strip s); [ intros [= <-]; now left |].
    destruct (Float.of_string _); [| intros [= <-]; now left ].
    destruct (is_int_literal _); [| intros [= <-]; now right ].
    destruct (Float.to_int _) as [z | []]; intros [= <-]; auto.
  - intros w Hw Hs. destruct v; cbn [normalize_value] in Hw;
      try (now injection Hw as <-). now destruct (Hs s).
  - intros e. apply normalize_value_raise_inv.
Qed.

(** ** The stride-10 reconstructor, window by window *)

Lemma map_result_length {A B : Type} (f : A -> result B) (l : list A)
    (out : list B) :
  map_result f l = Ok out -> List.length out = List.length l.
Proof.
  revert out. induction l as [| x l IH]; intros out; cbn [map_result].
  - now intros [= <-].
  - destruct (f x) as [y |]; cbn [bind]; [| discriminate ].
    destruct (map_result f l) as [ys |]; cbn [bind]; [| discriminate ].
    intros [= <-]. cbn [List.length]. now rewrite (IH ys eq_refl).
Qed.

Lemma windows_fuel_length {A : Type} (n : nat) (fuel : nat) :
  (0 < n)%nat ->
  forall l : list A, (List.length l <= fuel)%nat ->
    List.length (windows_fuel fuel n l) = (List.length l / n)%nat.
Proof.
  intros Hn. induction fuel as [| f IH]; intros l Hl.
  - destruct l; [| cbn in Hl; lia ]. cbn. now rewrite Nat.div_small by lia.
  - cbn [windows_fuel]. destruct (Nat.leb_spec n (List.length l)) as [Hge | Hlt].
    + cbn [List.length]. rewrite IH by (rewrite length_skipn; lia).
      rewrite length_skipn.
      replace (List.length l) with (1 * n + (List.length l - n))%nat at 2 by lia.
      rewrite Nat.div_add_l by lia. lia.
    + cbn. now rewrite Nat.div_small by lia.
Qed.

Lemma windows_length {A : Type} (n : nat) (l : list A) :
  (0 < n)%nat -> List.length (windows n l) = (List.length l / n)%nat.
Proof. intros Hn. apply windows_fuel_length; [ exact Hn | lia ]. Qed.

Lemma mpd_group_full (proposals : list value) (group : list entry) :
  List.length group = 10%nat ->
  mpd_group proposals group =
  (w <- normalized group ;;
   Ok (proposals ++ if has_structure_type w then [proposal_of w] else [])).
Proof.
  intros Hlen.
  destruct group as [| g0 [| g1 [| g2 [| g3 [| g4 [| g5 [| g6 [| g7 [| g8
    [| g9 [| g10 rest]]]]]]]]]]]; try discriminate.
  unfold mpd_group, normalized. cbn [map_result].
  destruct (normalize_value (snd g0)) as [v0 |]; cbn [bind]; [| reflexivity ].
  destruct (normalize_value (snd g1)) as [v1 |]; cbn [bind]; [| reflexivity ].
  destruct (normalize_value (snd g2)) as [v2 |]; cbn [bind]; [| reflexivity ].
  destruct (normalize_value (snd g3)) as [v3 |]; cbn [bind]; [| reflexivity ].
  destruct (normalize_value (snd g4)) as [v4 |]; cbn [bind]; [| reflexivity ].
  destruct (normalize_value (snd g5)) as [v5 |]; cbn [bind]; [| reflexivity ].
  destruct (normalize_value (snd g6)) as [v6 |]; cbn [bind]; [| reflexivity ].
  destruct (normalize_value (snd g7)) as [v7 |]; cbn [bind]; [| reflexivity ].
  destruct (normalize_value (snd g8)) as [v8 |]; cbn [bind]; [| reflexivity ].
  destruct (normalize_value (snd g9)) as [v9 |]; cbn [bind]; [| reflexivity ].
  unfold has_structure_type, proposal_of. cbn [nth].
  rewrite is_blank_blank.
  destruct (blank v0); cbn [negb]; [ now rewrite app_nil_r | reflexivity ].
Qed.

Lemma mpd_loop (ws : list (list entry)) :
  Forall (fun w => List.length w = 10%nat) ws ->
  forall proposals,
    for_each mpd_group ws proposals =
    (nws <- map_result normalized ws ;;
     Ok (proposals ++ List.map proposal_of (filter has_structure_type nws))).
Proof.
  induction 1 as [| w ws Hw _ IH]; intros proposals; cbn [for_each map_result].
  - cbn. now rewrite app_nil_r.
  - rewrite mpd_group_full by exact Hw.
    destruct (normalized w) as [nw |]; cbn [bind]; [| reflexivity ].
    rewrite IH. destruct (map_result normalized ws); cbn [bind]; [| reflexivity ].
    cbn [filter]. destruct (has_structure_type nw); cbn [List.map];
      now rewrite <- app_assoc.
Qed.

(** X2. [process_mpd] normalizes the full windows of ten entries and gives
    one proposal per window whose structure type is neither [None] nor
    blank (a string of white space only), in window order and without
    merging; a failing normalization is the only way to fail.  A proposal
    holds the first six values of its window under their names and the
    [good] and [excellent] qualities with the last four.  There are never
    more proposals than full windows. *)
Theorem process_mpd_window_by_window (entries : list entry) :
  process_mpd entries =
  (ws <- map_result normalized (windows 10 entries) ;;
   Ok (List.map proposal_of (filter has_structure_type ws)))
  /\ (forall w,
         has_structure_type w = false
         <-> nth 0 w VNone = VNone
             \/ exists s, nth 0 w VNone = VStr s
                          /\ Str.all Str.is_space s = true)
  /\ (forall v0 v1 v2 v3 v4 v5 v6 v7 v8 v9,
         proposal_of [v0; v1; v2; v3; v4; v5; v6; v7; v8; v9]
         = VDict [("structureType", v0); ("structureNote", v1);
                  ("structureSurfaceArea", v2); ("airTightness", v3);
                  ("note", v4); ("currentStateValue", v5);
                  ("proposalEnergeticQualities",
                   VList [VDict [("quality", VStr "good"); ("u", v6);
                                 ("dimension", v7)];
                          VDict [("quality", VStr "excellent"); ("u", v8);
                                 ("dimension", v9)]])])
  /\ (forall out, process_mpd entries = Ok out ->
                  (List.length out <= List.length entries / 10)%nat).
Proof.
  assert (Heq : process_mpd entries =
                (ws <- map_result normalized (windows 10 entries) ;;
                 Ok (List.map proposal_of (filter has_structure_type ws)))).
  { unfold process_mpd.
    rewrite stride_loop_full
      by (try lia; intros; now apply mpd_group_partial).
    destruct (windows_spec 10 ltac:(lia) entries) as (_ & _ & _ & Hall).
    now rewrite mpd_loop by exact Hall. }
  split; [ exact Heq |].
  split.
  { intros w. unfold has_structure_type, blank. rewrite negb_false_iff.
    split.
    - destruct (nth 0 w VNone) as [| b | z | f | s | l | dd]; try discriminate;
        [ now left | intros Hs; right; now exists s ].
    - intros [-> | (s & -> & Hs)]; [ reflexivity | exact Hs ]. }
  split; [ reflexivity |].
  intros out. rewrite Heq.
  destruct (map_result normalized (windows 10 entries)) as [ws |] eqn:Ews;
    cbn [bind]; [| discriminate ].
  intros [= <-]. rewrite length_map.
  apply map_result_length in Ews.
  rewrite <- (windows_length 10 entries) by lia. rewrite <- Ews.
  apply filter_length_le.
Qed.

(** ** What the stride-4 records hold *)

Lemma upsert_total (g : list (string * list value)) (k : string) (q : value) :
  total_length (upsert g k q) = S (total_length g).
Proof.
  induction g as [| [k' qs] g IH]; cbn [upsert total_length]; [ reflexivity |].
  destruct (String.eqb k' k); cbn [total_length].
  - rewrite length_app. cbn. lia.
  - rewrite IH. lia.
Qed.

Lemma upsert_nonempty (g : list (string * list value)) (k : string) (q : value) :
  Forall (fun p => snd p <> []) g ->
  Forall (fun p => snd p <> []) (upsert g k q).
Proof.
  induction 1 as [| [k' qs] g Hp Hg IH]; cbn [upsert].
  - constructor; [ discriminate | constructor ].
  - destruct (String.eqb k' k); constructor; auto.
    cbn. destruct qs; discriminate.
Qed.

Lemma group_by_key_facts (kq : list (string * value)) :
  total_length (group_by_key kq) = List.length kq
  /\ Forall (fun p => snd p <> []) (group_by_key kq).
Proof.
  rewrite <- (app_nil_l kq).
  change (@nil (string * value)) with (@nil (string * value)) at 1.
  rewrite <- (fold_upsert kq []).
  change (group_by_key []) with (@nil (string * list value)).
  assert (Hgen : forall g,
             Forall (fun p : string * list value => snd p <> []) g ->
             total_length (fold_left (fun g p => upsert g (fst p) (snd p)) kq g)
             = (total_length g + List.length kq)%nat
             /\ Forall (fun p : string * list value => snd p <> [])
                  (fold_left (fun g p => upsert g (fst p) (snd p)) kq g)).
  { induction kq as [| [k q] kq IH]; intros g Hg; cbn [fold_left List.length].
    - split; [ lia | exact Hg ].
    - destruct (IH (upsert g k q) (upsert_nonempty g k q Hg)) as [H1 H2].
      split; [| exact H2 ]. cbn [fst snd]. rewrite H1, upsert_total. lia. }
  destruct (Hgen [] (Forall_nil _)) as [H1 H2]. split; [ exact H1 | exact H2 ].
Qed.

Lemma upsert_entries (g : list (string * list value)) (k : string) (q : value) :
  Permutation (List.concat (List.map snd (upsert g k q)))
    (q :: List.concat (List.map snd g)).
Proof.
  induction g as [| [k' qs] g IH]; cbn [upsert List.map snd List.concat].
  - apply Permutation_refl.
  - destruct (String.eqb k' k); cbn [List.map snd List.concat].
    + rewrite <- app_assoc. cbn [app].
      apply Permutation_sym, Permutation_middle.
    + eapply Permutation_trans;
        [ apply Permutation_app_head; exact IH
        | apply Permutation_sym, Permutation_middle ].
Qed.

Lemma fold_upsert_entries (kq : list (string * value)) :
  forall g,
    Permutation
      (List.concat
         (List.map snd (fold_left (fun g p => upsert g (fst p) (snd p)) kq g)))
      (List.concat (List.map snd g) ++ List.map snd kq).
Proof.
  induction kq as [| [k q] kq IH]; intros g; cbn [fold_left List.map fst snd].
  - rewrite app_nil_r. apply Permutation_refl.
  - eapply Permutation_trans; [ apply IH |].
    eapply Permutation_trans;
      [ apply Permutation_app_tail; apply upsert_entries |].
    cbn [app]. apply Permutation_middle.
Qed.

Lemma group_by_key_entries (kq : list (string * value)) :
  Permutation (List.concat (List.map snd (group_by_key kq))) (List.map snd kq).
Proof.
  pose proof (fold_upsert kq []) as Hf. cbn [app] in Hf. rewrite <- Hf.
  apply (fold_upsert_entries kq (group_by_key [])).
Qed.

Section BoundaryRecords.

Context `{Repr}.

Lemma grouped_as_groups (ws : list (list value)) :
  grouped ws =
  List.map (fun p => structure_record (fst p) (snd p))
    (group_by_key
       (List.map (fun w => (type_key w, quality_of w)) (filter kept ws))).
Proof.
  unfold grouped, group_by_key. cbv zeta. rewrite !map_map. reflexivity.
Qed.

(** X3. Whenever [process_boundary] returns, every record it returns is a
    [{typeOfStructure, energeticQualities}] pair whose type is a string and
    whose list of qualities is not empty, and the quality entries of the
    records, taken together, are the [{quality, U, dimension}] entries of
    the full windows with a non-blank quality, each as often as it occurs
    there: no such window is lost and none is counted twice.  There are
    never more records than full windows. *)
Theorem process_boundary_records (entries : list entry) (out : list value) :
  process_boundary entries = Ok out ->
  Forall (fun r => exists k q qs, r = structure_record k (q :: qs)) out
  /\ (exists ws,
         map_result normalized (windows 4 entries) = Ok ws
         /\ Permutation (List.concat (List.map qualities_in out))
              (List.map quality_of (filter kept ws)))
  /\ (List.length out <= List.length entries / 4)%nat.
Proof.
  rewrite process_boundary_grouped.
  destruct (map_result normalized (windows 4 entries)) as [ws |] eqn:Ews;
    cbn [bind]; [| discriminate ].
  intros [= <-]. rewrite grouped_as_groups.
  set (kq := List.map (fun w => (type_key w, quality_of w)) (filter kept ws)).
  destruct (group_by_key_facts kq) as [Htot Hne].
  assert (Hkq : List.length kq = List.length (filter kept ws))
    by (unfold kq; apply length_map).
  assert (Hlen : (List.length (group_by_key kq) <= total_length (group_by_key kq))%nat).
  { clear Htot. induction Hne as [| [k qs] g Hp Hg IH]; cbn [List.length total_length];
      [ lia |]. cbn in Hp. destruct qs; [ congruence |]. cbn [List.length]. lia. }
  split; [| split ].
  - clear Htot Hlen. induction Hne as [| [k qs] g Hp Hg IH]; cbn [List.map];
      constructor; auto.
    cbn in Hp. destruct qs as [| q qs]; [ congruence |].
    exists k, q, qs. reflexivity.
  - exists ws. split; [ reflexivity |].
    assert (Hq : List.map snd kq = List.map quality_of (filter kept ws))
      by (unfold kq; rewrite map_map; reflexivity).
    rewrite <- Hq.
    assert (Hc : List.concat
                   (List.map qualities_in
                      (List.map (fun p => structure_record (fst p) (snd p))
                         (group_by_key kq)))
                 = List.concat (List.map snd (group_by_key kq))).
    { rewrite map_map. f_equal. }
    rewrite Hc. apply group_by_key_entries.
  - rewrite length_map.
    apply map_result_length in Ews.
    rewrite (windows_length 4 entries) in Ews by lia.
    pose proof (filter_length_le kept ws). lia.
Qed.

End BoundaryRecords.

(** ** The nested-group builder, entry by entry *)

Lemma mps_body_by_kind (st : mps_state) (flat_key : string) (raw : value) :
  mps_body st (flat_key, raw) =
  (value <- normalize_value raw ;;
   match mps_kind_of flat_key with
   | None => Raise ValueError
   | Some KSystem =>
       st <- finalize_system st ;;
       Ok {| systems := systems st;
             current_system := Some [("buildingServiceSystemType", value)];
             current_actual := None; recommended_by_cat := None;
             current_recommended := None; current_element := None |}
   | Some KNote =>
       Ok {| systems := systems st;
             current_system :=
               Some (dict_set (match current_system st with
                               | None => []
                               | Some sys => sys
                               end) "note" value);
             current_actual := current_actual st;
             recommended_by_cat := recommended_by_cat st;
             current_recommended := current_recommended st;
             current_element := current_element st |}
   | Some (KActual field) =>
       Ok {| systems := systems st; current_system := current_system st;
             current_actual :=
               Some (dict_set (match current_actual st with
                               | None => []
                               | Some a => a
                               end) field value);
             recommended_by_cat := recommended_by_cat st;
             current_recommended := current_recommended st;
             current_element := current_element st |}
   | Some KCategory =>
       st <- finalize_element st ;; get_or_create_recommended value st
   | Some KName =>
       st <- finalize_element st ;;
       Ok {| systems := systems st; current_system := current_system st;
             current_actual := current_actual st;
             recommended_by_cat := recommended_by_cat st;
             current_recommended := current_recommended st;
             current_element := Some [("name", value)] |}
   | Some KDescription => Ok (set_element_field "description" value st)
   | Some KExcellent => Ok (set_element_field "isExcellentLevel" value st)
   | Some KIgnored => Ok st
   end).
Proof.
  unfold mps_body, mps_kind_of.
  destruct (normalize_value raw) as [v |]; cbn [bind]; [| reflexivity ].
  destruct (Str.split_once mps_prefix flat_key) as [[_x suffix] |];
    [| reflexivity ].
  cbv zeta. set (parts := Str.split "__" _).
  destruct (String.eqb (nth 0 parts "") "buildingServiceSystemType");
    [ reflexivity |].
  destruct (String.eqb (nth 0 parts "") "note" && Nat.eqb (List.length parts) 1);
    [ reflexivity |].
  destruct (String.eqb (nth 0 parts "") "actualEnergeticQuality"
            && Nat.eqb (List.length parts) 2); [ reflexivity |].
  destruct (String.eqb (nth 0 parts "") "recommendedModernisations");
    [| reflexivity ].
  destruct (Nat.eqb (List.length parts) 2
            && String.eqb (nth 1 parts "") "modernisationCategory");
    [ reflexivity |].
  destruct (Nat.eqb (List.length parts) 3
            && String.eqb (nth 1 parts "") "systemElements"); [| reflexivity ].
  destruct (String.eqb (nth 2 parts "") "name"); [ reflexivity |].
  destruct (String.eqb (nth 2 parts "") "description"); [ reflexivity |].
  destruct (String.eqb (nth 2 parts "") "isExcellentLevel"); reflexivity.
Qed.

Lemma split_once_prefix (sep s : string) :
  sep <> "" -> String.prefix sep s = true ->
  Str.split_once sep s = Some ("", Str.drop (String.length sep) s).
Proof.
  intros Hsep Hp. destruct s as [| c s'].
  - destruct sep; [ congruence | discriminate Hp ].
  - cbn [Str.split_once]. now rewrite Hp.
Qed.

Lemma mps_kind_of_prefixed (flat_key : string) :
  String.prefix mps_prefix flat_key = true ->
  exists k, mps_kind_of flat_key = Some k.
Proof.
  intros Hp. unfold mps_kind_of.
  rewrite (split_once_prefix mps_prefix flat_key ltac:(discriminate) Hp).
  eexists. reflexivity.
Qed.

Lemma get_or_create_outcome (v : value) (st : mps_state) :
  if hashable v
  then exists st', get_or_create_recommended v st = Ok st'
  else get_or_create_recommended v st = Raise TypeError.
Proof.
  unfold get_or_create_recommended.
  destruct v; cbn [hashable is_empty_or_none negb];
    try (destruct (find_key _ _ 0); eexists; reflexivity);
    try reflexivity.
  destruct (String.eqb s ""); cbn [hashable negb];
    destruct (find_key _ _ 0); eexists; reflexivity.
Qed.

(** What one entry does to a well-formed state: the first failure is the
    normalization, the second a category no dict can hold. *)
Lemma mps_body_outcome (st : mps_state) (e : entry) :
  mps_wf st -> String.prefix mps_prefix (fst e) = true ->
  match normalize_value (snd e) with
  | Raise x => mps_body st e = Raise x
  | Ok v =>
      match mps_kind_of (fst e), hashable v with
      | Some KCategory, false => mps_body st e = Raise TypeError
      | _, _ => exists st', mps_body st e = Ok st'
      end
  end.
Proof.
  intros Hwf Hp. destruct e as [flat_key raw]. cbn [fst snd] in *.
  rewrite mps_body_by_kind.
  destruct (normalize_value raw) as [v |]; cbn [bind]; [| reflexivity ].
  destruct (mps_kind_of_prefixed flat_key Hp) as [k Hk]. rewrite Hk.
  destruct (finalize_element_ok st Hwf) as (st1 & E1 & _).
  destruct (finalize_system_ok st Hwf) as (st2 & E2 & _).
  destruct k; try rewrite E1; try rewrite E2; cbn [bind];
    try (destruct (hashable v); eexists; reflexivity).
  pose proof (get_or_create_outcome v st1) as Hg.
  destruct (hashable v); [ exact Hg | exact Hg ].
Qed.

Lemma mps_entry_ok_iff (e : entry) :
  mps_entry_ok e <->
  match normalize_value (snd e) with
  | Raise _ => False
  | Ok v => match mps_kind_of (fst e), hashable v with
            | Some KCategory, false => False
            | _, _ => True
            end
  end.
Proof.
  unfold mps_entry_ok. split.
  - intros (v & Hv & Hh). rewrite Hv.
    destruct (mps_kind_of (fst e)) as [[] |]; try exact I.
    rewrite (Hh eq_refl). exact I.
  - destruct (normalize_value (snd e)) as [v |]; [| tauto ].
    intros Hm. exists v. split; [ reflexivity |]. intros Hk.
    rewrite Hk in Hm. destruct (hashable v); [ reflexivity | contradiction ].
Qed.

Lemma normalize_raises_overflow (v : value) (e : exn) :
  normalize_value v = Raise e -> e = OverflowError.
Proof.
  intros Hr. destruct (normalize_value_raise_inv v e Hr). assumption.
Qed.

Lemma mps_loop_outcome (entries : list entry) :
  Forall (fun e => String.prefix mps_prefix (fst e) = true) entries ->
  forall st, mps_wf st ->
    ((exists st', for_each mps_body entries st = Ok st'
                  /\ mps_wf st')
     <-> Forall mps_entry_ok entries)
    /\ (forall x, for_each mps_body entries st = Raise x ->
                  x = OverflowError \/ x = TypeError).
Proof.
  induction 1 as [| e es Hp _ IH]; intros st Hwf; cbn [for_each].
  - split; [| discriminate ]. split; [ constructor |].
    intros _. exists st. auto.
  - pose proof (mps_body_outcome st e Hwf Hp) as Ho.
    pose proof (mps_entry_ok_iff e) as Hok.
    destruct (normalize_value (snd e)) as [v | x0] eqn:En.
    2:{ rewrite Ho. cbn [bind]. split.
        - split; [ intros (st' & Hs & _); discriminate |].
          intros Hall. inversion Hall; subst. tauto.
        - intros x [= <-]. left. eapply normalize_raises_overflow; eauto. }
    destruct (mps_kind_of (fst e)) as [k |] eqn:Ek.
    2:{ destruct (mps_kind_of_prefixed _ Hp) as [k Hk]. congruence. }
    assert (Hcase : (k = KCategory /\ hashable v = false
                     /\ mps_body st e = Raise TypeError)
                    \/ (mps_entry_ok e /\ exists st', mps_body st e = Ok st')).
    { destruct k; try (right; split; [ apply Hok; exact I | exact Ho ]).
      destruct (hashable v) eqn:Eh.
      - right. split; [ apply Hok; exact I | exact Ho ].
      - left. auto. }
    destruct Hcase as [(-> & Eh & Hb) | (Hgood & st1 & Hb)].
    + rewrite Hb. cbn [bind]. split.
      * split; [ intros (st' & Hs & _); discriminate |].
        intros Hall. inversion Hall; subst.
        apply Hok in H1. rewrite Eh in H1. contradiction.
      * intros x [= <-]. now right.
    + rewrite Hb. cbn [bind].
      pose proof (mps_body_wf st st1 e Hwf Hb) as Hwf1.
      destruct (IH st1 Hwf1) as [IHiff IHerr]. split; [| exact IHerr ].
      rewrite IHiff. split.
      * intros Hall. constructor; assumption.
      * intros Hall. now inversion Hall.
Qed.

Lemma mps_stream_prefixed (entries : list entry) :
  Forall (fun e => String.prefix mps_prefix (fst e) = true)
    (mps (split_entries entries)).
Proof.
  unfold split_entries. rewrite split_fold. cbn [mps app].
  apply Forall_forall. intros e Hin. apply filter_In in Hin.
  destruct Hin as [_ Hf]. unfold in_family, classify, Str.startswith in Hf.
  destruct (String.prefix boundary_prefix (fst e)); [ discriminate |].
  destruct (String.prefix mpd_prefix (fst e)); [ discriminate |].
  destruct (String.prefix mps_prefix (fst e)); [ reflexivity | discriminate ].
Qed.

Lemma process_mps_outcome_prefixed (entries : list entry) :
  Forall (fun e => String.prefix mps_prefix (fst e) = true) entries ->
  ((exists out, process_mps entries = Ok out) <-> Forall mps_entry_ok entries)
  /\ (forall x, process_mps entries = Raise x ->
                x = OverflowError \/ x = TypeError).
Proof.
  intros Hp.
  destruct (mps_loop_outcome entries Hp mps_init (mps_wf_reset _ _ _ _))
    as [Hiff Herr].
  unfold process_mps. split; [ split |].
  - intros [out Hout]. apply Hiff.
    destruct (for_each mps_body entries mps_init) as [st |] eqn:El;
      [| discriminate ].
    exists st. split; [ reflexivity |].
    eapply mps_reachable_wf. exact El.
  - intros Hall. apply Hiff in Hall. destruct Hall as (st & El & Hwf).
    rewrite El. cbn [bind].
    destruct (finalize_system_ok st Hwf) as (st1 & E1 & _). rewrite E1.
    eexists. reflexivity.
  - intros x. destruct (for_each mps_body entries mps_init) as [st |] eqn:El.
    + cbn [bind].
      destruct (finalize_system_ok st (mps_reachable_wf _ _ El)) as (st1 & E1 & _).
      rewrite E1. discriminate.
    + cbn [bind]. intros [= <-]. now apply Herr.
Qed.

(** X4. On a stream whose keys carry the family prefix, [process_mps]
    returns exactly when every value normalizes and no
    [modernisationCategory] value is a list or a dict; otherwise it raises
    [OverflowError] or [TypeError].  The stream [split_entries] hands over
    is such a stream: there the missing-prefix [ValueError] cannot occur. *)
Theorem process_mps_outcome (entries : list entry) :
  (Forall (fun e => String.prefix mps_prefix (fst e) = true) entries ->
   ((exists out, process_mps entries = Ok out) <-> Forall mps_entry_ok entries)
   /\ (forall x, process_mps entries = Raise x ->
                 x = OverflowError \/ x = TypeError))
  /\ ((exists out, process_mps (mps (split_entries entries)) = Ok out)
      <-> Forall mps_entry_ok (mps (split_entries entries)))
  /\ (forall x, process_mps (mps (split_entries entries)) = Raise x ->
                x = OverflowError \/ x = TypeError).
Proof.
  split; [ apply process_mps_outcome_prefixed |].
  apply process_mps_outcome_prefixed, mps_stream_prefixed.
Qed.

(** ** One system per announcement *)

Lemma finalize_system_appends (st : mps_state) (sys0 : dict) :
  mps_wf st -> current_system st = Some sys0 ->
  exists st1 sys2,
    finalize_system st = Ok st1
    /\ systems st1 = systems st ++ [VDict sys2]
    /\ dict_get sys2 "buildingServiceSystemType"
       = dict_get sys0 "buildingServiceSystemType".
Proof.
  intros Hwf Hsys. unfold finalize_system. rewrite Hsys.
  destruct (finalize_element_ok st Hwf) as (st1 & E1 & _ & _ & Hs & _ & _).
  rewrite E1. cbn [bind]. eexists. eexists. split; [ reflexivity |].
  cbn [systems]. rewrite Hs. split; [ reflexivity |].
  assert (Hq : forall sys1,
             dict_get sys1 "buildingServiceSystemType"
             = dict_get sys0 "buildingServiceSystemType" ->
             dict_get
               (match recommended_by_cat st1 with
                | None | Some [] => sys1
                | Some by_cat =>
                    dict_set sys1 "recommendedModernisations"
                      (VList (List.map (fun kr => VDict (snd kr)) by_cat))
                end) "buildingServiceSystemType"
             = dict_get sys0 "buildingServiceSystemType").
  { intros sys1 H1. destruct (recommended_by_cat st1) as [[| g gs] |];
      try exact H1. rewrite dict_get_set_other by discriminate. exact H1. }
  apply Hq. destruct (current_actual st1) as [actual |]; [| reflexivity ].
  destruct (dict_get actual "quality") as [[ | | | | [| c s] | |] |];
    now rewrite dict_get_set_other by discriminate.
Qed.

Lemma finalize_system_headers (st st1 : mps_state) :
  mps_wf st -> finalize_system st = Ok st1 ->
  List.map header_of (systems st1) = pending st.
Proof.
  intros Hwf Hf. unfold pending.
  destruct (current_system st) as [sys0 |] eqn:Hsys.
  - destruct (finalize_system_appends st sys0 Hwf Hsys)
      as (st1' & sys2 & E1 & Hs & Hh).
    rewrite E1 in Hf. injection Hf as <-. rewrite Hs, map_app.
    cbn [List.map header_of]. now rewrite Hh.
  - unfold finalize_system in Hf. rewrite Hsys in Hf. injection Hf as <-.
    now rewrite app_nil_r.
Qed.

Lemma headers_step (st st' : mps_state) (acc : list (option value))
    (flat_key : string) (raw v : value) :
  mps_wf st -> headers_inv st acc ->
  normalize_value raw = Ok v -> mps_body st (flat_key, raw) = Ok st' ->
  headers_inv st' (announce acc (flat_key, v)).
Proof.
  intros Hwf [Hpend Hnone] Hn. rewrite mps_body_by_kind, Hn. cbn [bind].
  unfold announce. cbn [fst snd].
  destruct (mps_kind_of flat_key) as [k |]; [| discriminate ].
  destruct (finalize_element_ok st Hwf) as (se & Ee & _ & _ & Hse & Hce & _).
  assert (Hkeep : forall s2, systems s2 = systems st ->
                              current_system s2 = current_system st ->
                              headers_inv s2 acc).
  { intros s2 H1 H2. unfold headers_inv, pending. rewrite H1, H2.
    split; [ exact Hpend | exact Hnone ]. }
  destruct k.
  - destruct (finalize_system st) as [s1 |] eqn:Ef; cbn [bind]; [| discriminate ].
    intros [= <-]. unfold headers_inv, pending. cbn [systems current_system].
    rewrite (finalize_system_headers st s1 Hwf Ef), Hpend.
    cbn [dict_get]. rewrite String.eqb_refl.
    split; [ reflexivity | discriminate ].
  - intros [= <-]. unfold headers_inv, pending in *.
    cbn [systems current_system].
    rewrite dict_get_set_other by discriminate.
    destruct (current_system st) as [sys |] eqn:Hsys.
    + split; [| discriminate ]. rewrite Hpend.
      destruct acc; [| reflexivity ].
      destruct (List.map header_of (systems st)); discriminate.
    + rewrite (Hnone eq_refl) in *. cbn in Hpend. subst acc.
      split; [ reflexivity | discriminate ].
  - intros [= <-]. now apply Hkeep.
  - rewrite Ee. cbn [bind]. intros Hg.
    destruct (finalize_element_ok st Hwf) as (se' & Ee' & Hwfe & _).
    rewrite Ee in Ee'. injection Ee' as <-.
    destruct (get_or_create_wf _ _ _ Hwfe Hg) as (_ & _ & H1 & H2 & _).
    apply Hkeep; congruence.
  - rewrite Ee. cbn [bind]. intros [= <-]. now apply Hkeep.
  - intros [= <-]. now apply Hkeep.
  - intros [= <-]. now apply Hkeep.
  - intros [= <-]. now apply Hkeep.
Qed.

Lemma headers_loop (entries : list entry) :
  forall st st' acc,
    mps_wf st -> headers_inv st acc ->
    for_each mps_body entries st = Ok st' ->
    exists nes,
      normalized_entries entries = Ok nes
      /\ headers_inv st' (fold_left announce nes acc).
Proof.
  induction entries as [| [flat_key raw] es IH]; intros st st' acc Hwf Hinv;
    cbn [for_each].
  - intros [= <-]. exists []. split; [ reflexivity | exact Hinv ].
  - intros Hl. apply bind_Ok_inv in Hl. destruct Hl as (s1 & Hb & Hl).
    assert (Hn : exists v, normalize_value raw = Ok v).
    { revert Hb. rewrite mps_body_by_kind.
      destruct (normalize_value raw) as [v |]; [ eauto | discriminate ]. }
    destruct Hn as [v Hn].
    pose proof (headers_step st s1 acc flat_key raw v Hwf Hinv Hn Hb) as Hinv1.
    pose proof (mps_body_wf st s1 _ Hwf Hb) as Hwf1.
    destruct (IH s1 st' _ Hwf1 Hinv1 Hl) as (nes & Hnes & Hfin).
    exists ((flat_key, v) :: nes). split; [| exact Hfin ].
    unfold normalized_entries in *. cbn [map_result fst snd].
    rewrite Hn. cbn [bind]. rewrite Hnes. reflexivity.
Qed.

(** X5. Whenever [process_mps] returns, its systems are the ones the
    stream announces, in order: one for each [buildingServiceSystemType]
    entry, carrying the normalized value of that entry, preceded by one
    without a type when a top-level [note] arrives before the first of
    them.  Entries of any other kind never open or close a system. *)
Theorem process_mps_systems (entries : list entry) (out : list value) :
  process_mps entries = Ok out ->
  exists nes,
    normalized_entries entries = Ok nes
    /\ List.map header_of out = system_headers nes.
Proof.
  unfold process_mps. intros Hp.
  apply bind_Ok_inv in Hp. destruct Hp as (st & Hl & Hp).
  apply bind_Ok_inv in Hp. destruct Hp as (st1 & Hf & Hp).
  injection Hp as <-.
  assert (Hinit : headers_inv mps_init []) by (split; reflexivity).
  destruct (headers_loop entries mps_init st [] (mps_wf_reset _ _ _ _) Hinit Hl)
    as (nes & Hnes & [Hpend _]).
  exists nes. split; [ exact Hnes |].
  rewrite (finalize_system_headers st st1 (mps_reachable_wf _ _ Hl) Hf).
  exact Hpend.
Qed.

(** ** The generic materializer as two independent passes *)

Lemma other_body_step (doc : dict) (alt : list string) (flat_key : string)
    (raw : value) :
  other_body (doc, alt) (flat_key, raw) =
  (v <- normalize_value raw ;;
   Ok (fold_left write_entry (generic_entries [(flat_key, v)]) doc,
       alt ++ enabled_energies [(flat_key, v)])).
Proof.
  unfold other_body.
  destruct (normalize_value raw) as [v |]; cbn [bind]; [| reflexivity ].
  unfold generic_entries, enabled_energies, is_alt_key.
  cbn [filter fst snd].
  destruct (Str.startswith flat_key alt_energy_prefix); cbn [andb negb].
  - destruct v as [ | [] | | | | | ]; cbn [is_true List.map fold_left fst];
      now rewrite ?app_nil_r.
  - destruct (is_empty_or_none v); cbn [negb List.map fold_left];
      now rewrite ?app_nil_r.
Qed.

Lemma generic_entries_cons (e : entry) (nes : list entry) :
  generic_entries (e :: nes) = generic_entries [e] ++ generic_entries nes.
Proof.
  unfold generic_entries. cbn [filter].
  destruct (negb (is_alt_key (fst e)) && negb (is_empty_or_none (snd e)));
    reflexivity.
Qed.

Lemma enabled_energies_cons (e : entry) (nes : list entry) :
  enabled_energies (e :: nes) = enabled_energies [e] ++ enabled_energies nes.
Proof.
  unfold enabled_energies. cbn [filter].
  destruct (is_alt_key (fst e) && is_true (snd e)); reflexivity.
Qed.

Lemma other_loop (entries : list entry) :
  forall doc alt,
    for_each other_body entries (doc, alt) =
    (nes <- normalized_entries entries ;;
     Ok (fold_left write_entry (generic_entries nes) doc,
         alt ++ enabled_energies nes)).
Proof.
  unfold normalized_entries.
  induction entries as [| [flat_key raw] es IH]; intros doc alt;
    cbn [for_each map_result fst snd].
  - cbn. now rewrite app_nil_r.
  - rewrite other_body_step.
    destruct (normalize_value raw) as [v |]; cbn [bind]; [| reflexivity ].
    rewrite IH.
    match goal with
    | |- context [map_result ?f es] => destruct (map_result f es) as [nes |]
    end; cbn [bind]; [| reflexivity ].
    pose proof (generic_entries_cons (flat_key, v) nes) as Hg.
    pose proof (enabled_energies_cons (flat_key, v) nes) as He.
    unfold entry in *. rewrite Hg, He, fold_left_app, app_assoc.
    reflexivity.
Qed.

Lemma process_other_passes (entries : list entry) :
  process_other entries =
  (nes <- normalized_entries entries ;;
   attach_energies (enabled_energies nes) (generic_document nes)).
Proof.
  unfold process_other. rewrite other_loop.
  destruct (normalized_entries entries) as [nes |]; cbn [bind]; reflexivity.
Qed.

(** X6. [process_other] is two passes over the normalized entries that do
    not touch each other.  The keys under the alternative-energies
    namespace only name the energies whose value is [True]; all other
    entries with a value other than [None] and [""] are written into the
    document in input order.  The names, when there are any, are stored at
    [usingAlternativeEnergy.alternativeEnergies], every other top-level key
    staying as it is; this fails with [TypeError] exactly when the entries
    left something other than a mapping under [usingAlternativeEnergy]. *)
Theorem process_other_two_passes (entries : list entry) :
  process_other entries =
  (nes <- normalized_entries entries ;;
   attach_energies (enabled_energies nes) (generic_document nes))
  /\ (forall doc, attach_energies [] doc = Ok doc)
  /\ (forall names doc,
         names <> [] ->
         (dict_get doc "usingAlternativeEnergy" = None
          \/ exists ua, dict_get doc "usingAlternativeEnergy" = Some (VDict ua)) ->
         exists out,
           attach_energies names doc = Ok out
           /\ get_path (VDict out) ["usingAlternativeEnergy"; "alternativeEnergies"]
              = Ok (VList (List.map VStr names))
           /\ forall k, k <> "usingAlternativeEnergy" ->
                        dict_get out k = dict_get doc k)
  /\ (forall names doc v,
         names <> [] ->
         dict_get doc "usingAlternativeEnergy" = Some v ->
         (forall ua, v <> VDict ua) ->
         attach_energies names doc = Raise TypeError).
Proof.
  split; [ apply process_other_passes |]. split; [ reflexivity |]. split.
  - intros names doc Hn Hd. unfold attach_energies.
    destruct names as [| n ns]; [ congruence |].
    destruct Hd as [Hd | [ua Hd]]; rewrite Hd; eexists;
      (split; [ reflexivity |]); (split; [| intros k Hk;
         now rewrite dict_get_set_other by congruence ]);
      rewrite get_path_cons, dict_get_set_same, get_path_cons;
      rewrite ?dict_get_set_same; reflexivity.
  - intros names doc v Hn Hd Hv. unfold attach_energies.
    destruct names as [| n ns]; [ congruence |]. rewrite Hd.
    destruct v; try reflexivity. now destruct (Hv d).
Qed.

(** ** The order of the keys *)

Lemma dict_mem_existsb (d : dict) (k : string) :
  dict_mem d k = existsb (String.eqb k) (List.map fst d).
Proof.
  unfold dict_mem. induction d as [| [k' v] d IH]; cbn [dict_get List.map existsb fst];
    [ reflexivity |].
  rewrite (String.eqb_sym k k'). destruct (String.eqb k' k); cbn [orb];
    [ reflexivity | exact IH ].
Qed.

Lemma dict_set_keys (d : dict) (k : string) (v : value) :
  List.map fst (dict_set d k v) =
  if dict_mem d k then List.map fst d else List.map fst d ++ [k].
Proof.
  unfold dict_mem. induction d as [| [k' v'] d IH];
    cbn [dict_set dict_get List.map fst app]; [ reflexivity |].
  destruct (String.eqb k' k); cbn [List.map fst]; [ reflexivity |].
  rewrite IH. destruct (dict_get d k); reflexivity.
Qed.

Lemma set_path_keys (doc : dict) (keys : list string) (v : value) :
  keys <> [] ->
  List.map fst (set_path doc keys v) =
  if dict_mem doc (top_key keys) then List.map fst doc
  else List.map fst doc ++ [top_key keys].
Proof.
  intros Hne. destruct keys as [| k [| k2 rest]]; [ congruence | |].
  - cbn [set_path top_key]. unfold set_last.
    destruct (arr_match k); apply dict_set_keys.
  - rewrite set_path_cons. cbn [top_key]. apply dict_set_keys.
Qed.

Lemma set_path_frame (doc : dict) (keys : list string) (v : value) (k : string) :
  keys <> [] -> k <> top_key keys ->
  dict_get (set_path doc keys v) k = dict_get doc k.
Proof.
  intros Hne Hk. destruct keys as [| k1 [| k2 rest]]; [ congruence | |].
  - cbn [set_path top_key] in *. unfold set_last.
    destruct (arr_match k1); now rewrite dict_get_set_other by congruence.
  - rewrite set_path_cons. cbn [top_key] in Hk.
    now rewrite dict_get_set_other by congruence.
Qed.

Lemma write_entries_keys (es : list entry) :
  List.map fst (fold_left write_entry es []) =
  first_seen (List.map entry_top_key es).
Proof.
  induction es as [| e es IH] using rev_ind; [ reflexivity |].
  rewrite fold_left_app, map_app. cbn [fold_left List.map].
  rewrite first_seen_snoc. unfold write_entry at 1.
  rewrite set_path_keys by apply split_go_nonempty.
  fold (entry_top_key e). rewrite dict_mem_existsb, IH.
  assert (Hex : existsb (String.eqb (entry_top_key e))
                  (first_seen (List.map entry_top_key es))
                = existsb (String.eqb (entry_top_key e))
                    (List.map entry_top_key es)).
  { apply eq_true_iff_eq. rewrite !existsb_eqb_In. apply first_seen_In. }
  rewrite Hex. reflexivity.
Qed.

(** X7. Whenever [process_other] returns, the top-level keys of the
    document are distinct and stand in the order in which the written
    entries first name them (a single-segment array key counting under the
    name of its array); [usingAlternativeEnergy], when it is only there
    for the collected names, comes last. *)
Theorem process_other_key_order (entries : list entry) (out : dict) :
  process_other entries = Ok out ->
  exists nes,
    normalized_entries entries = Ok nes
    /\ List.map fst out =
       first_seen (List.map entry_top_key (generic_entries nes)
                   ++ match enabled_energies nes with
                      | [] => []
                      | _ => ["usingAlternativeEnergy"]
                      end)
    /\ NoDup (List.map fst out).
Proof.
  rewrite process_other_passes.
  destruct (normalized_entries entries) as [nes |]; cbn [bind]; [| discriminate ].
  intros Ha. exists nes. split; [ reflexivity |].
  assert (Hk : List.map fst out =
               first_seen (List.map entry_top_key (generic_entries nes)
                           ++ match enabled_energies nes with
                              | [] => []
                              | _ => ["usingAlternativeEnergy"]
                              end)).
  { revert Ha. unfold attach_energies, generic_document.
    pose proof (write_entries_keys (generic_entries nes)) as Hw.
    set (doc := fold_left write_entry (generic_entries nes) []) in *.
    destruct (enabled_energies nes) as [| n ns].
    - intros [= <-]. now rewrite app_nil_r.
    - rewrite first_seen_snoc.
      assert (Hex : existsb (String.eqb "usingAlternativeEnergy")
                      (List.map entry_top_key (generic_entries nes))
                    = dict_mem doc "usingAlternativeEnergy").
      { rewrite dict_mem_existsb, Hw. apply eq_true_iff_eq.
        rewrite !existsb_eqb_In. symmetry. apply first_seen_In. }
      rewrite Hex. unfold dict_mem.
      destruct (dict_get doc "usingAlternativeEnergy") as [v |] eqn:Ed.
      + destruct v; try discriminate. intros [= <-].
        rewrite dict_set_keys. unfold dict_mem. now rewrite Ed.
      + intros [= <-]. rewrite dict_set_keys. unfold dict_mem.
        now rewrite Ed, Hw. }
  split; [ exact Hk |]. rewrite Hk. apply first_seen_NoDup.
Qed.

(** ** The forced fields of the assembled document *)

Lemma bind_ret {A : Type} (c : result A) : (x <- c ;; Ok x) = c.
Proof. destruct c; reflexivity. Qed.

Lemma bind_ext {A B : Type} (c : result A) (k k' : A -> result B) :
  (forall a, k a = k' a) -> bind c k = bind c k'.
Proof. intros Hk. destruct c; cbn [bind]; auto. Qed.

Lemma diverges_sym (p q : list string) : diverges p q = diverges q p.
Proof.
  revert q. induction p as [| a p IH]; intros [| b q]; cbn [diverges];
    try reflexivity.
  rewrite (String.eqb_sym a b). destruct (String.eqb b a); auto.
Qed.

Lemma assign_path_diverge (p : list string) :
  forall (q : list string) (doc doc' : dict) (w : value),
    diverges p q = true -> assign_path doc p w = Ok doc' ->
    get_path (VDict doc') q = get_path (VDict doc) q.
Proof.
  induction p as [| a p IH]; intros q doc doc' w Hd Ha; [ discriminate |].
  destruct q as [| b q]; [ discriminate |]. cbn [diverges] in Hd.
  rewrite !get_path_cons.
  destruct (String.eqb_spec a b) as [<- | Hab].
  - destruct p as [| a2 p]; [ discriminate |].
    change (assign_path doc (a :: a2 :: p) w)
      with (sub <- subscript (VDict doc) a ;;
            match sub with
            | VDict d => d' <- assign_path d (a2 :: p) w ;;
                         Ok (dict_set doc a (VDict d'))
            | _ => Raise TypeError
            end) in Ha.
    apply bind_Ok_inv in Ha. destruct Ha as (sub & Hs & Ha).
    unfold subscript in Hs. destruct (dict_get doc a) as [x |]; [| discriminate ].
    injection Hs as ->. destruct sub; try discriminate.
    apply bind_Ok_inv in Ha. destruct Ha as (d' & Hd' & Ha).
    injection Ha as <-. rewrite dict_get_set_same.
    exact (IH q d d' w Hd Hd').
  - now rewrite (assign_path_other (a :: p) doc doc' w b Ha Hab).
Qed.

Lemma attach_frame (pdf_bytes : list Byte.byte) (images : list image)
    (doc : dict) (k : string) (rest : list string) :
  k <> "calculationsPdfFileContent" -> k <> "photos" ->
  get_path (VDict (attach pdf_bytes images doc)) (k :: rest)
  = get_path (VDict doc) (k :: rest).
Proof.
  intros H1 H2. unfold attach. rewrite !get_path_cons.
  now rewrite !dict_get_set_other by congruence.
Qed.

Lemma digit_char_is_digit (k : Z) :
  0 <= k <= 9 -> Str.is_digit (Date.digit_char k) = true.
Proof.
  intros Hk.
  assert (Hc : k = 0 \/ k = 1 \/ k = 2 \/ k = 3 \/ k = 4 \/ k = 5 \/ k = 6
               \/ k = 7 \/ k = 8 \/ k = 9) by lia.
  repeat (destruct Hc as [-> | Hc]; [ reflexivity |]). subst. reflexivity.
Qed.

Lemma two_digits_shape (n : Z) :
  0 <= n <= 99 ->
  exists c1 c2,
    Date.two_digits n = pair_of c1 c2
    /\ Str.is_digit c1 = true /\ Str.is_digit c2 = true.
Proof.
  intros Hn. unfold Date.two_digits.
  exists (Date.digit_char (n / 10)), (Date.digit_char (n mod 10)).
  split; [ reflexivity |].
  split; apply digit_char_is_digit.
  - assert (n / 10 < 10) by (apply Z.div_lt_upper_bound; lia).
    assert (0 <= n / 10) by (apply Z.div_pos; lia). lia.
  - pose proof (Z.mod_pos_bound n 10 ltac:(lia)). lia.
Qed.

Lemma strptime_range (s : string) (d : Date.date) :
  Date.strptime s = Some d ->
  1 <= Date.month d <= 12
  /\ 1 <= Date.day d <= Date.days_in_month (Date.year d) (Date.month d)
  /\ 1969 <= Date.year d <= 2068.
Proof.
  unfold Date.strptime.
  destruct (Str.split_once "/" s) as [[ms rest] |]; [| discriminate ].
  destruct (Str.split_once "/" rest) as [[ds ys] |]; [| discriminate ].
  destruct (Date.parse_month ms) as [m |] eqn:Em; [| discriminate ].
  destruct (Date.parse_day ds) as [dd |] eqn:Ed; [| discriminate ].
  destruct (Date.parse_year ys) as [y |] eqn:Ey; [| discriminate ].
  destruct (Z.leb_spec dd (Date.days_in_month y m)); [| discriminate ].
  intros [= <-]. cbn [Date.year Date.month Date.day].
  unfold Date.parse_month in Em.
  destruct (Str.all Str.is_digit ms); cbn [andb] in Em; [| discriminate ].
  destruct (_ || _) in Em; cbn [andb] in Em; [| discriminate ].
  destruct (Z.leb_spec 1 (Str.digits_val ms)); cbn [andb] in Em; [| discriminate ].
  destruct (Z.leb_spec (Str.digits_val ms) 12); [| discriminate ].
  assert (Hm : m = Str.digits_val ms) by congruence.
  unfold Date.parse_day in Ed.
  set (dtxt := match ds with
               | String " " (String c EmptyString) => String c EmptyString
               | _ => ds
               end) in Ed.
  destruct (Str.all Str.is_digit dtxt); cbn [andb] in Ed; [| discriminate ].
  destruct (_ || _) in Ed; cbn [andb] in Ed; [| discriminate ].
  destruct (Z.leb_spec 1 (Str.digits_val dtxt)); cbn [andb] in Ed;
    [| discriminate ].
  destruct (Z.leb_spec (Str.digits_val dtxt) 31); [| discriminate ].
  assert (Hd : dd = Str.digits_val dtxt) by congruence.
  unfold Date.parse_year in Ey.
  destruct (Str.all Str.is_digit ys) eqn:Eall; cbn [andb] in Ey; [| discriminate ].
  destruct (Nat.eqb_spec (String.length ys) 2); [| discriminate ].
  assert (Hy : y = if Str.digits_val ys <=? 68 then 2000 + Str.digits_val ys
                   else 1900 + Str.digits_val ys) by congruence.
  assert (Hys : 0 <= Str.digits_val ys < 100).
  { split; [ apply digits_val_acc_nonneg; [ exact Eall | lia ] |].
    pose proof (digits_val_acc_bound ys Eall 0 ltac:(lia)) as Hb.
    rewrite e in Hb. exact Hb. }
  repeat split; try lia; subst y;
    destruct (Z.leb_spec (Str.digits_val ys) 68); lia.
Qed.

Section Forced.

Context `{Repr}.

Lemma force_fields_loop (doc : dict) :
  force_fields doc = for_each force_step forced_fields doc.
Proof.
  unfold force_fields, forced_fields, force_step.
  cbn [for_each fst snd]. do 12 (apply bind_ext; intros ?).
  symmetry. apply bind_ret.
Qed.

Lemma force_str_inv (prefix : string) (path : list string) (doc doc' : dict) :
  path <> [] -> force_str prefix path doc = Ok doc' ->
  exists v, get_path (VDict doc) path = Ok v
            /\ get_path (VDict doc') path = Ok (VStr (prefix ++ py_str v)).
Proof.
  unfold force_str. intros Hne Hf.
  apply bind_Ok_inv in Hf. destruct Hf as (v & Hg & Ha).
  exists v. split; [ exact Hg |].
  destruct (assign_path_ok path doc v (VStr (prefix ++ py_str v)) Hne Hg)
    as (d & Hd & Hr).
  rewrite Hd in Ha. now injection Ha as <-.
Qed.

Lemma force_str_total (prefix : string) (path : list string) (doc : dict) :
  path <> [] -> readable doc path ->
  exists doc', force_str prefix path doc = Ok doc'.
Proof.
  intros Hne [v Hg]. unfold force_str. rewrite Hg. cbn [bind].
  destruct (assign_path_ok path doc v (VStr (prefix ++ py_str v)) Hne Hg)
    as (d & Hd & _). eauto.
Qed.

Lemma force_str_diverge (prefix : string) (path q : list string)
    (doc doc' : dict) :
  diverges path q = true -> force_str prefix path doc = Ok doc' ->
  get_path (VDict doc') q = get_path (VDict doc) q.
Proof.
  unfold force_str. intros Hd Hf.
  apply bind_Ok_inv in Hf. destruct Hf as (v & _ & Ha).
  eapply assign_path_diverge; eauto.
Qed.

Lemma force_loop_frame (fs : list (string * list string)) :
  forall (doc doc' : dict) (q : list string),
    forallb (fun f => diverges (snd f) q) fs = true ->
    for_each force_step fs doc = Ok doc' ->
    get_path (VDict doc') q = get_path (VDict doc) q.
Proof.
  induction fs as [| f fs IH]; intros doc doc' q Hq; cbn [for_each].
  - now intros [= <-].
  - cbn [forallb] in Hq. apply andb_prop in Hq. destruct Hq as [Hf Hq].
    intros Hl. apply bind_Ok_inv in Hl. destruct Hl as (d1 & H1 & Hl).
    rewrite (IH d1 doc' q Hq Hl).
    exact (force_str_diverge _ _ _ _ _ Hf H1).
Qed.

Lemma pairwise_diverge_head (p : list string) (rest : list (list string))
    (q : list string) :
  pairwise_diverge (p :: rest) = true -> In q rest ->
  diverges p q = true /\ diverges q p = true.
Proof.
  cbn [pairwise_diverge]. intros Hp Hin. apply andb_prop in Hp.
  destruct Hp as [Hall _]. rewrite forallb_forall in Hall.
  specialize (Hall q Hin). now rewrite (diverges_sym q p).
Qed.

Lemma force_loop_inv (fs : list (string * list string)) :
  pairwise_diverge (List.map snd fs) = true ->
  Forall (fun f => snd f <> []) fs ->
  forall doc doc',
    for_each force_step fs doc = Ok doc' ->
    Forall (fun f => exists v,
                get_path (VDict doc) (snd f) = Ok v
                /\ get_path (VDict doc') (snd f)
                   = Ok (VStr (fst f ++ py_str v))) fs.
Proof.
  induction fs as [| f fs IH]; intros Hpw Hne doc doc'; cbn [for_each];
    [ constructor |].
  intros Hl. apply bind_Ok_inv in Hl. destruct Hl as (d1 & H1 & Hl).
  inversion Hne as [| ? ? Hf Hrest]; subst.
  assert (Hpw' : pairwise_diverge (List.map snd fs) = true).
  { cbn [List.map pairwise_diverge] in Hpw. apply andb_prop in Hpw. tauto. }
  destruct (force_str_inv _ _ _ _ Hf H1) as (v & Hg & Hs).
  constructor.
  - exists v. split; [ exact Hg |].
    rewrite (force_loop_frame fs d1 doc' (snd f)); [ exact Hs | | exact Hl ].
    apply forallb_forall. intros g Hg'.
    apply (pairwise_diverge_head (snd f) (List.map snd fs) (snd g) Hpw).
    now apply in_map.
  - specialize (IH Hpw' Hrest d1 doc' Hl).
    rewrite Forall_forall in *. intros g Hin.
    destruct (IH g Hin) as (vg & Hg1 & Hg2). exists vg. split; [| exact Hg2 ].
    rewrite <- Hg1. symmetry.
    apply (force_str_diverge (fst f) (snd f) (snd g) doc d1); [| exact H1 ].
    apply (pairwise_diverge_head (snd f) (List.map snd fs) (snd g) Hpw).
    now apply in_map.
Qed.

Lemma force_loop_total (fs : list (string * list string)) :
  pairwise_diverge (List.map snd fs) = true ->
  Forall (fun f => snd f <> []) fs ->
  forall doc,
    Forall (fun f => readable doc (snd f)) fs ->
    exists doc', for_each force_step fs doc = Ok doc'.
Proof.
  induction fs as [| f fs IH]; intros Hpw Hne doc Hr; cbn [for_each];
    [ eauto |].
  inversion Hne as [| ? ? Hf Hrest]; subst.
  inversion Hr as [| ? ? Hrf Hrrest]; subst.
  assert (Hpw' : pairwise_diverge (List.map snd fs) = true).
  { cbn [List.map pairwise_diverge] in Hpw. apply andb_prop in Hpw. tauto. }
  destruct (force_str_total (fst f) (snd f) doc Hf Hrf) as [d1 H1].
  unfold force_step at 1. rewrite H1. cbn [bind].
  apply (IH Hpw' Hrest d1).
  rewrite Forall_forall in *. intros g Hin.
  destruct (Hrrest g Hin) as [vg Hvg]. exists vg. rewrite <- Hvg.
  apply (force_str_diverge (fst f) (snd f) (snd g) doc d1); [| exact H1 ].
  apply (pairwise_diverge_head (snd f) (List.map snd fs) (snd g) Hpw).
  now apply in_map.
Qed.

Lemma forced_fields_apart :
  pairwise_diverge (List.map snd forced_fields) = true
  /\ Forall (fun f : string * list string => snd f <> []) forced_fields
  /\ forallb (fun f : string * list string => diverges date_path (snd f))
       forced_fields = true.
Proof.
  split; [ reflexivity |]. split; [| reflexivity ].
  repeat constructor; discriminate.
Qed.

Lemma reformat_date_inv (doc doc' : dict) :
  reformat_date doc = Ok doc' ->
  exists s d,
    get_path (VDict doc) date_path = Ok (VStr s)
    /\ Date.strptime s = Some d
    /\ assign_path doc date_path (VStr (Date.strftime d)) = Ok doc'.
Proof.
  unfold reformat_date. intros Hr.
  apply bind_Ok_inv in Hr. destruct Hr as (v & Hg & Hr).
  destruct v; try discriminate.
  destruct (Date.strptime s) as [d |] eqn:Ep; [| discriminate ].
  exists s, d. auto.
Qed.

Lemma forced_path_head (f : string * list string) :
  In f forced_fields ->
  exists k rest, snd f = k :: rest
                 /\ k <> "calculationsPdfFileContent" /\ k <> "photos".
Proof.
  unfold forced_fields. cbn [In]. intros Hin.
  repeat (destruct Hin as [<- | Hin];
          [ eexists; eexists; split; [ reflexivity | split; discriminate ] |]).
  contradiction.
Qed.

(** X8. Whenever [transform_json] returns, each of the thirteen forced
    fields of the output is a string: [str] of the value the materialized
    document holds at that path, with a [+] before it for the phone
    number.  A value that is already a string is kept as it is. *)
Theorem transform_json_forced_fields (input : input_obj)
    (pdf_bytes : list Byte.byte) (images : list image) (doc out : dict) :
  materialize input = Ok doc ->
  transform_json input pdf_bytes images = Ok out ->
  Forall (fun f => exists v,
              get_path (VDict doc) (snd f) = Ok v
              /\ get_path (VDict out) (snd f) = Ok (VStr (fst f ++ py_str v))
              /\ (forall s, v = VStr s ->
                            get_path (VDict out) (snd f) = Ok (VStr (fst f ++ s))))
    forced_fields.
Proof.
  intros Hm. unfold transform_json. rewrite Hm. cbn [bind]. intros Ht.
  apply bind_Ok_inv in Ht. destruct Ht as (d1 & Hf & Ht).
  apply bind_Ok_inv in Ht. destruct Ht as (d2 & Hr & Ht).
  injection Ht as <-.
  destruct forced_fields_apart as (Hpw & Hne & Hdate).
  rewrite force_fields_loop in Hf.
  pose proof (force_loop_inv forced_fields Hpw Hne doc d1 Hf) as Hall.
  destruct (reformat_date_inv d1 d2 Hr) as (s & d & _ & _ & Ha).
  rewrite Forall_forall in *. intros f Hin.
  destruct (Hall f Hin) as (v & Hv1 & Hv2). exists v.
  assert (Hout : get_path (VDict (attach pdf_bytes images d2)) (snd f)
                 = Ok (VStr (fst f ++ py_str v))).
  { destruct (forced_path_head f Hin) as (k & rest & Hk & Hk1 & Hk2).
    rewrite Hk, attach_frame by assumption. rewrite <- Hk, <- Hv2.
    eapply assign_path_diverge; [| exact Ha ].
    rewrite forallb_forall in Hdate. now apply Hdate. }
  split; [ exact Hv1 |]. split; [ exact Hout |].
  intros s0 ->. exact Hout.
Qed.

(** X9. On a document that materializes, [transform_json] returns exactly
    when the thirteen forced fields can be read and the site inspection
    date is a string that reads as a date; with no entries at all it
    raises [KeyError]. *)
Theorem transform_json_returns (input : input_obj)
    (pdf_bytes : list Byte.byte) (images : list image) (doc : dict) :
  materialize input = Ok doc ->
  ((exists out, transform_json input pdf_bytes images = Ok out)
   <-> (Forall (fun f => readable doc (snd f)) forced_fields
        /\ exists s d, get_path (VDict doc) date_path = Ok (VStr s)
                       /\ Date.strptime s = Some d))
  /\ transform_json {| data := None |} pdf_bytes images = Raise KeyError
  /\ transform_json {| data := Some [] |} pdf_bytes images = Raise KeyError.
Proof.
  intros Hm. destruct forced_fields_apart as (Hpw & Hne & Hdate).
  split; [| split; reflexivity ].
  unfold transform_json. rewrite Hm. cbn [bind]. split.
  - intros [out Ht].
    apply bind_Ok_inv in Ht. destruct Ht as (d1 & Hf & Ht).
    apply bind_Ok_inv in Ht. destruct Ht as (d2 & Hr & _).
    pose proof Hf as Hloop. rewrite force_fields_loop in Hloop.
    pose proof (force_loop_inv forced_fields Hpw Hne doc d1 Hloop) as Hall.
    split.
    + rewrite Forall_forall in *. intros f Hin.
      destruct (Hall f Hin) as (v & Hv & _). now exists v.
    + destruct (reformat_date_inv d1 d2 Hr) as (s & d & Hg & Hp & _).
      exists s, d. split; [| exact Hp ].
      now rewrite <- (force_fields_date doc d1 Hf).
  - intros (Hread & s & d & Hg & Hp).
    destruct (force_loop_total forced_fields Hpw Hne doc Hread) as [d1 Hloop].
    rewrite <- force_fields_loop in Hloop. rewrite Hloop. cbn [bind].
    assert (Hg1 : get_path (VDict d1) date_path = Ok (VStr s))
      by (now rewrite (force_fields_date doc d1 Hloop)).
    destruct (assign_path_ok date_path d1 (VStr s) (VStr (Date.strftime d))
                ltac:(discriminate) Hg1) as (d2 & Ea & _).
    unfold reformat_date. rewrite Hg1. cbn [bind]. rewrite Hp, Ea. cbn [bind].
    eexists. reflexivity.
Qed.

(** X10. Whenever [transform_json] returns, the date it wrote is a real
    calendar day of the years 1969 to 2068, printed as three pairs of
    digits, year, month and day, each followed by a dot. *)
Theorem transform_json_date_format (input : input_obj)
    (pdf_bytes : list Byte.byte) (images : list image) (out : dict) :
  transform_json input pdf_bytes images = Ok out ->
  exists (d : Date.date) (y1 y2 m1 m2 d1 d2 : ascii),
    get_path (VDict out) date_path = Ok (VStr (Date.strftime d))
    /\ Date.strftime d =
       (pair_of y1 y2 ++ "." ++ pair_of m1 m2 ++ "." ++ pair_of d1 d2 ++ ".")%string
    /\ Str.all Str.is_digit
         (String y1 (String y2 (String m1 (String m2 (String d1
            (String d2 "")))))) = true
    /\ 1 <= Date.month d <= 12
    /\ 1 <= Date.day d <= Date.days_in_month (Date.year d) (Date.month d)
    /\ 1969 <= Date.year d <= 2068.
Proof.
  unfold transform_json. intros Ht.
  apply bind_Ok_inv in Ht. destruct Ht as (d0 & _ & Ht).
  apply bind_Ok_inv in Ht. destruct Ht as (d1 & _ & Ht).
  apply bind_Ok_inv in Ht. destruct Ht as (d2 & Hr & Ht).
  injection Ht as <-.
  destruct (reformat_date_inv d1 d2 Hr) as (s & d & Hg & Hp & Ha).
  destruct (strptime_range s d Hp) as (Hmo & Hda & Hye).
  assert (Hday31 : Date.days_in_month (Date.year d) (Date.month d) <= 31).
  { unfold Date.days_in_month. destruct (_ =? 2); [ destruct (Date.is_leap _) |];
      [ lia | lia |]. destruct (_ || _); lia. }
  destruct (two_digits_shape (Date.year d mod 100)) as (y1 & y2 & Ey & Hy1 & Hy2).
  { pose proof (Z.mod_pos_bound (Date.year d) 100 ltac:(lia)). lia. }
  destruct (two_digits_shape (Date.month d)) as (m1 & m2 & Em & Hm1 & Hm2);
    [ lia |].
  destruct (two_digits_shape (Date.day d)) as (c1 & c2 & Ed & Hd1 & Hd2);
    [ lia |].
  exists d, y1, y2, m1, m2, c1, c2.
  split; [| split; [| split; [| repeat split; lia ] ] ].
  - destruct (assign_path_ok date_path d1 (VStr s) (VStr (Date.strftime d))
                ltac:(discriminate) Hg) as (d2' & Ea & Eg).
    rewrite Ea in Ha. injection Ha as <-.
    unfold date_path in *. now rewrite attach_frame by discriminate.
  - unfold Date.strftime. now rewrite Ey, Em, Ed.
  - cbn [Str.all]. now rewrite Hy1, Hy2, Hm1, Hm2, Hd1, Hd2.
Qed.

End Forced.

(** ** One group per category *)

Lemma distinct_keys_snoc (ks : list value) (k : value) :
  distinct_keys (ks ++ [k])
  = distinct_keys ks && forallb (fun k' => negb (key_eqb k' k)) ks.
Proof.
  induction ks as [| a ks IH]; cbn [app distinct_keys forallb]; [ reflexivity |].
  rewrite forallb_app, IH. cbn [forallb].
  destruct (forallb (fun k' => negb (key_eqb a k')) ks),
    (forallb (fun k' => negb (key_eqb k' k)) ks),
    (distinct_keys ks), (key_eqb a k); reflexivity.
Qed.

Lemma find_key_none (k : value) (d : list (value * dict)) (i : nat) :
  find_key k d i = None ->
  forallb (fun k' => negb (key_eqb k' k)) (List.map fst d) = true.
Proof.
  revert i. induction d as [| [k' r] d IH]; intros i; cbn [find_key List.map fst forallb];
    [ reflexivity |].
  destruct (key_eqb k' k); [ discriminate |]. intros Hf.
  cbn [negb andb]. exact (IH _ Hf).
Qed.

Lemma update_nth_map_fst {A B : Type} (n : nat) (g : A * B -> B)
    (l : list (A * B)) :
  List.map fst (update_nth n (fun kr => (fst kr, g kr)) l) = List.map fst l.
Proof.
  revert n. induction l as [| x l IH]; intros [| n]; cbn [update_nth List.map fst];
    try reflexivity.
  now rewrite IH.
Qed.

Lemma SFeqb_refl (f : spec_float) : f <> S754_nan -> SFeqb f f = true.
Proof.
  destruct f as [sg | sg | | sg m e]; intros Hn; try congruence;
    unfold SFeqb, SFcompare; destruct sg; try reflexivity;
    rewrite Z.compare_refl, Pos.compare_cont_refl; reflexivity.
Qed.

(** A key other than a NaN is found again under itself. *)
Lemma key_eqb_refl (v : value) :
  hashable v = true -> is_nan v = false -> key_eqb v v = true.
Proof.
  destruct v as [| b | z | f | s | l | d]; cbn [hashable is_nan key_eqb];
    intros Hh Hn; try discriminate.
  - reflexivity.
  - apply Bool.eqb_reflx.
  - apply Z.eqb_refl.
  - apply SFeqb_refl. intros ->. discriminate.
  - apply String.eqb_refl.
Qed.

Lemma distinct_keys_NoDup (ks : list value) :
  distinct_keys ks = true ->
  Forall (fun k => key_eqb k k = true) ks -> NoDup ks.
Proof.
  induction ks as [| k ks IH]; cbn [distinct_keys]; intros Hd Hs;
    [ constructor |].
  apply andb_prop in Hd. destruct Hd as [Hk Hd].
  inversion Hs as [| ? ? Hkk Hrest]; subst.
  constructor; [| exact (IH Hd Hrest) ].
  intros Hin. rewrite forallb_forall in Hk. specialize (Hk k Hin).
  rewrite Hkk in Hk. discriminate.
Qed.

Lemma get_or_create_cats (v : value) (st st' : mps_state) :
  is_nan v = false ->
  cats_ok (groups_of st) -> get_or_create_recommended v st = Ok st' ->
  cats_ok (groups_of st').
Proof.
  intros Hnan (Hd & Hc & Hs). unfold get_or_create_recommended.
  fold (groups_of st).
  destruct (hashable (if is_empty_or_none v then VNone else v)) eqn:Eh;
    cbn [negb]; [| discriminate ].
  destruct (find_key _ _ 0) as [i |] eqn:Ef; intros [= <-];
    unfold groups_of at 1; cbn [recommended_by_cat]; [ now repeat split |].
  split; [| split ].
  - rewrite map_app. cbn [List.map fst]. rewrite distinct_keys_snoc.
    now rewrite Hd, (find_key_none _ _ _ Ef).
  - apply Forall_app. split; [ exact Hc |]. constructor; [| constructor ].
    cbn [snd fst category_of].
    destruct v as [ | | | | s | |]; cbn [is_empty_or_none]; try reflexivity.
    destruct s; reflexivity.
  - apply Forall_app. split; [ exact Hs |]. constructor; [| constructor ].
    cbn [fst]. apply key_eqb_refl; [ exact Eh |].
    destruct (is_empty_or_none v); [ reflexivity | exact Hnan ].
Qed.

Lemma finalize_element_cats (st st' : mps_state) :
  cats_ok (groups_of st) -> finalize_element st = Ok st' ->
  cats_ok (groups_of st').
Proof.
  intros Hc. unfold finalize_element.
  destruct (current_element st) as [el |]; [| now intros [= <-] ].
  intros Hf. apply bind_Ok_inv in Hf. destruct Hf as (s1 & E1 & Hf).
  assert (Hc1 : cats_ok (groups_of s1)).
  { destruct (current_recommended st).
    - now injection E1 as <-.
    - exact (get_or_create_cats VNone _ _ eq_refl Hc E1). }
  clear E1 Hc. fold (groups_of s1) in Hf. destruct Hc1 as (Hd & Hk & Hs).
  destruct (nth_error (groups_of s1) _) as [[k rec] |] eqn:En; [| discriminate ].
  apply bind_Ok_inv in Hf. destruct Hf as (rec' & Ea & Hf). injection Hf as <-.
  unfold groups_of at 1. cbn [recommended_by_cat]. split; [| split ].
  - now rewrite (update_nth_map_fst _ (fun _ => rec')).
  - apply update_nth_Forall; [ exact Hk |].
    intros [k0 r0] Hn.
    assert (Heq : Some (k0, r0) = Some (k, rec)) by (rewrite <- Hn; exact En).
    injection Heq as -> ->.
    cbn [fst snd]. rewrite Forall_forall in Hk.
    specialize (Hk (k, rec) (nth_error_In _ _ En)). cbn [fst snd] in Hk.
    rewrite <- Hk. unfold append_element in Ea. cbn [category_of].
    destruct (dict_get rec "systemElements") as [[ | | | | | xs |] |];
      try discriminate; injection Ea as <-;
      now rewrite dict_get_set_other by discriminate.
  - apply update_nth_Forall; [ exact Hs |].
    intros [k0 r0] Hn. cbn [fst]. rewrite Forall_forall in Hs.
    exact (Hs (k0, r0) (nth_error_In _ _ Hn)).
Qed.

Lemma finalize_system_cats (st st' : mps_state) :
  mps_wf st -> cats_inv st -> finalize_system st = Ok st' ->
  cats_inv st' /\ recommended_by_cat st' = recommended_by_cat st
                  \/ (cats_inv st' /\ recommended_by_cat st' = None).
Proof.
  intros Hwf (Hc & Hs & Hcur). unfold finalize_system.
  destruct (current_system st) as [sys0 |] eqn:Hsys.
  2:{ intros [= <-]. left. split; [| reflexivity ].
      unfold cats_inv. rewrite Hsys. auto. }
  intros Hf. right.
  destruct (finalize_element_ok st Hwf) as (s1 & E1 & [Hg1 _] & _ & Hs1 & _).
  rewrite E1 in Hf. cbn [bind] in Hf. injection Hf as <-.
  split; [| reflexivity ].
  pose proof (finalize_element_cats st s1 Hc E1) as (Hd1 & Hk1 & Hr1).
  unfold cats_inv, groups_of. cbn [recommended_by_cat systems current_system].
  split; [ split; [ reflexivity | split; constructor ] |]. split; [| exact I ].
  rewrite Hs1. apply Forall_app. split; [ exact Hs |].
  constructor; [| constructor ].
  set (sys1 := match current_actual s1 with
               | None => sys0
               | Some actual => _
               end).
  assert (H1 : dict_get sys1 "recommendedModernisations" = None).
  { subst sys1. destruct (current_actual s1) as [actual |]; [| exact Hcur ].
    destruct (dict_get actual "quality") as [[ | | | | [| c s] | |] |];
      now rewrite dict_get_set_other by discriminate. }
  unfold groups_of in Hg1, Hd1, Hk1, Hr1.
  destruct (recommended_by_cat s1) as [[| g gs] |].
  1,3: unfold system_ok, groups_in; rewrite H1;
       split; [ constructor | split; [ reflexivity | constructor ] ].
  unfold system_ok, groups_in. rewrite dict_get_set_same.
  split; [| split ].
  - rewrite map_map. erewrite map_ext_in.
    + apply distinct_keys_NoDup; [ exact Hd1 |].
      rewrite Forall_map. exact Hr1.
    + intros kr Hin. rewrite Forall_forall in Hk1. exact (Hk1 kr Hin).
  - rewrite map_map. erewrite map_ext_in; [ exact Hd1 |].
    intros kr Hin. rewrite Forall_forall in Hk1. exact (Hk1 kr Hin).
  - rewrite Forall_map. eapply Forall_impl; [| exact Hg1 ].
    intros [k r] [xs Hxs]. exists xs. cbn [snd elements_of] in *.
    now rewrite Hxs.
Qed.

Lemma mps_body_cats (st st' : mps_state) (e : entry) :
  nan_category e = false ->
  mps_wf st -> cats_inv st -> mps_body st e = Ok st' -> cats_inv st'.
Proof.
  intros Hnan Hwf Hinv. destruct e as [flat_key raw].
  unfold nan_category in Hnan. cbn [fst snd] in Hnan.
  rewrite mps_body_by_kind.
  destruct (normalize_value raw) as [v |]; cbn [bind]; [| discriminate ].
  destruct (mps_kind_of flat_key) as [k |]; [| discriminate ].
  pose proof Hinv as (Hc & Hs & Hcur).
  destruct (finalize_element_ok st Hwf) as (se & Ee & Hwfe & _ & Hse & Hce & _).
  assert (Hce' : cats_inv se).
  { unfold cats_inv. rewrite Hse, Hce.
    split; [ exact (finalize_element_cats st se Hc Ee) | now split ]. }
  destruct k.
  - destruct (finalize_system st) as [s1 |] eqn:Ef; cbn [bind]; [| discriminate ].
    intros [= <-].
    assert (Hs1 : Forall system_ok (systems s1)).
    { destruct (finalize_system_cats st s1 Hwf Hinv Ef) as [[H1 _] | [H1 _]];
        apply H1. }
    unfold cats_inv, groups_of.
    cbn [recommended_by_cat systems current_system dict_get].
    split; [ split; [ reflexivity | split; constructor ] |].
    split; [ exact Hs1 |]. reflexivity.
  - intros [= <-]. unfold cats_inv, groups_of in *.
    cbn [recommended_by_cat systems current_system].
    split; [ exact Hc |]. split; [ exact Hs |].
    rewrite dict_get_set_other by discriminate.
    destruct (current_system st); [ exact Hcur | reflexivity ].
  - intros [= <-]. exact Hinv.
  - rewrite Ee. cbn [bind]. intros Hg.
    destruct Hce' as (Hc' & Hs' & Hcur').
    destruct (get_or_create_wf _ _ _ Hwfe Hg) as (_ & _ & H1 & H2 & _).
    unfold cats_inv. rewrite H1, H2.
    split; [ exact (get_or_create_cats _ _ _ Hnan Hc' Hg) | now split ].
  - rewrite Ee. cbn [bind]. intros [= <-]. exact Hce'.
  - intros [= <-]. exact Hinv.
  - intros [= <-]. exact Hinv.
  - intros [= <-]. exact Hinv.
Qed.

Lemma mps_loop_cats (entries : list entry) :
  forallb (fun e => negb (nan_category e)) entries = true ->
  forall st st',
    mps_wf st -> cats_inv st ->
    for_each mps_body entries st = Ok st' -> mps_wf st' /\ cats_inv st'.
Proof.
  induction entries as [| e es IH]; cbn [forallb for_each]; intros Hn st st' Hw Hc.
  - intros [= <-]. now split.
  - apply andb_prop in Hn. destruct Hn as [He Hes].
    apply negb_true_iff in He.
    intros Hl. apply bind_Ok_inv in Hl. destruct Hl as (s1 & Hb & Hl).
    exact (IH Hes s1 st' (mps_body_wf st s1 e Hw Hb)
             (mps_body_cats st s1 e He Hw Hc Hb) Hl).
Qed.

(** A NaN category can head two groups of one system: each ["nan"] of the
    stream is a NaN that equals no key, so each opens a group. *)
Example process_mps_nan_categories :
  match process_mps nan_category_example with
  | Ok out => List.map (fun sys => List.map category_of (groups_in sys)) out
  | Raise _ => []
  end
  = [[VFloat S754_nan; VStr "Cat"; VFloat S754_nan]].
Proof. vm_compute. reflexivity. Qed.

(** X11. On a stream none of whose category values is a NaN, whenever
    [process_mps] returns, no system holds two recommendation groups filed
    under the same category, however the categories are interleaved in the
    stream, nor two whose categories are equal as dict keys ([True], [1]
    and [1.0] are one key); at most one group of a system has no category,
    and every group holds a list of system elements. *)
Theorem process_mps_one_group_per_category (entries : list entry)
    (out : list value) :
  forallb (fun e => negb (nan_category e)) entries = true ->
  process_mps entries = Ok out ->
  Forall (fun sys =>
            NoDup (List.map category_of (groups_in sys))
            /\ distinct_keys (List.map category_of (groups_in sys)) = true
            /\ Forall (fun g => exists xs, elements_of g = Some xs)
                 (groups_in sys)) out.
Proof.
  unfold process_mps. intros Hn Hp.
  apply bind_Ok_inv in Hp. destruct Hp as (st & Hl & Hp).
  apply bind_Ok_inv in Hp. destruct Hp as (st1 & Hf & Hp).
  injection Hp as <-.
  assert (Hinit : cats_inv mps_init).
  { repeat split; constructor. }
  destruct (mps_loop_cats entries Hn mps_init st (mps_wf_reset _ _ _ _)
              Hinit Hl) as [Hw Hc].
  destruct (finalize_system_cats st st1 Hw Hc Hf) as [[H1 _] | [H1 _]];
    apply H1.
Qed.

(** ** The sections of the assembled document *)

Section Sections.

Context `{Repr}.

Lemma force_fields_other (doc doc' : dict) (k : string) :
  k <> "buildingData" -> k <> "certifierDetails" ->
  force_fields doc = Ok doc' -> dict_get doc' k = dict_get doc k.
Proof.
  unfold force_fields. intros H1 H2 Hf.
  repeat (apply bind_Ok_inv in Hf;
          let d := fresh "d" in
          let Hs := fresh "Hs" in
          destruct Hf as (d & Hs & Hf);
          apply force_str_other with (k := k) in Hs;
          [ rewrite <- Hs; clear Hs | cbn [hd]; congruence ]).
  apply force_str_other with (k := k) in Hf; [| cbn [hd]; congruence ].
  exact Hf.
Qed.

Lemma section_set (doc : dict) (key k : string) (items : list value) :
  dict_get (match items with
            | [] => doc
            | _ => dict_set doc key (VList items)
            end) k
  = if String.eqb key k then section_value items (dict_get doc k)
    else dict_get doc k.
Proof.
  destruct (String.eqb_spec key k) as [<- | Hne].
  - destruct items; [ reflexivity | apply dict_get_set_same ].
  - destruct items; [ reflexivity | now apply dict_get_set_other ].
Qed.

(** X12. Whenever [transform_json] returns, the four builders have
    returned on the four streams of [split_entries]; each of the three
    section keys holds the list its builder produced when that list is not
    empty, replacing what the generic entries put there, and is left as
    the generic entries made it when the list is empty.  Every top-level
    key other than the sections, [buildingData], [certifierDetails],
    [validity] and the two attachments is exactly as [process_other]
    produced it. *)
Theorem transform_json_sections (input : input_obj)
    (pdf_bytes : list Byte.byte) (images : list image) (out : dict) :
  transform_json input pdf_bytes images = Ok out ->
  exists b m p odoc,
    process_boundary (boundary (split_entries (default [] (data input)))) = Ok b
    /\ process_mpd (mpd (split_entries (default [] (data input)))) = Ok m
    /\ process_mps (mps (split_entries (default [] (data input)))) = Ok p
    /\ process_other (other (split_entries (default [] (data input)))) = Ok odoc
    /\ dict_get out "boundaryAndOpeningStructures"
       = section_value b (dict_get odoc "boundaryAndOpeningStructures")
    /\ dict_get out "modernisationProposalDetails"
       = section_value m (dict_get odoc "modernisationProposalDetails")
    /\ dict_get out "modernisationProposalsOfBuildingServicesSystems"
       = section_value p
           (dict_get odoc "modernisationProposalsOfBuildingServicesSystems")
    /\ forall k, ~ In k touched_keys -> dict_get out k = dict_get odoc k.
Proof.
  unfold transform_json. intros Ht.
  apply bind_Ok_inv in Ht. destruct Ht as (d0 & Hm & Ht).
  apply bind_Ok_inv in Ht. destruct Ht as (d1 & Hf & Ht).
  apply bind_Ok_inv in Ht. destruct Ht as (d2 & Hr & Ht).
  injection Ht as <-.
  unfold materialize in Hm. cbv zeta in Hm.
  apply bind_Ok_inv in Hm. destruct Hm as (b & Hb & Hm).
  apply bind_Ok_inv in Hm. destruct Hm as (m & Hmp & Hm).
  apply bind_Ok_inv in Hm. destruct Hm as (p & Hp & Hm).
  apply bind_Ok_inv in Hm. destruct Hm as (odoc & Ho & Hm).
  injection Hm as <-.
  exists b, m, p, odoc.
  split; [ exact Hb |]. split; [ exact Hmp |]. split; [ exact Hp |].
  split; [ exact Ho |].
  assert (Hout : forall k,
             k <> "buildingData" -> k <> "certifierDetails" ->
             k <> "validity" -> k <> "calculationsPdfFileContent" ->
             k <> "photos" ->
             dict_get (attach pdf_bytes images d2) k
             = dict_get
                 (match p with
                  | [] =>
                      match m with
                      | [] =>
                          match b with
                          | [] => odoc
                          | _ => dict_set odoc "boundaryAndOpeningStructures"
                                   (VList b)
                          end
                      | _ =>
                          dict_set
                            (match b with
                             | [] => odoc
                             | _ => dict_set odoc "boundaryAndOpeningStructures"
                                      (VList b)
                             end) "modernisationProposalDetails" (VList m)
                      end
                  | _ =>
                      dict_set
                        (match m with
                         | [] =>
                             match b with
                             | [] => odoc
                             | _ => dict_set odoc "boundaryAndOpeningStructures"
                                      (VList b)
                             end
                         | _ =>
                             dict_set
                               (match b with
                                | [] => odoc
                                | _ =>
                                    dict_set odoc "boundaryAndOpeningStructures"
                                      (VList b)
                                end) "modernisationProposalDetails" (VList m)
                         end)
                        "modernisationProposalsOfBuildingServicesSystems"
                        (VList p)
                  end) k).
  { intros k H1 H2 H3 H4 H5. unfold attach.
    rewrite !dict_get_set_other by congruence.
    rewrite (reformat_date_other d1 d2 k Hr H3).
    rewrite (force_fields_other _ d1 k H1 H2 Hf).
    destruct p, m, b; reflexivity. }
  repeat split.
  - rewrite Hout by discriminate. rewrite !section_set. reflexivity.
  - rewrite Hout by discriminate. rewrite !section_set. reflexivity.
  - rewrite Hout by discriminate. rewrite !section_set. reflexivity.
  - intros k Hk. unfold touched_keys in Hk. cbn [In] in Hk.
    rewrite Hout by (intros ->; tauto). rewrite !section_set.
    destruct (String.eqb_spec "modernisationProposalsOfBuildingServicesSystems" k);
      [ subst; tauto |].
    destruct (String.eqb_spec "modernisationProposalDetails" k);
      [ subst; tauto |].
    destruct (String.eqb_spec "boundaryAndOpeningStructures" k);
      [ subst; tauto |].
    reflexivity.
Qed.

End Sections.

(** ** The conversion endpoint *)

Lemma mem_In (c : string) (l : list string) : mem c l = true <-> In c l.
Proof.
  unfold mem. rewrite existsb_exists. split.
  - intros (x & Hin & Heq). apply String.eqb_eq in Heq. now subst.
  - intros Hin. exists c. split; [ exact Hin | apply String.eqb_refl ].
Qed.

Lemma mem_not_In (c : string) (l : list string) : mem c l = false <-> ~ In c l.
Proof.
  rewrite <- mem_In. destruct (mem c l); split; congruence.
Qed.

Lemma required_all_iff (categories : list string) :
  forallb (fun c => mem c categories) REQUIRED_CATEGORIES = true
  <-> ~ lacks_required categories.
Proof.
  rewrite forallb_forall. unfold lacks_required. split.
  - intros Hall (c & Hin & Hno). apply Hno, mem_In, Hall, Hin.
  - intros Hno c Hin. destruct (mem c categories) eqn:Em; [ reflexivity |].
    exfalso. apply Hno. exists c. split; [ exact Hin | now apply mem_not_In ].
Qed.

Lemma classic_lacks (categories : list string) :
  lacks_required categories \/ ~ lacks_required categories.
Proof.
  destruct (forallb (fun c => mem c categories) REQUIRED_CATEGORIES) eqn:E.
  - right. now apply required_all_iff.
  - left. destruct (existsb (fun c => negb (mem c categories))
                      REQUIRED_CATEGORIES) eqn:Ex.
    + apply existsb_exists in Ex. destruct Ex as (c & Hin & Hc).
      exists c. split; [ exact Hin |]. apply mem_not_In.
      now apply negb_true_iff.
    + exfalso. rewrite <- not_true_iff_false in E. apply E.
      apply forallb_forall. intros c Hin.
      destruct (mem c categories) eqn:Em; [ reflexivity |].
      rewrite <- not_true_iff_false in Ex. exfalso. apply Ex.
      apply existsb_exists. exists c. now rewrite Em.
Qed.

Lemma sorted_missing (categories : list string) :
  sorted (filter (fun c => negb (mem c categories)) REQUIRED_CATEGORIES)
  = filter (fun c => negb (mem c categories)) required_in_order.
Proof.
  unfold REQUIRED_CATEGORIES, required_in_order. cbn [filter].
  destruct (mem "coverPhoto" categories),
    (mem "characteristicHeatExchanger" categories),
    (mem "characteristicOpeningStructure" categories); reflexivity.
Qed.

Lemma zip3_length {A B C : Type} (xs : list A) :
  forall (ys : list B) (zs : list C),
    List.length (zip3 xs ys zs)
    = Nat.min (List.length xs) (Nat.min (List.length ys) (List.length zs)).
Proof.
  induction xs as [| x xs IH]; intros [| y ys] [| z zs];
    cbn [zip3 List.length]; try lia.
  rewrite IH. lia.
Qed.

Lemma split_hyphen_head (s : string) :
  forall acc,
    exists p,
      hd "" (Str.split_go "-" 0 acc s) = (acc ++ p)%string
      /\ has_char "-" p = false
      /\ (s = p \/ exists rest, s = (p ++ "-" ++ rest)%string).
Proof.
  induction s as [| c s IH]; intros acc; cbn [Str.split_go].
  - exists ""%string. cbn [hd]. split; [| split; [ reflexivity | now left ] ].
    clear. induction acc as [| a acc IHa]; cbn; congruence.
  - cbn [String.prefix]. destruct (ascii_dec "-" c) as [<- | Hc].
    + destruct s; cbn [String.prefix hd];
        (exists ""%string; split;
         [ clear; induction acc as [| a acc IHa]; cbn; congruence
         | split; [ reflexivity | right; eexists; reflexivity ] ]).
    + destruct (IH (acc ++ String c "")%string) as (p & Hh & Hp & Hs).
      exists (String c p). split; [| split ].
      * rewrite Hh. clear. induction acc as [| a acc IHa]; cbn; congruence.
      * cbn [has_char]. rewrite Hp, orb_false_r.
        apply Ascii.eqb_neq. congruence.
      * destruct Hs as [-> | [rest ->]]; [ now left |].
        right. exists rest. reflexivity.
Qed.

Section EndpointFacts.

Context `{Repr}.

Variable get_object : string -> string + list Byte.byte.
Variable loads : list Byte.byte -> option input_obj.
Variable dumps : dict -> list Byte.byte.

(** X13. [convert] turns a request down before it fetches anything
    exactly when the number of images differs from both the number of
    categories and the number of notes, or when one of the three required
    categories is not among the categories sent.  The answer is then a 400
    whose detail is the count message in the first case and otherwise
    names the missing categories in alphabetical order.  In every other
    case the first thing it does is fetch the key from S3. *)
Theorem convert_checks_first (delete_object : string -> option string)
    (json_key : string) (pdf : list Byte.byte)
    (images : list (list Byte.byte)) (categories notes : list string) :
  ((count_mismatch images categories notes \/ lacks_required categories)
   <-> s3_calls (convert get_object loads dumps delete_object json_key pdf
                   images categories notes) = [])
  /\ (count_mismatch images categories notes ->
      convert get_object loads dumps delete_object json_key pdf images
        categories notes
      = {| ending_of :=
             HTTPException 400 "Number of images and categories must match.";
           s3_calls := []; printed := [] |})
  /\ (~ count_mismatch images categories notes ->
      lacks_required categories ->
      convert get_object loads dumps delete_object json_key pdf images
        categories notes
      = {| ending_of :=
             HTTPException 400
               ("Missing required image categories: "
                ++ String.concat ", "
                     (filter (fun c => negb (mem c categories))
                        required_in_order));
           s3_calls := []; printed := [] |})
  /\ (~ count_mismatch images categories notes ->
      ~ lacks_required categories ->
      exists rest,
        s3_calls (convert get_object loads dumps delete_object json_key pdf
                    images categories notes)
        = GetObject json_key :: rest).
Proof.
  assert (Hcm : negb (Nat.eqb (List.length images) (List.length categories))
                && negb (Nat.eqb (List.length images) (List.length notes))
                = true
                <-> count_mismatch images categories notes).
  { unfold count_mismatch. rewrite andb_true_iff, !negb_true_iff.
    now rewrite !Nat.eqb_neq. }
  pose proof (required_all_iff categories) as Hreq.
  unfold convert. rewrite sorted_missing.
  destruct (negb (Nat.eqb (List.length images) (List.length categories))
            && negb (Nat.eqb (List.length images) (List.length notes))).
  { assert (Hc : count_mismatch images categories notes) by now apply Hcm.
    cbn [s3_calls]. repeat split; auto; tauto. }
  assert (Hc : ~ count_mismatch images categories notes).
  { intros Hc. apply Hcm in Hc. discriminate. }
  destruct (forallb (fun c => mem c categories) REQUIRED_CATEGORIES).
  2:{ assert (Hl : lacks_required categories).
      { destruct (classic_lacks categories) as [Hl | Hl]; [ exact Hl |].
        apply Hreq in Hl. discriminate. }
      cbn [negb s3_calls]. repeat split; auto; tauto. }
  assert (Hl : ~ lacks_required categories) by now apply Hreq.
  cbn [negb].
  assert (Hfetch : exists rest,
             s3_calls
               (match get_object json_key with
                | inl e =>
                    {| ending_of :=
                         HTTPException 500
                           ("Failed to download JSON from S3: " ++ e);
                       s3_calls := [GetObject json_key]; printed := [] |}
                | inr raw_json_bytes =>
                    match loads raw_json_bytes with
                    | None =>
                        {| ending_of :=
                             HTTPException 400
                               "Invalid JSON content in S3 object.";
                           s3_calls := [GetObject json_key]; printed := [] |}
                    | Some input =>
                        match transform_json input pdf
                                (images_meta images categories notes) with
                        | Raise e =>
                            {| ending_of := Uncaught e;
                               s3_calls := [GetObject json_key];
                               printed := [] |}
                        | Ok result_dict =>
                            {| ending_of :=
                                 StreamingResponse (dumps result_dict)
                                   "application/json"
                                   ("attachment; filename=" ++ dquote
                                    ++ nth 0 (Str.split "-" json_key) ""
                                    ++ ".json" ++ dquote);
                               s3_calls :=
                                 [GetObject json_key; DeleteObject json_key];
                               printed :=
                                 match delete_object json_key with
                                 | Some e =>
                                     [("Failed to delete original JSON from S3 ("
                                       ++ json_key ++ "): " ++ e)%string]
                                 | None => []
                                 end |}
                        end
                    end
                end) = GetObject json_key :: rest).
  { destruct (get_object json_key) as [e | raw]; [ now eexists |].
    destruct (loads raw) as [input |]; [| now eexists ].
    destruct (transform_json _ _ _); now eexists. }
  destruct Hfetch as [rest Hrest].
  split; [| split; [ tauto | split; [ tauto | intros _ _; eauto ] ] ].
  cbv zeta. rewrite Hrest. split; [ tauto | discriminate ].
Qed.


(** X15. A run of [convert] that ends with the file has passed both
    checks, fetched and parsed the key, and carries the JSON encoding of
    what [transform_json] made of it.  The [photos] of that document pair
    the images with the categories and notes by position and stop at the
    shortest of the three lists.  The download is named after the text of
    the key before its first hyphen, the whole key when it has none. *)
Theorem convert_success (delete_object : string -> option string)
    (json_key : string) (pdf : list Byte.byte)
    (images : list (list Byte.byte)) (categories notes : list string)
    (body : list Byte.byte) (media_type content_disposition : string) :
  ending_of (convert get_object loads dumps delete_object json_key pdf images
               categories notes)
  = StreamingResponse body media_type content_disposition ->
  exists raw input out lead,
    get_object json_key = inr raw
    /\ loads raw = Some input
    /\ transform_json input pdf (images_meta images categories notes) = Ok out
    /\ body = dumps out
    /\ dict_get out "photos"
       = Some (VList (List.map photo_of (zip3 images categories notes)))
    /\ List.length (zip3 images categories notes)
       = Nat.min (List.length images)
           (Nat.min (List.length categories) (List.length notes))
    /\ media_type = "application/json"
    /\ content_disposition
       = ("attachment; filename=" ++ dquote ++ lead ++ ".json" ++ dquote)%string
    /\ has_char "-" lead = false
    /\ (json_key = lead \/ exists rest, json_key = (lead ++ "-" ++ rest)%string)
    /\ ~ count_mismatch images categories notes
    /\ (forall c, In c REQUIRED_CATEGORIES -> In c categories).
Proof.
  unfold convert.
  destruct (negb (Nat.eqb (List.length images) (List.length categories))
            && negb (Nat.eqb (List.length images) (List.length notes)))
    eqn:Ecm; [ discriminate |].
  destruct (forallb (fun c => mem c categories) REQUIRED_CATEGORIES) eqn:Ereq;
    cbn [negb]; [| discriminate ].
  destruct (get_object json_key) as [e | raw] eqn:Eg; [ discriminate |].
  destruct (loads raw) as [input |] eqn:El; [| discriminate ].
  destruct (transform_json input pdf (images_meta images categories notes))
    as [out | e] eqn:Et; [| discriminate ].
  cbn [ending_of]. intros [= <- <- <-].
  destruct (split_hyphen_head json_key "") as (lead & Hh & Hl & Hs).
  exists raw, input, out, lead.
  split; [ reflexivity |]. split; [ exact El |]. split; [ exact Et |].
  split; [ reflexivity |]. split.
  { unfold transform_json in Et.
    apply bind_Ok_inv in Et. destruct Et as (d1 & _ & Et).
    apply bind_Ok_inv in Et. destruct Et as (d2 & _ & Et).
    apply bind_Ok_inv in Et. destruct Et as (d3 & _ & Et).
    injection Et as <-. unfold attach. rewrite dict_get_set_same.
    unfold images_meta. rewrite map_map. do 2 f_equal.
    apply map_ext. intros [[img c] n]. reflexivity. }
  split; [ apply zip3_length |]. split; [ reflexivity |].
  split.
  { unfold Str.split. replace (nth 0 (Str.split_go "-" 0 "" json_key) "")
      with (hd "" (Str.split_go "-" 0 "" json_key))
      by (destruct (Str.split_go "-" 0 "" json_key); reflexivity).
    rewrite Hh. reflexivity. }
  split; [ exact Hl |]. split; [ exact Hs |]. split.
  - unfold count_mismatch. intros [H1 H2].
    apply Nat.eqb_neq in H1, H2. rewrite H1, H2 in Ecm. discriminate.
  - intros c Hin. rewrite forallb_forall in Ereq. now apply mem_In, Ereq.
Qed.

End EndpointFacts.

(** ** Running the further properties on concrete input *)

Lemma boundary_example_run :
  @process_boundary plain_repr boundary_example = Ok boundary_example_out.
Proof. vm_compute. reflexivity. Qed.

Lemma mps_interleaved_run : process_mps mps_interleaved = Ok mps_interleaved_out.
Proof. vm_compute. reflexivity. Qed.

Lemma other_sample_run : process_other other_sample = Ok other_sample_out.
Proof. vm_compute. reflexivity. Qed.

Lemma minimal_transform :
  @transform_json plain_repr minimal_input pdf_example images_example
  = Ok minimal_out.
Proof. vm_compute. reflexivity. Qed.

Lemma sample_transform :
  @transform_json plain_repr sample_input pdf_example images_example
  = Ok sample_out.
Proof. vm_compute. reflexivity. Qed.

Lemma sample_run_ending :
  ending_of (@convert plain_repr sample_get_object sample_loads sample_dumps
               sample_delete_object sample_key pdf_example sample_images
               sample_categories sample_notes)
  = StreamingResponse [Byte.x7b; Byte.x7d] "application/json"
      ("attachment; filename=" ++ dquote ++ "L123.json" ++ dquote).
Proof. vm_compute. reflexivity. Qed.

Lemma process_boundary_records_witness :
  @process_boundary plain_repr boundary_example = Ok boundary_example_out
  /\ Forall (fun r => exists k q qs, r = structure_record k (q :: qs))
       boundary_example_out
  /\ (exists ws,
         map_result normalized (windows 4 boundary_example) = Ok ws
         /\ Permutation
              (List.concat (List.map qualities_in boundary_example_out))
              (List.map quality_of (filter kept ws)))
  /\ (List.length boundary_example_out <= List.length boundary_example / 4)%nat.
Proof.
  split; [ exact boundary_example_run |].
  exact (@process_boundary_records plain_repr boundary_example
           boundary_example_out boundary_example_run).
Defined.

Lemma process_mps_systems_witness :
  process_mps mps_interleaved = Ok mps_interleaved_out
  /\ exists nes,
       normalized_entries mps_interleaved = Ok nes
       /\ List.map header_of mps_interleaved_out = system_headers nes.
Proof.
  split; [ exact mps_interleaved_run |].
  exact (process_mps_systems mps_interleaved mps_interleaved_out
           mps_interleaved_run).
Defined.

Lemma process_other_key_order_witness :
  process_other other_sample = Ok other_sample_out
  /\ exists nes,
       normalized_entries other_sample = Ok nes
       /\ List.map fst other_sample_out =
          first_seen (List.map entry_top_key (generic_entries nes)
                      ++ match enabled_energies nes with
                         | [] => []
                         | _ => ["usingAlternativeEnergy"]
                         end)
       /\ NoDup (List.map fst other_sample_out).
Proof.
  split; [ exact other_sample_run |].
  exact (process_other_key_order other_sample other_sample_out
           other_sample_run).
Defined.

Lemma transform_json_forced_fields_witness :
  @materialize plain_repr minimal_input = Ok minimal_doc
  /\ @transform_json plain_repr minimal_input pdf_example images_example
     = Ok minimal_out
  /\ Forall (fun f => exists v,
                 get_path (VDict minimal_doc) (snd f) = Ok v
                 /\ get_path (VDict minimal_out) (snd f)
                    = Ok (VStr (fst f ++ @py_str plain_repr v))
                 /\ (forall s, v = VStr s ->
                               get_path (VDict minimal_out) (snd f)
                               = Ok (VStr (fst f ++ s))))
       forced_fields.
Proof.
  split; [ exact minimal_materialize |].
  split; [ exact minimal_transform |].
  exact (@transform_json_forced_fields plain_repr minimal_input pdf_example
           images_example minimal_doc minimal_out minimal_materialize
           minimal_transform).
Defined.

Lemma transform_json_returns_witness :
  @materialize plain_repr minimal_input = Ok minimal_doc
  /\ ((exists out,
          @transform_json plain_repr minimal_input pdf_example images_example
          = Ok out)
      <-> (Forall (fun f => readable minimal_doc (snd f)) forced_fields
           /\ exists s d, get_path (VDict minimal_doc) date_path = Ok (VStr s)
                          /\ Date.strptime s = Some d)).
Proof.
  split; [ exact minimal_materialize |].
  exact (proj1 (@transform_json_returns plain_repr minimal_input pdf_example
                  images_example minimal_doc minimal_materialize)).
Defined.

Lemma transform_json_date_format_witness :
  @transform_json plain_repr minimal_input pdf_example images_example
  = Ok minimal_out
  /\ exists (d : Date.date) (y1 y2 m1 m2 d1 d2 : ascii),
       get_path (VDict minimal_out) date_path = Ok (VStr (Date.strftime d))
       /\ Date.strftime d =
          (pair_of y1 y2 ++ "." ++ pair_of m1 m2 ++ "." ++ pair_of d1 d2
           ++ ".")%string
       /\ Str.all Str.is_digit
            (String y1 (String y2 (String m1 (String m2 (String d1
               (String d2 "")))))) = true
       /\ 1 <= Date.month d <= 12
       /\ 1 <= Date.day d <= Date.days_in_month (Date.year d) (Date.month d)
       /\ 1969 <= Date.year d <= 2068.
Proof.
  split; [ exact minimal_transform |].
  exact (@transform_json_date_format plain_repr minimal_input pdf_example
           images_example minimal_out minimal_transform).
Defined.

Lemma process_mps_one_group_per_category_witness :
  process_mps mps_interleaved = Ok mps_interleaved_out
  /\ List.map (fun sys => List.map category_of (groups_in sys))
       mps_interleaved_out
     = [[VStr "Cat1"; VStr "Cat2"]; []]
  /\ Forall (fun sys =>
               NoDup (List.map category_of (groups_in sys))
               /\ distinct_keys (List.map category_of (groups_in sys)) = true
               /\ Forall (fun g => exists xs, elements_of g = Some xs)
                    (groups_in sys)) mps_interleaved_out.
Proof.
  split; [ exact mps_interleaved_run |].
  split; [ vm_compute; reflexivity |].
  apply (process_mps_one_group_per_category mps_interleaved
           mps_interleaved_out).
  - vm_compute. reflexivity.
  - exact mps_interleaved_run.
Defined.

Lemma transform_json_sections_witness :
  @transform_json plain_repr sample_input pdf_example images_example
  = Ok sample_out
  /\ exists b m p odoc,
       @process_boundary plain_repr
         (boundary (split_entries (default [] (data sample_input)))) = Ok b
       /\ process_mpd (mpd (split_entries (default [] (data sample_input))))
          = Ok m
       /\ process_mps (mps (split_entries (default [] (data sample_input))))
          = Ok p
       /\ process_other (other (split_entries (default [] (data sample_input))))
          = Ok odoc
       /\ dict_get sample_out "boundaryAndOpeningStructures"
          = section_value b (dict_get odoc "boundaryAndOpeningStructures")
       /\ dict_get sample_out "modernisationProposalDetails"
          = section_value m (dict_get odoc "modernisationProposalDetails")
       /\ dict_get sample_out "modernisationProposalsOfBuildingServicesSystems"
          = section_value p
              (dict_get odoc "modernisationProposalsOfBuildingServicesSystems")
       /\ forall k, ~ In k touched_keys ->
                    dict_get sample_out k = dict_get odoc k.
Proof.
  split; [ exact sample_transform |].
  exact (@transform_json_sections plain_repr sample_input pdf_example
           images_example sample_out sample_transform).
Defined.

Lemma convert_success_witness :
  ending_of sample_run
  = StreamingResponse [Byte.x7b; Byte.x7d] "application/json"
      ("attachment; filename=" ++ dquote ++ "L123.json" ++ dquote)
  /\ exists raw input out lead,
       sample_get_object sample_key = inr raw
       /\ sample_loads raw = Some input
       /\ @transform_json plain_repr input pdf_example
            (images_meta sample_images sample_categories sample_notes) = Ok out
       /\ [Byte.x7b; Byte.x7d] = sample_dumps out
       /\ dict_get out "photos"
          = Some (VList (List.map photo_of
                           (zip3 sample_images sample_categories sample_notes)))
       /\ List.length (zip3 sample_images sample_categories sample_notes)
          = Nat.min (List.length sample_images)
              (Nat.min (List.length sample_categories)
                 (List.length sample_notes))
       /\ "application/json" = "application/json"
       /\ ("attachment; filename=" ++ dquote ++ "L123.json" ++ dquote)%string
          = ("attachment; filename=" ++ dquote ++ lead ++ ".json" ++ dquote)%string
       /\ has_char "-" lead = false
       /\ (sample_key = lead
           \/ exists rest, sample_key = (lead ++ "-" ++ rest)%string)
       /\ ~ count_mismatch sample_images sample_categories sample_notes
       /\ (forall c, In c REQUIRED_CATEGORIES -> In c sample_categories).
Proof.
  split; [ vm_compute; reflexivity |].
  exact (@convert_success plain_repr sample_get_object sample_loads
           sample_dumps sample_delete_object sample_key pdf_example
           sample_images sample_categories sample_notes
           [Byte.x7b; Byte.x7d] "application/json"
           ("attachment; filename=" ++ dquote ++ "L123.json" ++ dquote)
           sample_run_ending).
Defined.
